(** * The Firestore client of nodejs-firestore: request funnel, settings and
      transaction options

    A shallow embedding of [dev/src/index.ts] (class [Firestore]) and proofs of
    the properties its specification states about it.

    - JavaScript objects used as maps (the settings, call headers) are
      [gmap string JsVal]; a property that is absent reads as [VUndefined].
    - A method that can throw returns a [Completion]; a method that also
      mutates the client runs in the state-and-exception monad [M].
    - A promise is represented by the way it settles ([Promise]): resolved,
      rejected, or never settled.
    - Event-driven code ([_initializeStream]) is a transition function over the
      events of the backend stream, in arrival order. *)

From Stdlib Require Import ZArith Ascii.
From stdpp Require Import gmap strings list fin_maps pretty.

Set Warnings "-register-all".
Set Default Proof Using "Type".

(* ===================================================================== *)
(** ** JavaScript values                                                  *)
(* ===================================================================== *)

Module Js.

(** A JavaScript number, as far as the client looks at it: integral
    values, [NaN], and every other number (finite with a fractional part,
    or infinite); the last kind is truthy and fails [value % 1 === 0]. *)
Inductive JsNumber :=
| NumInt (z : Z)
| NumNaN
| NumNonInt.

Inductive JsVal :=
| VUndefined
| VNull
| VBool (b : bool)
| VNum (n : JsNumber)
| VStr (s : string)
| VObj (o : gmap string JsVal)
| VFun
| VTimestamp (seconds nanoseconds : Z).

(** [ToBoolean]: what [if (v)] and [v || w] test. *)
Definition truthy (v : JsVal) : bool :=
  match v with
  | VUndefined | VNull => false
  | VBool b => b
  | VNum (NumInt z) => negb (z =? 0)%Z
  | VNum NumNaN => false
  | VNum NumNonInt => true
  | VStr s => negb (String.eqb s "")
  | VObj _ | VFun | VTimestamp _ _ => true
  end.

(** [v || w] *)
Definition js_or (v w : JsVal) : JsVal := if truthy v then v else w.

(** [o.k] on an object used as a map: an absent key reads [undefined]. *)
Definition get (k : string) (o : gmap string JsVal) : JsVal :=
  default VUndefined (o !! k).

(** [v.k] for any value that is not [undefined] or [null]. A [Timestamp]
    exposes its two getters; the primitives have none of the keys the
    client reads. *)
Definition prop (v : JsVal) (k : string) : JsVal :=
  match v with
  | VObj o => get k o
  | VTimestamp s n =>
      if String.eqb k "seconds" then VNum (NumInt s)
      else if String.eqb k "nanoseconds" then VNum (NumInt n)
      else VUndefined
  | _ => VUndefined
  end.

(** [v?.k] *)
Definition opt_prop (v : JsVal) (k : string) : JsVal :=
  match v with
  | VUndefined | VNull => VUndefined
  | _ => prop v k
  end.

(** The characters of a string as the entries ["0"], ["1"], ... that a
    spread of the string copies. *)
Fixpoint string_entries (i : nat) (s : string) : gmap string JsVal :=
  match s with
  | EmptyString => ∅
  | String c rest =>
      <[pretty i := VStr (String c EmptyString)]> (string_entries (S i) rest)
  end.

(** The own enumerable properties that [{...v}] copies: those of an
    object, the indexed characters of a string, nothing for the other
    values ([undefined] and [null] included). The private fields of a
    [Timestamp] are not part of the model. *)
Definition own_props (v : JsVal) : gmap string JsVal :=
  match v with
  | VObj o => o
  | VStr s => string_entries 0 s
  | _ => ∅
  end.

(** [{...a, ...b}]: the keys of both, [b] winning. stdpp's union is
    left-biased, hence the order. *)
Definition spread2 (a b : gmap string JsVal) : gmap string JsVal := b ∪ a.

(** [Number(s)] for the strings a URL's [port] can be: decimal digits, or
    the empty string (which converts to 0). Anything else is [NaN]. *)
Definition digit_of (c : Ascii.ascii) : option Z :=
  let n := Z.of_nat (Ascii.nat_of_ascii c) in
  if ((48 <=? n) && (n <=? 57))%Z then Some (n - 48)%Z else None.

Fixpoint digits_value (acc : Z) (s : string) : option Z :=
  match s with
  | EmptyString => Some acc
  | String c rest =>
      match digit_of c with
      | Some d => digits_value (10 * acc + d)%Z rest
      | None => None
      end
  end.

Definition Number (s : string) : JsNumber :=
  match digits_value 0 s with
  | Some z => NumInt z
  | None => NumNaN
  end.

End Js.
Export Js.

(* ===================================================================== *)
(** ** Errors, completions and promises                                   *)
(* ===================================================================== *)

(** What the client throws or rejects with. *)
Inductive Error :=
| InvalidArgument (arg expected : string)   (* thrown by the validate helpers *)
| UsageError (message : string)             (* [new Error(message)] of index.ts *)
| RejectedWith (message : string)           (* [Promise.reject('...')] *)
| TypeError (message : string)              (* thrown by the runtime *)
| RpcError (code : Z) (message : string).   (* reported by the transport *)

Definition is_validation_error (e : Error) : bool :=
  match e with InvalidArgument _ _ => true | _ => false end.

(** The result of a synchronous call. *)
Inductive Completion (A : Type) :=
| Return (a : A)
| Throw (e : Error).
Arguments Return {A} a.
Arguments Throw {A} e.

(** How a promise settles; [Pending] is a promise that never does. The
    rejection value is a parameter: [_retry] rejects with whatever its
    callback rejected with. *)
Inductive Promise (A E : Type) :=
| Resolved (a : A)
| Rejected (e : E)
| Pending.
Arguments Resolved {A E} a.
Arguments Rejected {A E} e.
Arguments Pending {A E}.

(** State and exceptions: a method of an object with state [S]. The state
    that comes back with a [Throw] is the state at the point of the throw,
    so assignments made before it are kept, as in JavaScript. *)
Definition M (S A : Type) : Type := S -> S * Completion A.

Definition throw {S A} (e : Error) : M S A := fun s => (s, Throw e).
Definition gets {S A} (f : S -> A) : M S A := fun s => (s, Return (f s)).
Definition modify {S} (f : S -> S) : M S unit := fun s => (f s, Return tt).
(** A check that does not touch the state. *)
Definition lift {S A} (c : Completion A) : M S A := fun s => (s, c).
(** A step that cannot throw. *)
Definition run_state {S A} (f : S -> S * A) : M S A :=
  fun s => let '(s', a) := f s in (s', Return a).

(** Both are monads; the instances give them stdpp's [x ← m; k] and
    [m ;; k]. *)
#[export] Instance M_ret {S} : MRet (M S) := fun A a s => (s, Return a).
#[export] Instance M_bind {S} : MBind (M S) := fun A B k m s =>
  match m s with
  | (s', Return a) => k a s'
  | (s', Throw e) => (s', Throw e)
  end.

#[export] Instance Completion_ret : MRet Completion := fun A a => Return a.
#[export] Instance Completion_bind : MBind Completion := fun A B k c =>
  match c with
  | Return a => k a
  | Throw e => Throw e
  end.

(* ===================================================================== *)
(** ** The validate helpers                                               *)
(* ===================================================================== *)

Module Validate.

(** Modelled from the spec: [validate.ts] is not among the sources. The
    helpers are modelled from the argument type that the documentation of
    each call site gives (the JSDoc in index.ts; for [maxAttempts] the
    spec's [integer ≥ 1]) and from the options passed: [optional] lets
    [undefined] through, [minValue] bounds an integer from below. A helper
    throws an [InvalidArgument] naming the argument. This one tells whether
    an optional argument was left out. *)
Definition validateOptional (value : JsVal) (optional : bool) : bool :=
  match value with
  | VUndefined => optional
  | _ => false
  end.

(** Modelled from the spec: [validateBoolean] of validate.ts (absent);
    accepts the booleans. *)
Definition validateBoolean (arg : string) (value : JsVal) (optional : bool)
  : Completion unit :=
  if validateOptional value optional then Return tt
  else match value with
       | VBool _ => Return tt
       | _ => Throw (InvalidArgument arg "boolean")
       end.

(** Modelled from the spec: [validateString] of validate.ts (absent);
    accepts the strings. *)
Definition validateString (arg : string) (value : JsVal) (optional : bool)
  : Completion unit :=
  if validateOptional value optional then Return tt
  else match value with
       | VStr _ => Return tt
       | _ => Throw (InvalidArgument arg "string")
       end.

(** Modelled from the spec: [validateInteger] of validate.ts (absent);
    accepts the integral numbers that are at least [minValue] when one is
    given ([maxAttempts?: integer ≥ 1]). *)
Definition validateInteger (arg : string) (value : JsVal) (optional : bool)
           (minValue : option Z) : Completion unit :=
  if validateOptional value optional then Return tt
  else match value with
       | VNum (NumInt z) =>
           match minValue with
           | Some lo =>
               if (z <? lo)%Z then Throw (InvalidArgument arg "integer in range")
               else Return tt
           | None => Return tt
           end
       | _ => Throw (InvalidArgument arg "integer")
       end.

(** Modelled from the spec: [validateObject] of validate.ts (absent);
    accepts the objects (a [Timestamp] is one), not functions or [null]. *)
Definition validateObject (arg : string) (value : JsVal) : Completion unit :=
  match value with
  | VObj _ | VTimestamp _ _ => Return tt
  | _ => Throw (InvalidArgument arg "object")
  end.

(** Modelled from the spec: [validateFunction] of validate.ts (absent). *)
Definition validateFunction (arg : string) (value : JsVal) : Completion unit :=
  match value with
  | VFun => Return tt
  | _ => Throw (InvalidArgument arg "function")
  end.

(** Modelled from the spec: [validateTimestamp] of validate.ts (absent);
    accepts the instances of [Timestamp] ([readTime?: Timestamp]). *)
Definition validateTimestamp (arg : string) (value : JsVal) (optional : bool)
  : Completion unit :=
  if validateOptional value optional then Return tt
  else match value with
       | VTimestamp _ _ => Return tt
       | _ => Throw (InvalidArgument arg "Timestamp")
       end.

End Validate.
Export Validate.

(* ===================================================================== *)
(** ** What the client takes from its surroundings                        *)
(* ===================================================================== *)

(** The two fields of Node's [URL] that the client reads. *)
Record URL := { hostname : string; port : string }.

(** The environment variables the client reads; a variable that is not set
    is [None]. *)
Record Env := {
  FIRESTORE_EMULATOR_HOST : option string;
  FIRESTORE_USE_REST_API : option string;
}.

(** [process.env.FIRESTORE_EMULATOR_HOST] where the client tests it in a
    condition: the value when the variable is set and not the empty string
    (which is falsy). *)
Definition emulator_host (env : Env) : option string :=
  match FIRESTORE_EMULATOR_HOST env with
  | Some s => if String.eqb s "" then None else Some s
  | None => None
  end.

(** The runtime and package facts the client is written against, none of
    them defined by index.ts:
    - [parseURL s] is Node's [new URL(s)], [None] when it throws;
    - [validHost h] tells whether [validateHost] of validate.ts accepts the
      string [h];
    - [libVersion] is the version field of package.json;
    - [stringify v] is the string a template literal makes of a value that
      is not a string. *)
Class Platform := {
  parseURL : string -> option URL;
  validHost : string -> bool;
  libVersion : string;
  stringify : JsVal -> string;
}.

(** [`${v}`] *)
Definition to_string `{Platform} (v : JsVal) : string :=
  match v with
  | VStr s => s
  | _ => stringify v
  end.

(** Modelled from the spec: [validateHost] of validate.ts (absent): the
    value has to be a string that passes the host check of the platform. *)
Definition validateHost `{Platform} (arg : string) (value : JsVal) : Completion unit :=
  match value with
  | VStr h => if validHost h then Return tt else Throw (InvalidArgument arg "host")
  | _ => Throw (InvalidArgument arg "string")
  end.

(** [new URL(`http://${host}`)] *)
Definition new_URL `{Platform} (host : JsVal) : Completion URL :=
  match parseURL ("http://" +:+ to_string host) with
  | Some u => Return u
  | None => Throw (TypeError "Invalid URL")
  end.

(* ===================================================================== *)
(** ** Resource paths                                                     *)
(* ===================================================================== *)

Module Path.

(** Modelled from the spec: [path.ts] is not among the sources. The path
    parser is the collaborator that "validates and decomposes
    slash-separated resource identifiers": [validPath] is the check that
    [validateResourcePath] makes, [split] the decomposition into
    segments. *)
Class PathParser := {
  validPath : string -> bool;
  split : string -> list string;
}.

(** Modelled from the spec: a resource path is "an ordered sequence of
    path segments", immutable, "constructed by parsing or appending
    segments". *)
Record ResourcePath := { segments : list string }.

(** Modelled from the spec: [ResourcePath.EMPTY], the path of no
    segments. *)
Definition EMPTY : ResourcePath := {| segments := [] |}.

(** Modelled from the spec: [append] parses a relative path and appends
    its segments. *)
Definition append `{PathParser} (p : ResourcePath) (relativePath : string)
  : ResourcePath :=
  {| segments := segments p ++ split relativePath |}.

(** Modelled from the spec: [isDocument] of path.ts (absent). The spec
    gives the parity as an invariant, "a document path has an even segment
    count": it holds of every document path and does not make the path
    without segments one. That path is the root of the database, under
    which the collections are; it names no document, and [doc] refuses
    it. *)
Definition isDocument (p : ResourcePath) : bool :=
  (0 <? length (segments p)) && Nat.even (length (segments p)).

(** Modelled from the spec: "a collection path odd". *)
Definition isCollection (p : ResourcePath) : bool :=
  Nat.odd (length (segments p)).

(** Modelled from the spec: [validateResourcePath] of path.ts (absent)
    throws on the strings the parser does not accept. *)
Definition validateResourcePath `{PathParser} (arg : string) (resourcePath : string)
  : Completion unit :=
  if validPath resourcePath then Return tt
  else Throw (InvalidArgument arg "resource path").

(** A parser to run the definitions on: a path is valid when it is not
    empty and has no empty segment between two slashes; the segments are
    the non-empty pieces between the slashes. *)
Fixpoint pieces (cur : string) (s : string) : list string :=
  match s with
  | EmptyString => [String.rev cur]
  | String c rest =>
      if Ascii.eqb c "/"%char then String.rev cur :: pieces EmptyString rest
      else pieces (String c cur) rest
  end.

Fixpoint has_double_slash (s : string) : bool :=
  match s with
  | String a (String b _ as rest) =>
      (Ascii.eqb a "/"%char && Ascii.eqb b "/"%char) || has_double_slash rest
  | _ => false
  end.

Definition slash_parser : PathParser :=
  {| validPath := fun s => negb (String.eqb s "") && negb (has_double_slash s);
     split := fun s => filter (fun seg => seg ≠ "") (pieces EmptyString s) |}.

End Path.
Export Path.

(** The references the client hands out: each holds the path it points
    to (the back pointer to the client is left out). *)
Record DocumentReference := { doc_path : ResourcePath }.
Record CollectionReference := { collection_path : ResourcePath }.

Section References.
Context `{PathParser}.

(** [Firestore.doc] *)
Definition doc (documentPath : string) : Completion DocumentReference :=
  validateResourcePath "documentPath" documentPath ;;
  let path := append EMPTY documentPath in
  if negb (isDocument path) then
    Throw (UsageError
      ("Value for argument documentPath must point to a document, but was "
         +:+ documentPath +:+ ". Your path does not contain an even number of components."))
  else
    Return {| doc_path := path |}.

(** [Firestore.collection] *)
Definition collection (collectionPath : string) : Completion CollectionReference :=
  validateResourcePath "collectionPath" collectionPath ;;
  let path := append EMPTY collectionPath in
  if negb (isCollection path) then
    Throw (UsageError
      ("Value for argument collectionPath must point to a collection, but was "
         +:+ collectionPath +:+ ". Your path does not contain an odd number of components."))
  else
    Return {| collection_path := path |}.

End References.

(* ===================================================================== *)
(** ** The client                                                         *)
(* ===================================================================== *)

(** HTTP header for the resource prefix. *)
Definition CLOUD_RESOURCE_HEADER : string := "google-cloud-resource-prefix".

(** The maximum number of times to retry idempotent requests. *)
Definition MAX_REQUEST_RETRIES : nat := 5.

(** The maximum number of times to attempt a transaction before failing. *)
Definition DEFAULT_MAX_TRANSACTION_ATTEMPTS : Z := 5.

(** The default number of idle GRPC channels to keep. *)
Definition DEFAULT_MAX_IDLE_CHANNELS : Z := 1.

(** The concurrent requests a single GRPC channel supports. *)
Definition MAX_CONCURRENT_REQUESTS_PER_CLIENT : Z := 100.

(** Modelled from the spec: [DEFAULT_DATABASE_ID] is a constant of path.ts
    (absent); the database root is [projects/<projectId>/databases/(default)]. *)
Definition DEFAULT_DATABASE_ID : string := "(default)".

(** Modelled from the spec: [pool.ts] is not among the sources. Of the
    client pool the client needs its configuration and whether it was
    terminated: "[terminate()] drains ... then destroys every client, failing
    any further [run()] calls with a pool-terminated error". *)
Record ClientPool := {
  concurrentOperationLimit : Z;
  maxIdleClients : JsVal;
  terminated : bool;
}.

(** Modelled from the spec: [ClientPool.terminate]. *)
Definition ClientPool_terminate (p : ClientPool) : ClientPool * Promise unit Error :=
  ({| concurrentOperationLimit := concurrentOperationLimit p;
      maxIdleClients := maxIdleClients p;
      terminated := true |},
   Resolved tt).

(** Modelled from the spec: [ClientPool.run]: the operation runs on a
    client of the pool and settles as it does, unless the pool was
    terminated. *)
Definition ClientPool_run {A} (p : ClientPool) (op : Promise A Error) : Promise A Error :=
  if terminated p then Rejected (UsageError "The client has already been terminated")
  else op.

Record Firestore := {
  _clientPool : ClientPool;
  _settings : gmap string JsVal;
  _settingsFrozen : bool;
  _projectId : JsVal;
  registeredListenersCount : Z;
  bulkWritersCount : Z;
}.

Definition set_clientPool (p : ClientPool) (fs : Firestore) : Firestore :=
  {| _clientPool := p; _settings := _settings fs;
     _settingsFrozen := _settingsFrozen fs; _projectId := _projectId fs;
     registeredListenersCount := registeredListenersCount fs;
     bulkWritersCount := bulkWritersCount fs |}.
Definition set_settings (s : gmap string JsVal) (fs : Firestore) : Firestore :=
  {| _clientPool := _clientPool fs; _settings := s;
     _settingsFrozen := _settingsFrozen fs; _projectId := _projectId fs;
     registeredListenersCount := registeredListenersCount fs;
     bulkWritersCount := bulkWritersCount fs |}.
Definition set_settingsFrozen (b : bool) (fs : Firestore) : Firestore :=
  {| _clientPool := _clientPool fs; _settings := _settings fs;
     _settingsFrozen := b; _projectId := _projectId fs;
     registeredListenersCount := registeredListenersCount fs;
     bulkWritersCount := bulkWritersCount fs |}.
Definition set_projectId (v : JsVal) (fs : Firestore) : Firestore :=
  {| _clientPool := _clientPool fs; _settings := _settings fs;
     _settingsFrozen := _settingsFrozen fs; _projectId := v;
     registeredListenersCount := registeredListenersCount fs;
     bulkWritersCount := bulkWritersCount fs |}.
Definition set_registeredListenersCount (n : Z) (fs : Firestore) : Firestore :=
  {| _clientPool := _clientPool fs; _settings := _settings fs;
     _settingsFrozen := _settingsFrozen fs; _projectId := _projectId fs;
     registeredListenersCount := n;
     bulkWritersCount := bulkWritersCount fs |}.
Definition set_bulkWritersCount (n : Z) (fs : Firestore) : Firestore :=
  {| _clientPool := _clientPool fs; _settings := _settings fs;
     _settingsFrozen := _settingsFrozen fs; _projectId := _projectId fs;
     registeredListenersCount := registeredListenersCount fs;
     bulkWritersCount := n |}.

(** [v === undefined] and [v === false] *)
Definition is_undefined (v : JsVal) : bool :=
  match v with VUndefined => true | _ => false end.
Definition is_false (v : JsVal) : bool :=
  match v with VBool false => true | _ => false end.

Section Client.
Context `{Platform}.
Variable env : Env.

(** The block of [validateAndApplySettings] under [if (url !== null)]: the
    host name of the URL becomes [servicePath], its port becomes [port] if
    it has one and the settings have none, and [host] and [apiEndpoint] are
    deleted. The warning printed when the host differs from an earlier
    [servicePath] or [apiEndpoint] changes no state and is left out. *)
Definition with_url (url : URL) (settings : gmap string JsVal)
  : gmap string JsVal :=
  let settings := <["servicePath" := VStr (hostname url)]> settings in
  let settings :=
    if negb (String.eqb (port url) "") && is_undefined (get "port" settings)
    then <["port" := VNum (Number (port url))]> settings
    else settings in
  delete "apiEndpoint" (delete "host" settings).

(** [Firestore.validateAndApplySettings]. The URL is computed in the branch
    that sets it, [None] standing for [null]; the serializer created at the
    end is left out. *)
Definition validateAndApplySettings (settings : gmap string JsVal)
  : M Firestore unit :=
  (if negb (is_undefined (get "projectId" settings)) then
     lift (validateString "settings.projectId" (get "projectId" settings) false) ;;
     modify (set_projectId (get "projectId" settings))
   else mret tt) ;;
  '(settings, url) ←
    (match emulator_host env with
     | Some emulator =>
         lift (validateHost "FIRESTORE_EMULATOR_HOST" (VStr emulator)) ;;
         let settings :=
           <["ssl" := VBool false]> (<["host" := VStr emulator]> settings) in
         url ← lift (new_URL (get "host" settings));
         mret (settings, Some url)
     | None =>
         if negb (is_undefined (get "host" settings)) then
           lift (validateHost "settings.host" (get "host" settings)) ;;
           url ← lift (new_URL (get "host" settings));
           mret (settings, Some url)
         else mret (settings, None)
     end);
  let settings :=
    match url with
    | Some url => with_url url settings
    | None => settings
    end in
  (if negb (is_undefined (get "ssl" settings)) then
     lift (validateBoolean "settings.ssl" (get "ssl" settings) false)
   else mret tt) ;;
  (if negb (is_undefined (get "maxIdleChannels" settings)) then
     lift (validateInteger "settings.maxIdleChannels"
             (get "maxIdleChannels" settings) false (Some 0%Z))
   else mret tt) ;;
  modify (set_settings settings).

(** [Firestore.settings] *)
Definition settings (settings : JsVal) : M Firestore unit :=
  lift (validateObject "settings" settings) ;;
  lift (validateString "settings.projectId" (prop settings "projectId") true) ;;
  frozen ← gets _settingsFrozen;
  if frozen : bool then
    throw (UsageError
      ("Firestore has already been initialized. You can only call "
         +:+ "settings() once, and only before calling any other methods on a "
         +:+ "Firestore object."))
  else
    current ← gets _settings;
    let mergedSettings := spread2 current (own_props settings) in
    validateAndApplySettings mergedSettings ;;
    modify (set_settingsFrozen true).

(** The field initialisers of the class; the pool is created at the end of
    the constructor. *)
Definition initial_fields : Firestore :=
  {| _clientPool := {| concurrentOperationLimit := MAX_CONCURRENT_REQUESTS_PER_CLIENT;
                       maxIdleClients := VNum (NumInt DEFAULT_MAX_IDLE_CHANNELS);
                       terminated := false |};
     _settings := ∅;
     _settingsFrozen := false;
     _projectId := VUndefined;
     registeredListenersCount := 0;
     bulkWritersCount := 0 |}.

(** [new Firestore(settings)] *)
Definition new_Firestore (settings : JsVal) : Completion Firestore :=
  let version :=
    if truthy settings && truthy (prop settings "firebaseVersion")
    then libVersion +:+ " fire/" +:+ to_string (prop settings "firebaseVersion")
    else libVersion in
  let libraryHeader : gmap string JsVal :=
    <["libName" := VStr "gccl"]> (<["libVersion" := VStr version]> ∅) in
  match validateAndApplySettings
          (spread2 (own_props settings) libraryHeader) initial_fields with
  | (fs, Return _) =>
      let maxIdleChannels :=
        if is_undefined (get "maxIdleChannels" (_settings fs))
        then VNum (NumInt DEFAULT_MAX_IDLE_CHANNELS)
        else get "maxIdleChannels" (_settings fs) in
      Return (set_clientPool
                {| concurrentOperationLimit := MAX_CONCURRENT_REQUESTS_PER_CLIENT;
                   maxIdleClients := maxIdleChannels;
                   terminated := false |} fs)
  | (_, Throw e) => Throw e
  end.

(** [get projectId] *)
Definition projectId (fs : Firestore) : Completion JsVal :=
  if is_undefined (_projectId fs) then
    Throw (UsageError "INTERNAL ERROR: Client is not yet ready to issue requests.")
  else Return (_projectId fs).

(** [get formattedName] *)
Definition formattedName (fs : Firestore) : Completion string :=
  id ← projectId fs;
  mret ("projects/" +:+ to_string id +:+ "/databases/" +:+ DEFAULT_DATABASE_ID).

Definition registerListener (fs : Firestore) : Firestore :=
  set_registeredListenersCount (registeredListenersCount fs + 1) fs.
Definition unregisterListener (fs : Firestore) : Firestore :=
  set_registeredListenersCount (registeredListenersCount fs - 1) fs.
Definition _incrementBulkWritersCount (fs : Firestore) : Firestore :=
  set_bulkWritersCount (bulkWritersCount fs + 1) fs.
Definition _decrementBulkWritersCount (fs : Firestore) : Firestore :=
  set_bulkWritersCount (bulkWritersCount fs - 1) fs.

(** [Firestore.terminate] *)
Definition terminate (fs : Firestore) : Firestore * Promise unit Error :=
  if (0 <? registeredListenersCount fs)%Z || (0 <? bulkWritersCount fs)%Z then
    (fs, Rejected (RejectedWith
       ("All onSnapshot() listeners must be unsubscribed, and all BulkWriter "
          +:+ "instances must be closed before terminating the client. "
          +:+ "There are " +:+ pretty (registeredListenersCount fs)
          +:+ " active listeners and " +:+ pretty (bulkWritersCount fs)
          +:+ " open BulkWriter instances.")))
  else
    let '(pool, done) := ClientPool_terminate (_clientPool fs) in
    (set_clientPool pool fs, done).

(** [Firestore.initializeIfNeeded]. [detected] is how
    [gapicClient.getProjectId()] settles when it is run. *)
Definition initializeIfNeeded (detected : Promise string Error) (fs : Firestore)
  : Firestore * Promise unit Error :=
  let fs := set_settingsFrozen true fs in
  let fs :=
    if is_false (get "ssl" (_settings fs)) then
      set_settings
        (<["customHeaders" :=
             VObj (spread2 (<["Authorization" := VStr "Bearer owner"]> ∅)
                           (own_props (get "customHeaders" (_settings fs))))]>
           (_settings fs)) fs
    else fs in
  if is_undefined (_projectId fs) then
    match ClientPool_run (_clientPool fs) detected with
    | Resolved id => (set_projectId (VStr id) fs, Resolved tt)
    | Rejected err => (fs, Rejected err)
    | Pending => (fs, Pending)
    end
  else (fs, Resolved tt).

(** The options of a call. [retry] holds the retry codes and the method
    whose retry parameters [getRetryParams] (util.ts, absent) looks up. *)
Record CallOptions := {
  headers : gmap string JsVal;
  retry : option (list Z * string);
}.

(** [Firestore.createCallOptions] *)
Definition createCallOptions (fs : Firestore) (methodName : string)
           (retryCodes : option (list Z)) : Completion CallOptions :=
  name ← formattedName fs;
  let headers :=
    spread2
      (spread2 (<[CLOUD_RESOURCE_HEADER := VStr name]> ∅)
               (own_props (get "customHeaders" (_settings fs))))
      (own_props (opt_prop (get methodName (_settings fs)) "customHeaders")) in
  let retry :=
    match retryCodes with
    | Some codes =>
        if negb (bool_decide (FIRESTORE_USE_REST_API env = Some "true"))
        then Some (codes, methodName)
        else None
    | None => None
    end in
  mret {| headers := headers; retry := retry |}.

(** What [runTransaction] hands to [transaction.runTransaction]. *)
Record TransactionOptions := {
  maxAttempts : JsVal;
  readOnly : bool;
  readTime : JsVal;
}.

(** [Firestore.runTransaction]. Class [Transaction] is not among the
    sources: the promise returned resolves, in this model, with the
    options that [transaction.runTransaction] is invoked with, and is
    rejected or pending when [initializeIfNeeded] is, in which case the
    transaction is not invoked. *)
Definition runTransaction (detected : Promise string Error)
           (updateFunction transactionOptions : JsVal)
  : M Firestore (Promise TransactionOptions Error) :=
  lift (validateFunction "updateFunction" updateFunction) ;;
  options ← lift (
    if truthy transactionOptions then
      validateObject "transactionOptions" transactionOptions ;;
      validateBoolean "transactionOptions.readOnly"
                      (prop transactionOptions "readOnly") true ;;
      if truthy (prop transactionOptions "readOnly") then
        validateTimestamp "transactionOptions.readTime"
                          (prop transactionOptions "readTime") true ;;
        mret {| maxAttempts := VNum (NumInt 1);
                readOnly := true;
                readTime := prop transactionOptions "readTime" |}
      else
        validateInteger "transactionOptions.maxAttempts"
                        (prop transactionOptions "maxAttempts") true (Some 1%Z) ;;
        mret {| maxAttempts :=
                  js_or (prop transactionOptions "maxAttempts")
                        (VNum (NumInt DEFAULT_MAX_TRANSACTION_ATTEMPTS));
                readOnly := false;
                readTime := VUndefined |}
    else
      mret {| maxAttempts := VNum (NumInt DEFAULT_MAX_TRANSACTION_ATTEMPTS);
              readOnly := false;
              readTime := VUndefined |});
  initialized ← run_state (initializeIfNeeded detected);
  mret (match initialized with
        | Resolved _ => Resolved options
        | Rejected err => Rejected err
        | Pending => Pending
        end).

End Client.


(** *** Sequences of calls

    The methods of index.ts that assign a field of the client, as calls made
    one after the other. [CallInitialize] stands for any operation of the
    SDK that runs [initializeIfNeeded] before its request. *)
Inductive Call :=
| CallSettings (settings : JsVal)
| CallInitialize (detected : Promise string Error)
| CallRunTransaction (detected : Promise string Error)
                     (updateFunction transactionOptions : JsVal)
| CallRegisterListener
| CallUnregisterListener
| CallIncrementBulkWritersCount
| CallDecrementBulkWritersCount
| CallTerminate.

Section Calls.
Context `{Platform}.
Variable env : Env.

(** The client after a call, whether the call returned or threw. *)
Definition exec (c : Call) (fs : Firestore) : Firestore :=
  match c with
  | CallSettings s => fst (settings env s fs)
  | CallInitialize detected => fst (initializeIfNeeded detected fs)
  | CallRunTransaction detected updateFunction transactionOptions =>
      fst (runTransaction detected updateFunction transactionOptions fs)
  | CallRegisterListener => registerListener fs
  | CallUnregisterListener => unregisterListener fs
  | CallIncrementBulkWritersCount => _incrementBulkWritersCount fs
  | CallDecrementBulkWritersCount => _decrementBulkWritersCount fs
  | CallTerminate => fst (terminate fs)
  end.

Definition exec_all (calls : list Call) (fs : Firestore) : Firestore :=
  fold_left (fun fs c => exec c fs) calls fs.

(** The calls after which the settings are frozen: a [settings()] call that
    returns, and an operation that reaches [initializeIfNeeded]. *)
Definition freezes (c : Call) (fs : Firestore) : Prop :=
  match c with
  | CallSettings s => snd (settings env s fs) = Return tt
  | CallInitialize _ => True
  | CallRunTransaction detected updateFunction transactionOptions =>
      exists p, snd (runTransaction detected updateFunction transactionOptions fs)
                = Return p
  | _ => False
  end.

End Calls.

(* ===================================================================== *)
(** ** A platform to run the definitions on                               *)
(* ===================================================================== *)

(** Hosts are [name] or [name:port]; the URL [http://name:port] has that
    host name and port, the default port 80 reading as the empty string, as
    in Node. *)
Definition example_parseURL (s : string) : option URL :=
  if String.prefix "http://" s then
    let rest := String.substring 7 (String.length s - 7) s in
    match String.index 0 ":" rest with
    | Some i =>
        let p := String.substring (i + 1) (String.length rest - (i + 1)) rest in
        Some {| hostname := String.substring 0 i rest;
                port := if String.eqb p "80" then "" else p |}
    | None => Some {| hostname := rest; port := "" |}
    end
  else None.

Definition example_platform : Platform :=
  {| parseURL := example_parseURL;
     validHost := fun h => negb (String.eqb h "");
     libVersion := "6.0.0";
     stringify := fun _ => "[object Object]" |}.

Definition no_env : Env :=
  {| FIRESTORE_EMULATOR_HOST := None; FIRESTORE_USE_REST_API := None |}.

Definition emulator_env (host : string) : Env :=
  {| FIRESTORE_EMULATOR_HOST := Some host; FIRESTORE_USE_REST_API := None |}.

(** [{k1: v1, ...}] *)
Definition obj (fields : list (string * JsVal)) : JsVal :=
  VObj (list_to_map fields).

(* ===================================================================== *)
(** ** The retry helper                                                   *)
(* ===================================================================== *)

Section Retry.
Context {S T E : Type}.

(** [isPermanentRpcError] of util.ts (absent): whether an error is
    permanent for a method. The retry helper is proved for any such
    classification. *)
Variable isPermanentRpcError : E -> string -> bool.

(** The loop of [Firestore._retry], by the number of iterations that are
    left ([MAX_REQUEST_RETRIES - attempt]). [func] is the retried function:
    run in a state [s] of its surroundings it leaves them in a new state and
    returns a promise. The wait of [backoff.backoffAndWait()] before each
    call only delays it (the backoff controller has "no side effects beyond
    internal counter mutation"), and time is not part of the model; the two
    log lines are left out. After the loop comes
    [Promise.reject(lastError)], where [lastError] may still be
    [undefined], hence the [option]. *)
Fixpoint retry_loop (methodName : string) (func : S -> S * Promise T E)
         (remaining : nat) (lastError : option E) (s : S)
  : S * Promise T (option E) :=
  match remaining with
  | O => (s, Rejected lastError)
  | Datatypes.S remaining' =>
      match func s with
      | (s', Resolved result) => (s', Resolved result)
      | (s', Pending) => (s', Pending)
      | (s', Rejected err) =>
          if isPermanentRpcError err methodName
          then (s', Rejected (Some err))
          else retry_loop methodName func remaining' (Some err) s'
      end
  end.

(** [Firestore._retry] *)
Definition _retry (methodName : string) (func : S -> S * Promise T E) (s : S)
  : S * Promise T (option E) :=
  retry_loop methodName func MAX_REQUEST_RETRIES None s.

(** To count the attempts, the retried function is wrapped so that it
    records how each of its invocations settled. *)
Definition logged (func : S -> S * Promise T E)
  : S * list (Promise T E) -> (S * list (Promise T E)) * Promise T E :=
  fun '(s, log) => let '(s', r) := func s in ((s', log ++ [r]), r).

(** The state in which the [n]-th invocation (from 0) of [func] starts when
    it is invoked again and again from [s]. *)
Fixpoint state_before (func : S -> S * Promise T E) (s : S) (n : nat) : S :=
  match n with
  | O => s
  | Datatypes.S n' => state_before func (fst (func s)) n'
  end.

End Retry.

(* ===================================================================== *)
(** ** Stream initialisation                                              *)
(* ===================================================================== *)

(** What the backend stream does, as the listeners of [_initializeStream]
    see it: the events it emits, and the callback of the one
    [backendStream.write], with its error if the write failed. *)
Inductive StreamEvent :=
| OnData (chunk : JsVal)
| OnError (err : Error)
| OnEnd
| OnClose
| OnFinish
| OnWritten (err : option Error).

(** The stream handed to the caller: the chunks that the pipe has written
    to it and that it hands on to its readers, the [error] events that
    [streamFailed] has emitted on it, and whether the pipe has ended it. *)
Record ResultStream := {
  chunks : list JsVal;
  errors : list Error;
  ended : bool;
}.

(** The variables of one [_initializeStream] call: the flag, how the
    returned promise stands (it resolves with [resultStream]), whether
    [lifetime] was resolved, and the result stream. *)
Record StreamSetup := {
  streamInitialized : bool;
  setup : Promise unit Error;
  lifetime : bool;
  resultStream : ResultStream;
}.

Definition initial_setup : StreamSetup :=
  {| streamInitialized := false;
     setup := Pending;
     lifetime := false;
     resultStream := {| chunks := []; errors := []; ended := false |} |}.

(** [resolve(resultStream)] and [reject(err)]: a promise settles once. *)
Definition resolve (st : StreamSetup) : StreamSetup :=
  {| streamInitialized := streamInitialized st;
     setup := match setup st with Pending => Resolved tt | settled => settled end;
     lifetime := lifetime st;
     resultStream := resultStream st |}.

Definition reject (err : Error) (st : StreamSetup) : StreamSetup :=
  {| streamInitialized := streamInitialized st;
     setup := match setup st with Pending => Rejected err | settled => settled end;
     lifetime := lifetime st;
     resultStream := resultStream st |}.

Definition streamReady (st : StreamSetup) : StreamSetup :=
  if negb (streamInitialized st) then
    resolve {| streamInitialized := true;
               setup := setup st;
               lifetime := lifetime st;
               resultStream := resultStream st |}
  else st.

(** [resultStream.unpipe(backendStream)] removes a pipe from the result
    stream into the backend stream; there is none (the pipe goes the other
    way), so it changes nothing. *)
Definition streamEnded (st : StreamSetup) : StreamSetup :=
  let st := resolve st in
  {| streamInitialized := streamInitialized st;
     setup := setup st;
     lifetime := true;
     resultStream := resultStream st |}.

(** [setImmediate(() => resultStream.emit('error', err))] *)
Definition emit_error (err : Error) (st : StreamSetup) : StreamSetup :=
  {| streamInitialized := streamInitialized st;
     setup := setup st;
     lifetime := lifetime st;
     resultStream := {| chunks := chunks (resultStream st);
                        errors := errors (resultStream st) ++ [err];
                        ended := ended (resultStream st) |} |}.

Definition streamFailed (err : Error) (st : StreamSetup) : StreamSetup :=
  if negb (streamInitialized st) then reject err st
  else emit_error err st.

(** [backendStream.pipe(resultStream)]. The pipe passes the chunks of
    the backend stream on and ends the result stream when the backend
    stream ends. It does not last: the listener that [pipe()] puts on its
    destination removes the pipe as soon as an [error] event is emitted on
    the result stream, and the pipe is removed as well once the result
    stream was ended. The events of the backend stream are taken to come
    in separate turns of the event loop, so that an error forwarded with
    [setImmediate] has been emitted before the next event comes. *)
Definition piped (st : StreamSetup) : bool :=
  match errors (resultStream st) with
  | [] => negb (ended (resultStream st))
  | _ :: _ => false
  end.

(** What a [PassThrough] in object mode hands on to its readers: writing
    [null] to it throws, in the listener of the pipe and so to whoever
    emitted the event, and [undefined] is written but never pushed to the
    readable side. *)
Definition passed_on (chunk : JsVal) : bool :=
  match chunk with
  | VNull | VUndefined => false
  | _ => true
  end.

Definition pipe_data (chunk : JsVal) (st : StreamSetup) : StreamSetup :=
  if piped st && passed_on chunk then
    {| streamInitialized := streamInitialized st;
       setup := setup st;
       lifetime := lifetime st;
       resultStream := {| chunks := chunks (resultStream st) ++ [chunk];
                          errors := errors (resultStream st);
                          ended := ended (resultStream st) |} |}
  else st.

Definition pipe_end (st : StreamSetup) : StreamSetup :=
  if piped st then
    {| streamInitialized := streamInitialized st;
       setup := setup st;
       lifetime := lifetime st;
       resultStream := {| chunks := chunks (resultStream st);
                          errors := errors (resultStream st);
                          ended := true |} |}
  else st.

(** The listeners. The write callback exists only when a request is
    written, which is when [request] is truthy. *)
Definition on_event (request : JsVal) (ev : StreamEvent) (st : StreamSetup)
  : StreamSetup :=
  match ev with
  | OnData chunk => pipe_data chunk (streamReady st)
  | OnError err => streamFailed err st
  | OnEnd => pipe_end (streamEnded st)
  | OnClose => streamEnded st
  | OnFinish => streamEnded st
  | OnWritten err =>
      if truthy request then
        match err with
        | Some err => streamFailed err st
        | None => streamReady st
        end
      else st
  end.

Definition run_events (request : JsVal) (events : list StreamEvent)
           (st : StreamSetup) : StreamSetup :=
  fold_left (fun st ev => on_event request ev st) events st.

(** [Firestore._initializeStream], run on everything the backend stream
    does in its life. *)
Definition _initializeStream (request : JsVal) (events : list StreamEvent)
  : StreamSetup :=
  run_events request events initial_setup.

(* ===================================================================== *)
(** ** The request funnel                                                  *)
(* ===================================================================== *)

(** What a streaming method of the GAPIC client does when called: it
    throws, or it returns a stream that goes through the given events. *)
Inductive StreamReply :=
| StreamThrows (err : Error)
| StreamOpens (events : list StreamEvent).

(** The transport, as a script and a log: how the unary and the streaming
    calls still to come will be answered, in order, and the calls issued so
    far with their method and call options. A call beyond the script is
    never answered. *)
Record Transport := {
  unary_replies : list (Promise JsVal Error);
  stream_replies : list StreamReply;
  issued : list (string * CallOptions);
}.

(** [gapicClient[methodName](request, callOptions)], unary *)
Definition call_unary (methodName : string) (callOptions : CallOptions)
           (t : Transport) : Transport * Promise JsVal Error :=
  ({| unary_replies := tail (unary_replies t);
      stream_replies := stream_replies t;
      issued := issued t ++ [(methodName, callOptions)] |},
   match unary_replies t with
   | reply :: _ => reply
   | [] => Pending
   end).

(** [gapicClient[methodName](callOptions)] or
    [gapicClient[methodName](request, callOptions)], streaming *)
Definition call_stream (methodName : string) (callOptions : CallOptions)
           (t : Transport) : Transport * StreamReply :=
  ({| unary_replies := unary_replies t;
      stream_replies := tail (stream_replies t);
      issued := issued t ++ [(methodName, callOptions)] |},
   match stream_replies t with
   | reply :: _ => reply
   | [] => StreamOpens []
   end).

(** Modelled from the spec: [ClientPool.run] for an operation that uses the
    transport: a terminated pool fails the call without running it. *)
Definition ClientPool_run_on {A} (p : ClientPool)
           (op : Transport -> Transport * Promise A Error) (t : Transport)
  : Transport * Promise A Error :=
  if terminated p then
    (t, Rejected (UsageError "The client has already been terminated"))
  else op t.

Section Funnel.
Context `{Platform}.
Variable env : Env.
Variable isPermanentRpcError : Error -> string -> bool.

(** [Firestore.request] *)
Definition request (fs : Firestore) (methodName : string) (request : JsVal)
           (retryCodes : option (list Z)) (t : Transport)
  : Completion (Transport * Promise JsVal Error) :=
  callOptions ← createCallOptions env fs methodName retryCodes;
  mret (ClientPool_run_on (_clientPool fs)
          (call_unary methodName callOptions) t).

(** One invocation of the function that [requestStream] retries. The
    promise it returns is [result.promise]: the operation given to the pool
    resolves it with the initialised stream or rejects it with what the
    call or the initialisation threw, and nothing settles it when the pool
    does not run the operation. The stream that logs the responses, and the
    handler that ends the backend stream when the result stream ends, are
    left out. *)
Definition stream_attempt (fs : Firestore) (methodName : string) (request : JsVal)
           (callOptions : CallOptions) (bidirectional : bool) (t : Transport)
  : Transport * Promise ResultStream Error :=
  if terminated (_clientPool fs) then (t, Pending)
  else
    let '(t', reply) := call_stream methodName callOptions t in
    match reply with
    | StreamThrows e => (t', Rejected e)
    | StreamOpens events =>
        let st := _initializeStream
                    (if bidirectional then request else VUndefined) events in
        (t', match setup st with
             | Resolved _ => Resolved (resultStream st)
             | Rejected e => Rejected e
             | Pending => Pending
             end)
    end.

(** [Firestore.requestStream] *)
Definition requestStream (fs : Firestore) (methodName : string) (request : JsVal)
           (t : Transport)
  : Completion (Transport * Promise ResultStream (option Error)) :=
  callOptions ← createCallOptions env fs methodName None;
  let bidirectional := String.eqb methodName "listen" in
  mret (_retry isPermanentRpcError methodName
          (stream_attempt fs methodName request callOptions bidirectional) t).

End Funnel.

(* ===================================================================== *)
(** ** Vocabulary of the statements                                       *)
(* ===================================================================== *)

(** [maxAttempts] is present and is not an integer that is at least 1. *)
Definition bad_maxAttempts (v : JsVal) : Prop :=
  v <> VUndefined /\ forall z, v = VNum (NumInt z) -> (z < 1)%Z.

(** What [terminate] does when it hands over to the pool. *)
Definition delegates_to_pool (fs : Firestore) : Prop :=
  terminate fs =
    (set_clientPool (fst (ClientPool_terminate (_clientPool fs))) fs,
     snd (ClientPool_terminate (_clientPool fs))).

(** The two counters are counts: they are not negative as long as nothing
    is unregistered or closed that was not registered or opened before. The
    calls that keep them so: *)
Definition counts_ok (fs : Firestore) : Prop :=
  (0 <= registeredListenersCount fs)%Z /\ (0 <= bulkWritersCount fs)%Z.

(** Two states of the client with the same counters, and the methods that
    leave the counters as they are. *)
Definition same_counters (a b : Firestore) : Prop :=
  registeredListenersCount a = registeredListenersCount b
  /\ bulkWritersCount a = bulkWritersCount b.

Definition keeps_counters {A} (m : M Firestore A) : Prop :=
  forall fs, same_counters (fst (m fs)) fs.

(** The events a call of [_initializeStream] reacts to: all but the write
    callback when no request is written. *)
Definition relevant (request : JsVal) (ev : StreamEvent) : bool :=
  match ev with
  | OnWritten _ => truthy request
  | _ => true
  end.

(** A failure of the stream: an [error] event, or the write of the request
    failing. *)
Definition is_failure (ev : StreamEvent) : bool :=
  match ev with
  | OnError _ | OnWritten (Some _) => true
  | _ => false
  end.

Definition is_data (ev : StreamEvent) : bool :=
  match ev with
  | OnData _ => true
  | _ => false
  end.

(** How the event that comes first settles the promise. *)
Definition verdict (ev : StreamEvent) : Promise unit Error :=
  match ev with
  | OnError err => Rejected err
  | OnWritten (Some err) => Rejected err
  | _ => Resolved tt
  end.

(** The stream fails with [err] before anything else happens on it. *)
Definition fails_first (request : JsVal) (events : list StreamEvent) (err : Error)
  : Prop :=
  exists ev, List.find (relevant request) events = Some ev
             /\ is_failure ev = true /\ verdict ev = Rejected err.

(** The stream delivers data and then, not having failed before, emits the
    error [err]. *)
Definition fails_after_data (events : list StreamEvent) (err : Error) : Prop :=
  exists before after,
    events = before ++ OnError err :: after
    /\ existsb is_data before = true
    /\ existsb is_failure before = false.

(** The answer to the [i]-th streaming call from now. *)
Definition reply_at (t : Transport) (i : nat) : StreamReply :=
  nth i (stream_replies t) (StreamOpens []).

(** Call options carry the routing header: the header is there, and its
    value is the database root unless the custom headers of the settings
    define a header of that name; then it is the value of that custom
    header, the one of the method before the one of the client. *)
Definition carries_resource_prefix `{Platform} (fs : Firestore) (methodName : string)
           (callOptions : CallOptions) : Prop :=
  headers callOptions !! CLOUD_RESOURCE_HEADER =
    Some match own_props (opt_prop (get methodName (_settings fs)) "customHeaders")
                 !! CLOUD_RESOURCE_HEADER with
         | Some custom => custom
         | None =>
             match own_props (get "customHeaders" (_settings fs))
                     !! CLOUD_RESOURCE_HEADER with
             | Some custom => custom
             | None =>
                 VStr ("projects/" +:+ to_string (_projectId fs)
                         +:+ "/databases/(default)")
             end
         end.

(* ===================================================================== *)
(** ** Clients and transports to run the definitions on                   *)
(* ===================================================================== *)

(** What a call returned, or a default if it threw. *)
Definition returned {A} (c : Completion A) (default : A) : A :=
  match c with
  | Return a => a
  | Throw _ => default
  end.

(** An initialised client of project [p]. *)
Definition example_client : Firestore :=
  set_settingsFrozen true (set_projectId (VStr "p") initial_fields).

(** The same client with a custom header of the name of the routing
    header. *)
Definition example_client_custom : Firestore :=
  set_settings
    (list_to_map
       [("customHeaders", obj [("google-cloud-resource-prefix", VStr "elsewhere")])])
    example_client.

(** A classification of errors: only UNAVAILABLE (14) is worth a retry. *)
Definition example_isPermanent (e : Error) (methodName : string) : bool :=
  match e with
  | RpcError code _ => negb (code =? 14)%Z
  | _ => true
  end.

Definition unavailable : Error := RpcError 14 "unavailable".

(** A backend whose first stream fails at once and whose second stream
    delivers a chunk and fails then. *)
Definition flaky_transport : Transport :=
  {| unary_replies := [Resolved (obj [])];
     stream_replies :=
       [StreamOpens [OnError unavailable; OnClose];
        StreamOpens [OnData (VStr "first"); OnError unavailable; OnClose]];
     issued := [] |}.

Definition flaky_run : Transport * Promise ResultStream (option Error) :=
  returned (@requestStream example_platform no_env example_isPermanent
              example_client "runQuery" (obj []) flaky_transport)
           (flaky_transport, Pending).

(** A backend whose first stream finishes and then fails, without data. *)
Definition finished_transport : Transport :=
  {| unary_replies := [];
     stream_replies :=
       [StreamOpens [OnFinish; OnError unavailable; OnClose];
        StreamOpens [OnData (VStr "first"); OnEnd]];
     issued := [] |}.

Definition commit_run : Transport * Promise JsVal Error :=
  returned (@request example_platform no_env example_client "commit" (obj [])
              None flaky_transport)
           (flaky_transport, Pending).

(* ===================================================================== *)
(** ** Collection groups                                                  *)
(* ===================================================================== *)

(** [s.indexOf(c)] for a string [c] of one character: the position of its
    first occurrence, counted from [i] at the head of [s], or -1. *)
Fixpoint indexOf_from (c : Ascii.ascii) (s : string) (i : Z) : Z :=
  match s with
  | EmptyString => (-1)%Z
  | String a rest =>
      if Ascii.eqb a c then i else indexOf_from c rest (i + 1)%Z
  end.

Definition indexOf (c : Ascii.ascii) (s : string) : Z := indexOf_from c s 0%Z.

(** A collection group holds the collection id it queries (the back pointer
    to the client and the converter, which is [undefined], are left out). *)
Record CollectionGroup := { group_collectionId : string }.

(** [Firestore.collectionGroup] *)
Definition collectionGroup (collectionId : string) : Completion CollectionGroup :=
  if negb (indexOf "/"%char collectionId =? -1)%Z then
    Throw (UsageError
      ("Invalid collectionId '" +:+ collectionId
         +:+ "'. Collection IDs must not contain '/'."))
  else
    Return {| group_collectionId := collectionId |}.

(* ===================================================================== *)
(** ** Snapshots from protos                                              *)
(* ===================================================================== *)

(** The code outside index.ts that [snapshot_] calls, none of it among the
    sources: the two converters of convert.ts, the parser of qualified
    resource paths of path.ts and [Timestamp.fromProto]. Each may throw. *)
Class SnapshotPlatform := {
  QualifiedResourcePath : Type;
  timestampFromJson : JsVal -> string -> Completion JsVal;
  fieldsFromJson : JsVal -> Completion JsVal;
  fromSlashSeparatedString : JsVal -> Completion QualifiedResourcePath;
  Timestamp_fromProto : JsVal -> Completion JsVal;
}.

(** What [snapshot_] has put into the [DocumentSnapshotBuilder] when it
    calls [build()] (document.ts, absent): the path of the reference and the
    four fields it may assign, [VUndefined] when it did not. *)
Record DocumentSnapshotBuilder `{SnapshotPlatform} := {
  builder_path : QualifiedResourcePath;
  fieldsProto : JsVal;
  createTime : JsVal;
  updateTime : JsVal;
  builder_readTime : JsVal;
}.

Section Snapshot.
Context `{Platform} `{SnapshotPlatform}.
Variable env : Env.

(** [Firestore.snapshot_]. The two converters are chosen first, as a pair;
    with the encoding [protobufJS] both return their argument. The message
    of the error is written here without its quotation marks. *)
Definition snapshot_ (documentOrName readTime encoding : JsVal)
  : Completion DocumentSnapshotBuilder :=
  let encoding :=
    if bool_decide (FIRESTORE_USE_REST_API env = Some "true")
    then VStr "json" else encoding in
  let unsupported : Completion ((JsVal -> string -> Completion JsVal)
                                * (JsVal -> Completion JsVal)) :=
    Throw (UsageError
      ("Unsupported encoding format. Expected json or protobufJS, but was "
         +:+ to_string encoding +:+ ".")) in
  '(convertTimestamp, convertFields) ←
    (match encoding with
     | VUndefined => Return (fun data _ => Return data, fun data => Return data)
     | VStr e =>
         if String.eqb e "protobufJS"
         then Return (fun data _ => Return data, fun data => Return data)
         else if String.eqb e "json"
         then Return (timestampFromJson, fieldsFromJson)
         else unsupported
     | _ => unsupported
     end);
  document ←
    (match documentOrName with
     | VStr _ =>
         path ← fromSlashSeparatedString documentOrName;
         mret {| builder_path := path; fieldsProto := VUndefined;
                 createTime := VUndefined; updateTime := VUndefined;
                 builder_readTime := VUndefined |}
     | VUndefined | VNull =>
         Throw (TypeError "Cannot read properties of undefined")
     | _ =>
         path ← fromSlashSeparatedString (prop documentOrName "name");
         fields ←
           (if truthy (prop documentOrName "fields")
            then convertFields (prop documentOrName "fields")
            else mret (VObj ∅));
         created ←
           (converted ← convertTimestamp (prop documentOrName "createTime")
                                         "documentOrName.createTime";
            Timestamp_fromProto converted);
         updated ←
           (converted ← convertTimestamp (prop documentOrName "updateTime")
                                         "documentOrName.updateTime";
            Timestamp_fromProto converted);
         mret {| builder_path := path; fieldsProto := fields;
                 createTime := created; updateTime := updated;
                 builder_readTime := VUndefined |}
     end);
  if truthy readTime then
    converted ← convertTimestamp readTime "readTime";
    read ← Timestamp_fromProto converted;
    mret {| builder_path := builder_path document;
            fieldsProto := fieldsProto document;
            createTime := createTime document;
            updateTime := updateTime document;
            builder_readTime := read |}
  else mret document.

End Snapshot.

(** Converters to run [snapshot_] on: paths are kept as the value given,
    JSON timestamps and fields are tagged so that a conversion shows. *)
Definition example_snapshot_platform : SnapshotPlatform :=
  {| QualifiedResourcePath := JsVal;
     timestampFromJson := fun v _ => Return (obj [("fromJson", v)]);
     fieldsFromJson := fun v => Return (obj [("fromJson", v)]);
     fromSlashSeparatedString := fun v => Return v;
     Timestamp_fromProto := fun v => Return v |}.

Definition rest_env : Env :=
  {| FIRESTORE_EMULATOR_HOST := None; FIRESTORE_USE_REST_API := Some "true" |}.

(** An encoding that [snapshot_] does not know. *)
Definition unsupported_encoding (encoding : JsVal) : Prop :=
  encoding <> VUndefined /\ encoding <> VStr "protobufJS" /\ encoding <> VStr "json".

(* ===================================================================== *)
(** ** The REST client                                                    *)
(* ===================================================================== *)

(** [FirestoreClient] of the REST transport: the auth client, [undefined]
    until it was obtained, and, to tell what the client did, the methods of
    the googleapis client it has called so far. *)
Record FirestoreClient := {
  authClient : JsVal;
  api_calls : list string;
}.

Definition new_FirestoreClient : FirestoreClient :=
  {| authClient := VUndefined; api_calls := [] |}.

(** [FirestoreClient.initializeAuthClientIfNeeded]; [getClient] is how
    [this.auth.getClient()] settles when it is called. *)
Definition initializeAuthClientIfNeeded (getClient : Promise JsVal Error)
           (c : FirestoreClient) : FirestoreClient * Promise unit Error :=
  if truthy (authClient c) then (c, Resolved tt)
  else
    match getClient with
    | Resolved client =>
        ({| authClient := client; api_calls := api_calls c |}, Resolved tt)
    | Rejected err => (c, Rejected err)
    | Pending => (c, Pending)
    end.

(** The unary methods ([beginTransaction], [commit], [batchWrite],
    [rollback]) are written alike: authenticate, build the arguments of the
    call, call the method of the googleapis client, and return the data of
    its response with the request and [undefined]. [arguments] is how
    building the arguments completes (reading [request.database], the
    constructor of the request body in models/ and [convertOptions], the
    last two not among the sources): when it throws, the method is not
    called. [response] is how the googleapis call settles. *)
Definition rest_unary (apiMethod : string) (getClient : Promise JsVal Error)
           (arguments : Completion unit) (response : Promise JsVal Error)
           (request : JsVal) (c : FirestoreClient)
  : FirestoreClient * Promise (JsVal * JsVal * JsVal) Error :=
  match initializeAuthClientIfNeeded getClient c with
  | (c', Resolved _) =>
      match arguments with
      | Return _ =>
          ({| authClient := authClient c'; api_calls := api_calls c' ++ [apiMethod] |},
           match response with
           | Resolved r => Resolved (opt_prop r "data", request, VUndefined)
           | Rejected err => Rejected err
           | Pending => Pending
           end)
      | Throw err => (c', Rejected err)
      end
  | (c', Rejected err) => (c', Rejected err)
  | (c', Pending) => (c', Pending)
  end.

Definition rest_beginTransaction := rest_unary "beginTransaction".
Definition rest_commit := rest_unary "commit".
Definition rest_batchWrite := rest_unary "batchWrite".
Definition rest_rollback := rest_unary "rollback".

(** What the googleapis client hands to the callback of a streaming
    method: an error or [null], and a response (or none) whose [data] is an
    array, or is not one. *)
Record RestCallback := {
  callback_err : option Error;
  callback_res : option (option (list JsVal));
}.

(** The events that [runQuery] and [batchGetDocuments] emit on the stream
    they return. The call is made once the auth client is there and the
    arguments are built; if either fails, nothing handles the rejection
    and nothing is emitted. Without an error each element of the data is
    emitted, then [end]; [forEach] on data that is not an array throws
    before anything is emitted. *)
Definition rest_stream_events (auth : Promise unit Error)
           (arguments : Completion unit) (cb : RestCallback)
  : list StreamEvent :=
  match auth, arguments with
  | Resolved _, Return _ =>
      match callback_err cb with
      | None =>
          match callback_res cb with
          | None => [OnEnd]
          | Some (Some elements) => map OnData elements ++ [OnEnd]
          | Some None => []
          end
      | Some err => [OnError err]
      end
  | _, _ => []
  end.

(** [FirestoreClient.runQuery] (and [batchGetDocuments], which differs in
    the method called): the client after the call, and what the returned
    stream will emit. *)
Definition rest_runQuery (getClient : Promise JsVal Error)
           (arguments : Completion unit) (cb : RestCallback)
           (c : FirestoreClient) : FirestoreClient * list StreamEvent :=
  match initializeAuthClientIfNeeded getClient c with
  | (c', auth) =>
      (match auth, arguments with
       | Resolved _, Return _ =>
           {| authClient := authClient c'; api_calls := api_calls c' ++ ["runQuery"] |}
       | _, _ => c'
       end,
       rest_stream_events auth arguments cb)
  end.

(** [FirestoreClient.listen] and [listDocuments] *)
Definition rest_listen : Completion (list StreamEvent) :=
  Throw (UsageError "Not implemented").

(* ===================================================================== *)
(** ** A generated model class                                            *)
(* ===================================================================== *)

(** [new CollectionSelector(json)] of v1rest/models/collectionSelector.ts:
    the fields of the new object. Reading a property of [undefined] or
    [null] throws. *)
Definition CollectionSelector (json : JsVal) : Completion (gmap string JsVal) :=
  match json with
  | VUndefined | VNull => Throw (TypeError "Cannot read properties of undefined")
  | _ =>
      let this : gmap string JsVal := ∅ in
      let this :=
        if negb (is_undefined (prop json "allDescendants"))
        then <["allDescendants" := prop json "allDescendants"]> this
        else this in
      let this :=
        if negb (is_undefined (prop json "collectionId"))
        then <["collectionId" := prop json "collectionId"]> this
        else this in
      Return this
  end.

(* ===================================================================== *)
(** ** More vocabulary                                                    *)
(* ===================================================================== *)

(** The chunks of data among the events, in order. *)
Definition data_of (events : list StreamEvent) : list JsVal :=
  omap (fun ev => match ev with OnData chunk => Some chunk | _ => None end) events.

(** The end of the stream, in one of its three forms. *)
Definition is_end (ev : StreamEvent) : bool :=
  match ev with
  | OnEnd | OnClose | OnFinish => true
  | _ => false
  end.

Definition is_OnEnd (ev : StreamEvent) : bool :=
  match ev with
  | OnEnd => true
  | _ => false
  end.

(** The events that mark the stream as initialised: data, or the request
    flushed. *)
Definition is_ready (request : JsVal) (ev : StreamEvent) : bool :=
  match ev with
  | OnData _ => true
  | OnWritten None => truthy request
  | _ => false
  end.

(** A failure that has a listener. *)
Definition listened_failure (request : JsVal) (ev : StreamEvent) : bool :=
  is_failure ev && relevant request ev.

(** The errors among the events that have a listener. *)
Definition failures_of (request : JsVal) (events : list StreamEvent) : list Error :=
  omap (fun ev => match ev with
                  | OnError err => Some err
                  | OnWritten (Some err) => if truthy request then Some err else None
                  | _ => None
                  end) events.

(** What comes after the first event that marks the stream as
    initialised. *)
Fixpoint after_ready (request : JsVal) (events : list StreamEvent)
  : list StreamEvent :=
  match events with
  | [] => []
  | ev :: rest => if is_ready request ev then rest else after_ready request rest
  end.

(** An attempt after which [_retry] does not go on: it did not fail, or
    it failed for good. *)
Definition final_attempt {T E} (isPermanentRpcError : E -> string -> bool)
           (methodName : string) (r : Promise T E) : bool :=
  match r with
  | Rejected e => isPermanentRpcError e methodName
  | _ => true
  end.

(** The promise of [_retry] when the attempt that settled as [r] was its
    last. *)
Definition outcome {T E} (r : Promise T E) : Promise T (option E) :=
  match r with
  | Resolved v => Resolved v
  | Rejected e => Rejected (Some e)
  | Pending => Pending
  end.

(** A function to retry that fails with the codes of a script, one per
    invocation, and resolves when the script is used up; and a
    classification of codes in which only 14 (UNAVAILABLE) is worth a
    retry. *)
Definition scripted (codes : list Z) : list Z * Promise unit Z :=
  (tail codes,
   match codes with
   | code :: _ => Rejected code
   | [] => Resolved tt
   end).

Definition only_unavailable_retried (code : Z) (methodName : string) : bool :=
  negb (code =? 14)%Z.

(** A backend whose streaming method throws at every call, and one whose
    method throws twice and then opens a stream of two chunks. *)
Definition throwing_transport : Transport :=
  {| unary_replies := [];
     stream_replies := replicate 6 (StreamThrows unavailable);
     issued := [] |}.

Definition recovering_transport : Transport :=
  {| unary_replies := [];
     stream_replies :=
       [StreamThrows unavailable; StreamThrows unavailable;
        StreamOpens [OnData (VStr "first"); OnData (VStr "second"); OnEnd]];
     issued := [] |}.

(** How the [i]-th invocation (from 0) of a retried function settles. *)
Definition result_at {S T E} (func : S -> S * Promise T E) (s : S) (i : nat)
  : Promise T E :=
  snd (func (state_before func s i)).

(** A client on which [n] listeners were registered and then [m]
    unregistered. *)
Definition with_listeners (n m : nat) (fs : Firestore) : Firestore :=
  Nat.iter m unregisterListener (Nat.iter n registerListener fs).

(** What [validateAndApplySettings] stores for the settings [s] when it
    returns: with the emulator variable set, the settings overridden by it;
    else the settings themselves if they name no host, and the settings
    with the host split into [servicePath] and [port] if they do. *)
Definition stored_for `{Platform} (env : Env) (s stored : gmap string JsVal) : Prop :=
  match emulator_host env with
  | Some emulator =>
      validHost emulator = true
      /\ exists url,
           parseURL ("http://" +:+ emulator) = Some url
           /\ stored = with_url url (<["ssl" := VBool false]>
                                       (<["host" := VStr emulator]> s))
  | None =>
      (get "host" s = VUndefined /\ stored = s)
      \/ (exists h url,
            get "host" s = VStr h /\ validHost h = true
            /\ parseURL ("http://" +:+ h) = Some url
            /\ stored = with_url url s)
  end.
(* ===================================================================== *)
(** ** The definitions at work                                            *)
(* ===================================================================== *)

Example doc_ok :
  @doc slash_parser "col/doc" = Return {| doc_path := {| segments := ["col"; "doc"] |} |}.
Proof. vm_compute. reflexivity. Qed.

Example example_url :
  example_parseURL "http://localhost:8080" = Some {| hostname := "localhost"; port := "8080" |}.
Proof. reflexivity. Qed.

Example new_client_plain :
  _settings <$> (match @new_Firestore example_platform no_env (obj [("projectId", VStr "p")]) with
                 | Return fs => Some fs | Throw _ => None end)
  = Some (list_to_map [("projectId", VStr "p"); ("libName", VStr "gccl");
                       ("libVersion", VStr "6.0.0")]).
Proof. vm_compute. reflexivity. Qed.

Example run_transaction_default :
  snd (runTransaction (Resolved "p") VFun VUndefined initial_fields)
  = Return (Resolved {| maxAttempts := VNum (NumInt 5); readOnly := false;
                        readTime := VUndefined |}).
Proof. vm_compute. reflexivity. Qed.

(* ===================================================================== *)
(** ** Transaction options                                                *)
(* ===================================================================== *)

Ltac unfold_m :=
  unfold mbind, mret, M_bind, M_ret, Completion_bind, Completion_ret,
    lift, run_state, gets, modify, throw in *.

(** The options a read-only transaction runs with. *)
Lemma runTransaction_readOnly detected m fs :
  get "readOnly" m = VBool true ->
  validateTimestamp "transactionOptions.readTime" (get "readTime" m) true = Return tt ->
  runTransaction detected VFun (VObj m) fs =
    (fst (initializeIfNeeded detected fs),
     Return (match snd (initializeIfNeeded detected fs) with
             | Resolved _ => Resolved {| maxAttempts := VNum (NumInt 1);
                                         readOnly := true;
                                         readTime := get "readTime" m |}
             | Rejected err => Rejected err
             | Pending => Pending
             end)).
Proof.
  intros Hro Hrt. unfold runTransaction. unfold_m. cbn.
  rewrite Hro. cbn. rewrite Hrt.
  destruct (initializeIfNeeded detected fs) as [fs' [u|err|]]; reflexivity.
Qed.

(** The options a read-write transaction runs with when the caller leaves
    [maxAttempts] out. *)
Lemma runTransaction_readWrite_default detected m fs :
  get "readOnly" m = VUndefined \/ get "readOnly" m = VBool false ->
  get "maxAttempts" m = VUndefined ->
  runTransaction detected VFun (VObj m) fs =
    (fst (initializeIfNeeded detected fs),
     Return (match snd (initializeIfNeeded detected fs) with
             | Resolved _ =>
                 Resolved {| maxAttempts := VNum (NumInt DEFAULT_MAX_TRANSACTION_ATTEMPTS);
                             readOnly := false;
                             readTime := VUndefined |}
             | Rejected err => Rejected err
             | Pending => Pending
             end)).
Proof.
  intros Hro Hmax. unfold runTransaction. unfold_m. cbn.
  rewrite Hmax. destruct Hro as [-> | ->]; cbn;
    destruct (initializeIfNeeded detected fs) as [fs' [u|err|]]; reflexivity.
Qed.

(** A call without options. *)
Lemma runTransaction_no_options detected fs :
  runTransaction detected VFun VUndefined fs =
    (fst (initializeIfNeeded detected fs),
     Return (match snd (initializeIfNeeded detected fs) with
             | Resolved _ =>
                 Resolved {| maxAttempts := VNum (NumInt DEFAULT_MAX_TRANSACTION_ATTEMPTS);
                             readOnly := false;
                             readTime := VUndefined |}
             | Rejected err => Rejected err
             | Pending => Pending
             end)).
Proof.
  unfold runTransaction. unfold_m. cbn.
  destruct (initializeIfNeeded detected fs) as [fs' [u|err|]]; reflexivity.
Qed.

(** The update function is checked first. *)
Lemma runTransaction_needs_function detected f o fs fs' p :
  runTransaction detected f o fs = (fs', Return p) -> f = VFun.
Proof.
  unfold runTransaction. unfold_m.
  destruct f; cbn; intros Hrun; try discriminate Hrun. reflexivity.
Qed.

(** C1. Whenever [runTransaction] gets as far as invoking the transaction,
    the maximum attempt count it passes is 1 if the options have
    [readOnly] set to [true], and 5 if [readOnly] is absent or [false] and
    [maxAttempts] is left out. *)
Theorem runTransaction_effective_maxAttempts
        detected updateFunction transactionOptions fs fs' options :
  runTransaction detected updateFunction transactionOptions fs
    = (fs', Return (Resolved options)) ->
  (prop transactionOptions "readOnly" = VBool true ->
     maxAttempts options = VNum (NumInt 1) /\ readOnly options = true)
  /\
  ((prop transactionOptions "readOnly" = VUndefined
    \/ prop transactionOptions "readOnly" = VBool false) ->
   prop transactionOptions "maxAttempts" = VUndefined ->
     maxAttempts options = VNum (NumInt 5) /\ readOnly options = false).
Proof.
  intros Hrun.
  pose proof (runTransaction_needs_function _ _ _ _ _ _ Hrun) as ->.
  revert Hrun. unfold runTransaction. unfold_m. cbn.
  destruct (truthy transactionOptions) eqn:Htruthy.
  - destruct transactionOptions as [| |b|n|s|m| |s n]; cbn;
      try discriminate; try (intros Hrun; discriminate Hrun).
    + (* a plain object *)
      destruct (validateBoolean _ (get "readOnly" m) true) eqn:Hvb; cbn;
        [|intros Hrun; discriminate Hrun].
      destruct (truthy (get "readOnly" m)) eqn:Hro.
      * destruct (validateTimestamp _ (get "readTime" m) true); cbn;
          [|intros Hrun; discriminate Hrun].
        destruct (initializeIfNeeded detected fs) as [fs1 [u|err|]];
          intros Hrun; inversion Hrun; subst; cbn.
        split; [auto|].
        intros [Hu | Hf]; rewrite ?Hu, ?Hf in Hro; discriminate Hro.
      * destruct (validateInteger _ (get "maxAttempts" m) true (Some 1%Z)); cbn;
          [|intros Hrun; discriminate Hrun].
        destruct (initializeIfNeeded detected fs) as [fs1 [u|err|]];
          intros Hrun; inversion Hrun; subst; cbn.
        split.
        -- intros Ht. rewrite Ht in Hro. discriminate Hro.
        -- intros _ ->. auto.
    + (* a Timestamp passed as the options: it has neither field *)
      destruct (initializeIfNeeded detected fs) as [fs1 [u|err|]];
        intros Hrun; inversion Hrun; subst; cbn.
      split; [intros Ht; discriminate Ht | auto].
  - destruct (initializeIfNeeded detected fs) as [fs1 [u|err|]];
      intros Hrun; inversion Hrun; subst; cbn.
    split; [|auto].
    intros Ht. destruct transactionOptions as [| |b|n|s|m| |s n];
      cbn in Ht, Htruthy; discriminate.
Qed.

(** Two calls on a fresh client whose project is detected as [p]: a
    read-only one that also asks for ten attempts, and one with empty
    options. *)
Lemma runTransaction_effective_maxAttempts_witness :
  (maxAttempts {| maxAttempts := VNum (NumInt 1); readOnly := true;
                  readTime := VUndefined |} = VNum (NumInt 1)
   /\ readOnly {| maxAttempts := VNum (NumInt 1); readOnly := true;
                  readTime := VUndefined |} = true)
  /\
  (maxAttempts {| maxAttempts := VNum (NumInt 5); readOnly := false;
                  readTime := VUndefined |} = VNum (NumInt 5)
   /\ readOnly {| maxAttempts := VNum (NumInt 5); readOnly := false;
                  readTime := VUndefined |} = false).
Proof.
  split.
  - refine (proj1 (runTransaction_effective_maxAttempts
             (Resolved "p") VFun
             (obj [("readOnly", VBool true); ("maxAttempts", VNum (NumInt 10))])
             initial_fields
             (fst (runTransaction (Resolved "p") VFun
                     (obj [("readOnly", VBool true); ("maxAttempts", VNum (NumInt 10))])
                     initial_fields))
             _ _) _).
    + vm_compute. reflexivity.
    + vm_compute. reflexivity.
  - refine (proj2 (runTransaction_effective_maxAttempts
             (Resolved "p") VFun (obj [])
             initial_fields
             (fst (runTransaction (Resolved "p") VFun (obj []) initial_fields))
             _ _) _ _).
    + vm_compute. reflexivity.
    + left. vm_compute. reflexivity.
    + vm_compute. reflexivity.
Defined.

Lemma validateInteger_bad_maxAttempts arg v :
  bad_maxAttempts v ->
  validateInteger arg v true (Some 1%Z) = Throw (InvalidArgument arg "integer")
  \/ validateInteger arg v true (Some 1%Z) = Throw (InvalidArgument arg "integer in range").
Proof.
  intros [Hpresent Hsmall]. unfold validateInteger.
  destruct v as [| |b|[z| |]|s|m| |s n]; cbn; auto; [congruence|].
  specialize (Hsmall z eq_refl).
  destruct (z <? 1)%Z eqn:Hlt; [auto | apply Z.ltb_ge in Hlt; lia].
Qed.

(** C8, as the code has it. For options that do not ask for a read-only
    transaction, a [maxAttempts] that is present and is not an integer of at
    least 1 makes the call throw a validation error; the client is left as
    it was, so that neither the initialisation nor the transaction ran. *)
Theorem runTransaction_validates_maxAttempts
        detected updateFunction transactionOptions fs :
  truthy transactionOptions = true ->
  prop transactionOptions "readOnly" <> VBool true ->
  bad_maxAttempts (prop transactionOptions "maxAttempts") ->
  exists e,
    runTransaction detected updateFunction transactionOptions fs = (fs, Throw e)
    /\ is_validation_error e = true.
Proof.
  intros Htruthy Hrw Hbad.
  unfold runTransaction. unfold_m.
  destruct (validateFunction "updateFunction" updateFunction) as [[]|e] eqn:Hf.
  2:{ exists e. split; [reflexivity|].
      destruct updateFunction; cbn in Hf; inversion Hf; reflexivity. }
  rewrite Htruthy.
  destruct transactionOptions as [| |b|n|s|m| |s n]; cbn in *;
    try discriminate Htruthy; try (eexists; split; reflexivity).
  - (* a plain object *)
    destruct (get "readOnly" m) as [| |[|]|n|s|m'| |s n] eqn:Hro; cbn;
      try (eexists; split; reflexivity); try congruence.
    + destruct (validateInteger_bad_maxAttempts "transactionOptions.maxAttempts" _ Hbad)
        as [-> | ->]; eexists; split; reflexivity.
    + destruct (validateInteger_bad_maxAttempts "transactionOptions.maxAttempts" _ Hbad)
        as [-> | ->]; eexists; split; reflexivity.
  - (* a Timestamp has no [maxAttempts] *)
    destruct Hbad as [Hpresent _]. congruence.
Qed.

(** A read-write call asking for zero attempts, on a fresh client. *)
Lemma runTransaction_validates_maxAttempts_witness :
  exists e,
    runTransaction (Resolved "p") VFun
      (obj [("maxAttempts", VNum (NumInt 0))]) initial_fields
      = (initial_fields, Throw e)
    /\ is_validation_error e = true.
Proof.
  apply (runTransaction_validates_maxAttempts
           (Resolved "p") VFun (obj [("maxAttempts", VNum (NumInt 0))]) initial_fields).
  - reflexivity.
  - vm_compute. discriminate.
  - split.
    + vm_compute. discriminate.
    + intros z Hz. vm_compute in Hz. inversion Hz. lia.
Defined.

(** C8 as stated does not hold: with [readOnly: true] the field
    [maxAttempts] is not looked at. Zero attempts are asked for, nothing is
    thrown, and the transaction runs with one attempt. *)
Lemma runTransaction_readOnly_ignores_maxAttempts :
  bad_maxAttempts (prop (obj [("readOnly", VBool true); ("maxAttempts", VNum (NumInt 0))])
                        "maxAttempts")
  /\ snd (runTransaction (Resolved "p") VFun
            (obj [("readOnly", VBool true); ("maxAttempts", VNum (NumInt 0))])
            initial_fields)
     = Return (Resolved {| maxAttempts := VNum (NumInt 1); readOnly := true;
                           readTime := VUndefined |}).
Proof.
  split.
  - split.
    + vm_compute. discriminate.
    + intros z Hz. vm_compute in Hz. inversion Hz. lia.
  - vm_compute. reflexivity.
Qed.

(* ===================================================================== *)
(** ** Document and collection references                                 *)
(* ===================================================================== *)

Section ReferenceFacts.
Context `{PathParser}.

Lemma doc_unfold path :
  doc path =
    if validPath path then
      if (0 <? length (split path)) && Nat.even (length (split path))
      then Return {| doc_path := {| segments := split path |} |}
      else Throw (UsageError
        ("Value for argument documentPath must point to a document, but was "
           +:+ path +:+ ". Your path does not contain an even number of components."))
    else Throw (InvalidArgument "documentPath" "resource path").
Proof.
  unfold doc, validateResourcePath, append, isDocument. unfold_m.
  cbn [segments EMPTY app].
  destruct (validPath path); [|reflexivity].
  destruct ((0 <? length (split path)) && Nat.even (length (split path)));
    reflexivity.
Qed.

Lemma collection_unfold path :
  collection path =
    if validPath path then
      if Nat.odd (length (split path))
      then Return {| collection_path := {| segments := split path |} |}
      else Throw (UsageError
        ("Value for argument collectionPath must point to a collection, but was "
           +:+ path +:+ ". Your path does not contain an odd number of components."))
    else Throw (InvalidArgument "collectionPath" "resource path").
Proof.
  unfold collection, validateResourcePath, append, isCollection. unfold_m. cbn.
  destruct (validPath path); [|reflexivity].
  destruct (Nat.odd (length (split path))); reflexivity.
Qed.

(** C7, as the code has it. [doc] throws exactly when the path is invalid,
    has no segment at all, or has a number of segments that is not even;
    [collection] throws exactly when the path is invalid or its number of
    segments is not odd. A reference that is returned points to the path
    given, segment by segment, and its number of segments is even and not
    zero for a document, odd for a collection. *)
Theorem doc_collection_throw_iff (path : string) :
  ((exists e, doc path = Throw e)
     <-> validPath path = false
         \/ length (split path) = 0
         \/ Nat.even (length (split path)) = false)
  /\ (forall r, doc path = Return r ->
        doc_path r = append EMPTY path /\ segments (doc_path r) = split path
        /\ 0 < length (segments (doc_path r))
        /\ Nat.even (length (segments (doc_path r))) = true)
  /\ ((exists e, collection path = Throw e)
        <-> validPath path = false \/ Nat.odd (length (split path)) = false)
  /\ (forall r, collection path = Return r ->
        collection_path r = append EMPTY path
        /\ segments (collection_path r) = split path
        /\ Nat.odd (length (segments (collection_path r))) = true).
Proof.
  rewrite doc_unfold, collection_unfold. unfold append. cbn [segments EMPTY app].
  destruct (validPath path) eqn:Hvalid;
    destruct (Nat.ltb_spec0 0 (length (split path))) as [Hlen|Hlen];
    destruct (Nat.even (length (split path))) eqn:Heven;
    destruct (Nat.odd (length (split path))) eqn:Hodd; cbn [andb].
  all: repeat split; intros.
  all: repeat match goal with
         | H : exists _, _ |- _ => destruct H
         | H : _ \/ _ |- _ => destruct H
         | H : Return _ = Throw _ |- _ => discriminate H
         | H : Throw _ = Return _ |- _ => discriminate H
         | H : true = false |- _ => discriminate H
         | H : false = true |- _ => discriminate H
         | H : Throw _ = Throw _ |- _ => inversion H; subst; clear H
         | H : Return _ = Return _ |- _ => inversion H; subst; clear H
         end.
  all: cbn; try reflexivity; try lia; eauto.
  all: try (right; left; lia).
Qed.

End ReferenceFacts.

(** C7 as stated does not hold: the path [/] is valid and has no segment,
    which is an even number of segments, and [doc] throws for it all the
    same, with the error for a path that does not point to a document. *)
Lemma doc_refuses_root_path :
  @validPath slash_parser "/" = true
  /\ Nat.even (length (@split slash_parser "/")) = true
  /\ exists message, @doc slash_parser "/" = Throw (UsageError message).
Proof. repeat split. eexists. vm_compute. reflexivity. Qed.

Example doc_rejects_collection_path :
  exists e, @doc slash_parser "col" = Throw e.
Proof. eexists. vm_compute. reflexivity. Qed.

Example collection_ok :
  @collection slash_parser "col/doc/sub"
  = Return {| collection_path := {| segments := ["col"; "doc"; "sub"] |} |}.
Proof. vm_compute. reflexivity. Qed.

Example collection_refuses_root_path :
  exists e, @collection slash_parser "/" = Throw e.
Proof. eexists. vm_compute. reflexivity. Qed.

(* ===================================================================== *)
(** ** Frozen settings                                                    *)
(* ===================================================================== *)

Section SettingsFacts.
Context `{Platform}.
Variable env : Env.

(** A frozen client refuses [settings()] and stays as it is. *)
Lemma settings_when_frozen s fs :
  _settingsFrozen fs = true ->
  exists e, settings env s fs = (fs, Throw e).
Proof.
  intros Hfrozen. unfold settings. unfold_m.
  destruct (validateObject "settings" s) as [[]|e]; [|eauto].
  destruct (validateString "settings.projectId" (prop s "projectId") true) as [[]|e];
    [|eauto].
  cbn. rewrite Hfrozen. eauto.
Qed.

Lemma settings_keeps_frozen s fs :
  _settingsFrozen fs = true -> _settingsFrozen (fst (settings env s fs)) = true.
Proof.
  intros Hfrozen. destruct (settings_when_frozen s fs Hfrozen) as [e ->]. exact Hfrozen.
Qed.

(** A [settings()] call that returns has frozen the settings. *)
Lemma settings_freezes s fs fs' :
  settings env s fs = (fs', Return tt) -> _settingsFrozen fs' = true.
Proof.
  unfold settings. unfold_m.
  destruct (validateObject "settings" s) as [[]|e]; [|discriminate].
  destruct (validateString "settings.projectId" (prop s "projectId") true) as [[]|e];
    [|discriminate].
  cbn. destruct (_settingsFrozen fs); [discriminate|].
  destruct (validateAndApplySettings env _ fs) as [fs1 [[]|e]]; [|discriminate].
  intros Heq. inversion Heq. reflexivity.
Qed.

Lemma initializeIfNeeded_freezes detected fs :
  _settingsFrozen (fst (initializeIfNeeded detected fs)) = true.
Proof.
  unfold initializeIfNeeded. cbn.
  destruct (is_false _); destruct (is_undefined _); cbn;
    try destruct (ClientPool_run _ _); reflexivity.
Qed.

Lemma runTransaction_keeps_frozen detected f o fs :
  _settingsFrozen fs = true ->
  _settingsFrozen (fst (runTransaction detected f o fs)) = true.
Proof.
  intros Hfrozen. unfold runTransaction. unfold_m.
  destruct (validateFunction _ _) as [[]|e]; [|exact Hfrozen].
  match goal with
  | |- context [match ?c with Return _ => _ | Throw _ => _ end] =>
      destruct c as [options|e]
  end; [|exact Hfrozen].
  pose proof (initializeIfNeeded_freezes detected fs) as Hinit.
  destruct (initializeIfNeeded detected fs) as [fs1 p]. exact Hinit.
Qed.

Lemma runTransaction_freezes detected f o fs p :
  snd (runTransaction detected f o fs) = Return p ->
  _settingsFrozen (fst (runTransaction detected f o fs)) = true.
Proof.
  unfold runTransaction. unfold_m.
  destruct (validateFunction _ _) as [[]|e]; [|discriminate].
  match goal with
  | |- context [match ?c with Return _ => _ | Throw _ => _ end] =>
      destruct c as [options|e]
  end; [|discriminate].
  pose proof (initializeIfNeeded_freezes detected fs) as Hinit.
  destruct (initializeIfNeeded detected fs) as [fs1 q]. intros _. exact Hinit.
Qed.

(** No call clears the flag. *)
Lemma exec_keeps_frozen c fs :
  _settingsFrozen fs = true -> _settingsFrozen (exec env c fs) = true.
Proof.
  intros Hfrozen. destruct c; cbn.
  - apply settings_keeps_frozen, Hfrozen.
  - apply initializeIfNeeded_freezes.
  - apply runTransaction_keeps_frozen, Hfrozen.
  - exact Hfrozen.
  - exact Hfrozen.
  - exact Hfrozen.
  - exact Hfrozen.
  - unfold terminate. destruct (_ || _); [exact Hfrozen|].
    destruct (ClientPool_terminate _). exact Hfrozen.
Qed.

Lemma exec_all_keeps_frozen calls fs :
  _settingsFrozen fs = true -> _settingsFrozen (exec_all env calls fs) = true.
Proof.
  revert fs. induction calls as [|c calls IH]; intros fs Hfrozen; cbn.
  - exact Hfrozen.
  - apply IH, exec_keeps_frozen, Hfrozen.
Qed.

Lemma freezes_frozen c fs :
  freezes env c fs -> _settingsFrozen (exec env c fs) = true.
Proof.
  destruct c as [s|detected|detected f o| | | | |]; cbn; try contradiction.
  - intros Hret. apply (settings_freezes s fs).
    destruct (settings env s fs) as [fs' r]. cbn in *. congruence.
  - intros _. apply initializeIfNeeded_freezes.
  - intros [p Hp]. eapply runTransaction_freezes, Hp.
Qed.

(** C10. After a [settings()] call that returned, or an operation that ran
    the initialisation, and then after any further calls: the flag is still
    set, and a call of [settings()] throws and leaves the whole client, its
    stored settings included, as it was. *)
Theorem settings_frozen_for_good (first : Call) (later : list Call)
        (s : JsVal) (fs0 : Firestore) :
  freezes env first fs0 ->
  let fs := exec_all env later (exec env first fs0) in
  _settingsFrozen fs = true
  /\ exists e, settings env s fs = (fs, Throw e)
               /\ _settings (fst (settings env s fs)) = _settings fs.
Proof.
  intros Hfirst fs.
  assert (Hfrozen : _settingsFrozen fs = true)
    by (apply exec_all_keeps_frozen, freezes_frozen, Hfirst).
  split; [exact Hfrozen|].
  destruct (settings_when_frozen s fs Hfrozen) as [e He].
  exists e. rewrite He. split; reflexivity.
Qed.

End SettingsFacts.

(** A client made with a project id, then [settings()], a listener and an
    initialisation; [settings()] is tried again with a host. *)
Lemma settings_frozen_for_good_witness :
  _settingsFrozen
    (@exec_all example_platform no_env
       [CallRegisterListener; CallInitialize (Resolved "detected")]
       (@exec example_platform no_env
          (CallSettings (obj [("projectId", VStr "p")])) initial_fields)) = true
  /\ exists e,
      @settings example_platform no_env (obj [("host", VStr "localhost:8080")])
        (@exec_all example_platform no_env
           [CallRegisterListener; CallInitialize (Resolved "detected")]
           (@exec example_platform no_env
              (CallSettings (obj [("projectId", VStr "p")])) initial_fields))
      = (@exec_all example_platform no_env
           [CallRegisterListener; CallInitialize (Resolved "detected")]
           (@exec example_platform no_env
              (CallSettings (obj [("projectId", VStr "p")])) initial_fields),
         Throw e)
      /\ _settings
           (fst (@settings example_platform no_env
                   (obj [("host", VStr "localhost:8080")])
                   (@exec_all example_platform no_env
                      [CallRegisterListener; CallInitialize (Resolved "detected")]
                      (@exec example_platform no_env
                         (CallSettings (obj [("projectId", VStr "p")]))
                         initial_fields))))
         = _settings
             (@exec_all example_platform no_env
                [CallRegisterListener; CallInitialize (Resolved "detected")]
                (@exec example_platform no_env
                   (CallSettings (obj [("projectId", VStr "p")])) initial_fields)).
Proof.
  apply (@settings_frozen_for_good example_platform no_env
           (CallSettings (obj [("projectId", VStr "p")]))
           [CallRegisterListener; CallInitialize (Resolved "detected")]
           (obj [("host", VStr "localhost:8080")])
           initial_fields).
  vm_compute. reflexivity.
Defined.

(** Before it is frozen the client takes the settings. *)
Example settings_first_call :
  snd (@settings example_platform no_env (obj [("projectId", VStr "p")]) initial_fields)
  = Return tt.
Proof. vm_compute. reflexivity. Qed.

(* ===================================================================== *)
(** ** Termination of the client                                          *)
(* ===================================================================== *)

Lemma terminate_refuses fs :
  (0 < registeredListenersCount fs \/ 0 < bulkWritersCount fs)%Z ->
  exists message, terminate fs = (fs, Rejected (RejectedWith message)).
Proof.
  intros Hopen. unfold terminate.
  assert (Hguard : (0 <? registeredListenersCount fs)%Z
                   || (0 <? bulkWritersCount fs)%Z = true).
  { apply orb_true_iff. destruct Hopen as [Hl | Hb]; [left | right];
      apply Z.ltb_lt; assumption. }
  rewrite Hguard. eauto.
Qed.

Lemma terminate_delegates fs :
  (registeredListenersCount fs <= 0)%Z -> (bulkWritersCount fs <= 0)%Z ->
  delegates_to_pool fs.
Proof.
  intros Hl Hb. unfold delegates_to_pool, terminate.
  assert (Hguard : (0 <? registeredListenersCount fs)%Z
                   || (0 <? bulkWritersCount fs)%Z = false).
  { apply orb_false_iff. split; apply Z.ltb_ge; assumption. }
  rewrite Hguard. destruct (ClientPool_terminate (_clientPool fs)); reflexivity.
Qed.

Lemma initial_counts_ok : counts_ok initial_fields.
Proof. split; cbn; lia. Qed.

Lemma register_counts_ok fs :
  counts_ok fs ->
  counts_ok (registerListener fs) /\ counts_ok (_incrementBulkWritersCount fs)
  /\ unregisterListener (registerListener fs) = fs
  /\ _decrementBulkWritersCount (_incrementBulkWritersCount fs) = fs.
Proof.
  intros [Hl Hb]. destruct fs as [pool stored frozen id listeners writers].
  unfold counts_ok, registerListener, unregisterListener,
    _incrementBulkWritersCount, _decrementBulkWritersCount,
    set_registeredListenersCount, set_bulkWritersCount in *. cbn in *.
  repeat split; try lia; f_equal; lia.
Qed.

(** The calls that are not about listeners or writers leave the counters
    alone. For the monadic code this is a frame property, kept by each
    combinator. *)
Ltac split_matches :=
  repeat match goal with
         | |- context [match ?x with _ => _ end] => destruct x; cbn
         | |- context [if ?b then _ else _] => destruct b; cbn
         end.

Lemma keeps_counters_bind {A B} (m : M Firestore A) (k : A -> M Firestore B) :
  keeps_counters m -> (forall a, keeps_counters (k a)) -> keeps_counters (m ≫= k).
Proof.
  intros Hm Hk fs. unfold_m. specialize (Hm fs).
  destruct (m fs) as [fs1 [a|e]]; cbn in *; [|exact Hm].
  specialize (Hk a fs1). destruct Hm as [Hl Hb], Hk as [Hl' Hb'].
  split; congruence.
Qed.

Lemma keeps_counters_lift {A} (c : Completion A) : keeps_counters (lift c).
Proof. intros fs. split; reflexivity. Qed.

Lemma keeps_counters_mret {A} (a : A) : keeps_counters (mret a).
Proof. intros fs. split; reflexivity. Qed.

Lemma keeps_counters_throw {A} (e : Error) : keeps_counters (A := A) (throw e).
Proof. intros fs. split; reflexivity. Qed.

Lemma keeps_counters_gets {A} (f : Firestore -> A) : keeps_counters (gets f).
Proof. intros fs. split; reflexivity. Qed.

Lemma keeps_counters_modify (f : Firestore -> Firestore) :
  (forall fs, same_counters (f fs) fs) -> keeps_counters (modify f).
Proof. intros Hf fs. apply Hf. Qed.

Ltac keeps_counters :=
  repeat first
    [ apply keeps_counters_bind; [|intros ?]
    | apply keeps_counters_lift
    | apply keeps_counters_mret
    | apply keeps_counters_throw
    | apply keeps_counters_gets
    | apply keeps_counters_modify; intros ?; split; reflexivity
    | match goal with
      | |- keeps_counters (if ?b then _ else _) => destruct b
      | |- keeps_counters (match ?x with _ => _ end) => destruct x
      end ].

Lemma validateAndApplySettings_counters `{Platform} env s :
  keeps_counters (validateAndApplySettings env s).
Proof. unfold validateAndApplySettings. keeps_counters. Qed.

Lemma settings_counters `{Platform} env s : keeps_counters (settings env s).
Proof.
  unfold settings. keeps_counters.
Qed.

Lemma initializeIfNeeded_counters detected fs :
  same_counters (fst (initializeIfNeeded detected fs)) fs.
Proof.
  unfold initializeIfNeeded, ClientPool_run, same_counters.
  split_matches; auto.
Qed.

Lemma runTransaction_counters detected f o :
  keeps_counters (runTransaction detected f o).
Proof.
  unfold runTransaction. keeps_counters.
  intros fs. unfold run_state.
  pose proof (initializeIfNeeded_counters detected fs) as Hcounters.
  destruct (initializeIfNeeded detected fs) as [fs1 p]. exact Hcounters.
Qed.

(** The counters stay counts along any run in which a listener is
    unregistered, and a writer closed, only while the counter of its kind
    is positive. *)
Lemma exec_counts_ok `{Platform} env c fs :
  counts_ok fs ->
  (c = CallUnregisterListener -> (0 < registeredListenersCount fs)%Z) ->
  (c = CallDecrementBulkWritersCount -> (0 < bulkWritersCount fs)%Z) ->
  counts_ok (exec env c fs).
Proof.
  intros [Hl Hb] Hunregister Hdecrement. unfold counts_ok.
  destruct c as [s|detected|detected f o| | | | |]; cbn [exec].
  - destruct (settings_counters env s fs) as [-> ->]. auto.
  - destruct (initializeIfNeeded_counters detected fs) as [-> ->]. auto.
  - destruct (runTransaction_counters detected f o fs) as [-> ->]. auto.
  - cbn. lia.
  - specialize (Hunregister eq_refl). cbn. lia.
  - cbn. lia.
  - specialize (Hdecrement eq_refl). cbn. lia.
  - unfold terminate. destruct (_ || _); [auto|].
    destruct (ClientPool_terminate _). cbn. auto.
Qed.

(** C9. With a registered listener or an open BulkWriter, [terminate]
    rejects and the client, its pool included, is as before. It hands over
    to the pool's [terminate] exactly when neither counter is positive,
    which for counts, that are never negative, is when both are zero. *)
Theorem terminate_only_when_idle (fs : Firestore) :
  ((0 < registeredListenersCount fs \/ 0 < bulkWritersCount fs)%Z ->
     exists message,
       terminate fs = (fs, Rejected (RejectedWith message))
       /\ _clientPool (fst (terminate fs)) = _clientPool fs
       /\ terminated (_clientPool (fst (terminate fs))) = terminated (_clientPool fs))
  /\ (delegates_to_pool fs
        <-> (registeredListenersCount fs <= 0 /\ bulkWritersCount fs <= 0)%Z)
  /\ (counts_ok fs ->
        (delegates_to_pool fs
           <-> registeredListenersCount fs = 0%Z /\ bulkWritersCount fs = 0%Z)).
Proof.
  assert (Hexact : delegates_to_pool fs
                   <-> (registeredListenersCount fs <= 0
                        /\ bulkWritersCount fs <= 0)%Z).
  { split.
    - intros Hdel.
      destruct (Z_lt_le_dec 0 (registeredListenersCount fs)) as [Hl|Hl];
        destruct (Z_lt_le_dec 0 (bulkWritersCount fs)) as [Hb|Hb]; auto;
        exfalso;
        assert (Hopen : (0 < registeredListenersCount fs
                         \/ 0 < bulkWritersCount fs)%Z) by auto;
        destruct (terminate_refuses fs Hopen) as [message Hrej];
        unfold delegates_to_pool in Hdel; rewrite Hrej in Hdel;
        unfold ClientPool_terminate in Hdel; cbn in Hdel; discriminate Hdel.
    - intros [Hl Hb]. apply terminate_delegates; assumption. }
  split; [|split].
  - intros Hopen. destruct (terminate_refuses fs Hopen) as [message Hrej].
    exists message. rewrite Hrej. auto.
  - exact Hexact.
  - intros [Hl Hb]. rewrite Hexact. lia.
Qed.

(** A client with one listener registered refuses; once the listener is
    unregistered it hands over to the pool. *)
Lemma terminate_only_when_idle_witness :
  (exists message,
      terminate (registerListener initial_fields)
      = (registerListener initial_fields, Rejected (RejectedWith message)))
  /\ delegates_to_pool (unregisterListener (registerListener initial_fields)).
Proof.
  split.
  - destruct (proj1 (terminate_only_when_idle (registerListener initial_fields)))
      as (message & Hrej & _).
    + left. cbn. lia.
    + exists message. exact Hrej.
  - apply (proj2 (proj2 (terminate_only_when_idle
                           (unregisterListener (registerListener initial_fields))))).
    + split; cbn; lia.
    + split; reflexivity.
Defined.

Example terminate_idle :
  terminated (_clientPool (fst (terminate initial_fields))) = true
  /\ snd (terminate initial_fields) = Resolved tt.
Proof. split; reflexivity. Qed.

Example terminate_busy :
  terminated (_clientPool (fst (terminate (registerListener initial_fields)))) = false.
Proof. reflexivity. Qed.

(* ===================================================================== *)
(** ** The emulator host                                                  *)
(* ===================================================================== *)

Section EmulatorFacts.
Context `{Platform}.
Variable env : Env.

Lemma with_url_servicePath url settings :
  get "servicePath" (with_url url settings) = VStr (hostname url).
Proof.
  unfold with_url, get.
  destruct (negb _ && _); by simplify_map_eq.
Qed.

Lemma with_url_host url settings :
  get "host" (with_url url settings) = VUndefined.
Proof.
  unfold with_url, get. by simplify_map_eq.
Qed.

Lemma with_url_other k url settings :
  k ≠ "apiEndpoint" -> k ≠ "host" -> k ≠ "port" -> k ≠ "servicePath" ->
  get k (with_url url settings) = get k settings.
Proof.
  intros ? ? ? ?. unfold with_url, get.
  destruct (negb _ && _); by simplify_map_eq.
Qed.

Lemma with_url_port url settings :
  get "port" (with_url url settings) =
    if negb (String.eqb (port url) "") && is_undefined (get "port" settings)
    then VNum (Number (port url))
    else get "port" settings.
Proof.
  unfold with_url, get. cbn. rewrite lookup_insert_ne by done.
  destruct (negb _ && _); by simplify_map_eq.
Qed.

(** With the emulator variable set, applying settings either throws or
    stores the settings overridden by the variable. *)
Lemma validateAndApplySettings_emulator settings fs fs' emulator :
  emulator_host env = Some emulator ->
  validateAndApplySettings env settings fs = (fs', Return tt) ->
  exists url,
    parseURL ("http://" +:+ emulator) = Some url
    /\ validHost emulator = true
    /\ _settings fs' =
         with_url url (<["ssl" := VBool false]> (<["host" := VStr emulator]> settings)).
Proof.
  intros Hemulator. unfold validateAndApplySettings. unfold_m.
  rewrite Hemulator.
  set (applied := <["ssl" := VBool false]> (<["host" := VStr emulator]> settings)).
  assert (Hhost : get "host" applied = VStr emulator)
    by (unfold applied, get; by simplify_map_eq).
  rewrite Hhost. unfold new_URL, validateHost. cbn [to_string].
  destruct (parseURL ("http://" +:+ emulator)) as [url|];
    destruct (validHost emulator);
    destruct (negb (is_undefined (get "projectId" settings)));
    try destruct (validateString _ _ _) as [[]|e1];
    try (intros Heq; discriminate Heq);
    cbn beta iota;
    (destruct (negb (is_undefined (get "ssl" (with_url url applied))));
     [destruct (validateBoolean _ _ _) as [[]|e2]|]);
    try (intros Heq; discriminate Heq);
    (destruct (negb (is_undefined (get "maxIdleChannels" (with_url url applied))));
     [destruct (validateInteger _ _ _ _) as [[]|e3]|]);
    try (intros Heq; discriminate Heq);
    intros Heq; inversion Heq; subst; exists url; auto.
Qed.

(** The fields of the stored settings that the variable decides. *)
Lemma validateAndApplySettings_emulator_fields settings fs fs' emulator :
  emulator_host env = Some emulator ->
  validateAndApplySettings env settings fs = (fs', Return tt) ->
  exists url,
    parseURL ("http://" +:+ emulator) = Some url
    /\ get "servicePath" (_settings fs') = VStr (hostname url)
    /\ get "ssl" (_settings fs') = VBool false
    /\ get "host" (_settings fs') = VUndefined
    /\ get "port" (_settings fs') =
         if negb (String.eqb (port url) "") && is_undefined (get "port" settings)
         then VNum (Number (port url))
         else get "port" settings.
Proof.
  intros Hemulator Happlied.
  destruct (validateAndApplySettings_emulator _ _ _ _ Hemulator Happlied)
    as (url & Hurl & _ & ->).
  exists url. split; [exact Hurl|].
  rewrite with_url_servicePath, with_url_host, with_url_port.
  rewrite with_url_other by done.
  repeat split.
  - unfold get. by simplify_map_eq.
  - unfold get. by simplify_map_eq.
Qed.

(** The same at construction: the settings of a client made while the
    variable is set. *)
Lemma new_Firestore_emulator (s : JsVal) fs emulator :
  emulator_host env = Some emulator ->
  new_Firestore env s = Return fs ->
  exists url,
    parseURL ("http://" +:+ emulator) = Some url
    /\ get "servicePath" (_settings fs) = VStr (hostname url)
    /\ get "ssl" (_settings fs) = VBool false
    /\ get "host" (_settings fs) = VUndefined
    /\ get "port" (_settings fs) =
         if negb (String.eqb (port url) "") && is_undefined (get "port" (own_props s))
         then VNum (Number (port url))
         else get "port" (own_props s).
Proof.
  intros Hemulator. unfold new_Firestore.
  match goal with
  | |- context [validateAndApplySettings env ?m initial_fields] =>
      set (merged := m);
      assert (Hport : get "port" merged = get "port" (own_props s))
        by (unfold merged, spread2, get;
            rewrite lookup_union_r by (by simplify_map_eq); reflexivity);
      destruct (validateAndApplySettings env merged initial_fields)
        as [fs1 [[]|e]] eqn:Happlied
  end; [|discriminate].
  intros Heq. inversion Heq. subst fs. cbn [_settings set_clientPool].
  destruct (validateAndApplySettings_emulator_fields merged initial_fields fs1 emulator
              Hemulator Happlied) as (url & Hurl & Hsp & Hssl & Hhost & Hp).
  exists url. rewrite <- Hport. auto.
Qed.

(** And by [settings()]: the caller's settings are merged over the stored
    ones before they are applied. *)
Lemma settings_emulator (s : JsVal) fs fs' emulator :
  emulator_host env = Some emulator ->
  settings env s fs = (fs', Return tt) ->
  exists url,
    parseURL ("http://" +:+ emulator) = Some url
    /\ get "servicePath" (_settings fs') = VStr (hostname url)
    /\ get "ssl" (_settings fs') = VBool false
    /\ get "host" (_settings fs') = VUndefined.
Proof.
  intros Hemulator. unfold settings. unfold_m.
  destruct (validateObject "settings" s) as [[]|e]; [|discriminate].
  destruct (validateString "settings.projectId" (prop s "projectId") true) as [[]|e];
    [|discriminate].
  cbn. destruct (_settingsFrozen fs); [discriminate|].
  destruct (validateAndApplySettings env (spread2 (_settings fs) (own_props s)) fs)
    as [fs1 [[]|e]] eqn:Happlied; [|discriminate].
  intros Heq. inversion Heq. subst fs'. cbn [_settings set_settingsFrozen].
  destruct (validateAndApplySettings_emulator_fields _ _ _ _ Hemulator Happlied)
    as (url & Hurl & Hsp & Hssl & Hhost & _).
  exists url. auto.
Qed.

(** What the code does with [FIRESTORE_EMULATOR_HOST] set: the settings
    that get stored, at construction and by [settings()], name the
    variable's host as [servicePath], have [ssl] false and no [host],
    whatever [host] and [ssl] the caller gave. The port is the variable's
    only when the variable has one and the caller's settings have no
    [port]: the guard on the port lets a [port] of the caller through. *)
Theorem emulator_host_overrides settings fs fs' emulator :
  emulator_host env = Some emulator ->
  validateAndApplySettings env settings fs = (fs', Return tt) ->
  exists url,
    parseURL ("http://" +:+ emulator) = Some url
    /\ get "servicePath" (_settings fs') = VStr (hostname url)
    /\ get "ssl" (_settings fs') = VBool false
    /\ get "host" (_settings fs') = VUndefined
    /\ get "port" (_settings fs') =
         if negb (String.eqb (port url) "") && is_undefined (get "port" settings)
         then VNum (Number (port url))
         else get "port" settings.
Proof. exact (validateAndApplySettings_emulator_fields settings fs fs' emulator). Qed.

End EmulatorFacts.

(** A caller who asks for another host, with SSL, while the variable names
    the emulator. *)
Lemma emulator_host_overrides_witness :
  exists url,
    example_parseURL "http://localhost:8080" = Some url
    /\ get "servicePath"
         (_settings (fst (@validateAndApplySettings example_platform
                            (emulator_env "localhost:8080")
                            (list_to_map [("host", VStr "firestore.example.com");
                                          ("ssl", VBool true)])
                            initial_fields)))
       = VStr (hostname url)
    /\ get "ssl"
         (_settings (fst (@validateAndApplySettings example_platform
                            (emulator_env "localhost:8080")
                            (list_to_map [("host", VStr "firestore.example.com");
                                          ("ssl", VBool true)])
                            initial_fields)))
       = VBool false
    /\ get "host"
         (_settings (fst (@validateAndApplySettings example_platform
                            (emulator_env "localhost:8080")
                            (list_to_map [("host", VStr "firestore.example.com");
                                          ("ssl", VBool true)])
                            initial_fields)))
       = VUndefined
    /\ get "port"
         (_settings (fst (@validateAndApplySettings example_platform
                            (emulator_env "localhost:8080")
                            (list_to_map [("host", VStr "firestore.example.com");
                                          ("ssl", VBool true)])
                            initial_fields)))
       = if negb (String.eqb (port url) "")
            && is_undefined
                 (get "port" (list_to_map [("host", VStr "firestore.example.com");
                                           ("ssl", VBool true)]))
         then VNum (Number (port url))
         else get "port" (list_to_map [("host", VStr "firestore.example.com");
                                       ("ssl", VBool true)]).
Proof.
  apply (@emulator_host_overrides example_platform
           (emulator_env "localhost:8080")
           (list_to_map [("host", VStr "firestore.example.com"); ("ssl", VBool true)])
           initial_fields _ "localhost:8080").
  - reflexivity.
  - vm_compute. reflexivity.
Defined.

Example emulator_settings_stored :
  _settings (fst (@validateAndApplySettings example_platform
                    (emulator_env "localhost:8080")
                    (list_to_map [("host", VStr "firestore.example.com");
                                  ("ssl", VBool true)])
                    initial_fields))
  = list_to_map [("servicePath", VStr "localhost"); ("port", VNum (NumInt 8080));
                 ("ssl", VBool false)].
Proof. vm_compute. reflexivity. Qed.

(** C5. The code where it fails the claim: a client made with [port: 9999]
    in its settings while the variable is [localhost:8080] talks to
    [localhost], without SSL, on port 9999 and not on the port 8080 of the
    variable, against the comment in [validateAndApplySettings] by which
    the variable "should always take precedence over any user passed in
    settings". *)
Lemma emulator_port_kept_from_settings :
  example_parseURL "http://localhost:8080"
    = Some {| hostname := "localhost"; port := "8080" |}
  /\ exists fs,
      @new_Firestore example_platform (emulator_env "localhost:8080")
        (obj [("port", VNum (NumInt 9999))]) = Return fs
      /\ get "servicePath" (_settings fs) = VStr "localhost"
      /\ get "ssl" (_settings fs) = VBool false
      /\ get "port" (_settings fs) = VNum (NumInt 9999).
Proof.
  split; [reflexivity|].
  eexists. split; [vm_compute; reflexivity|].
  repeat split; vm_compute; reflexivity.
Qed.

(* ===================================================================== *)
(** ** The retry helper                                                   *)
(* ===================================================================== *)

Section RetryFacts.
Context {S T E : Type}.
Variable isPermanentRpcError : E -> string -> bool.
Variable methodName : string.
Variable func : S -> S * Promise T E.

(** Recording the attempts does not change what the loop does. *)
Lemma retry_loop_logged_same remaining lastError s log :
  retry_loop isPermanentRpcError methodName func remaining lastError s =
    (fst (fst (retry_loop isPermanentRpcError methodName (logged func)
                 remaining lastError (s, log))),
     snd (retry_loop isPermanentRpcError methodName (logged func)
            remaining lastError (s, log))).
Proof.
  revert lastError s log.
  induction remaining as [|remaining IH]; intros lastError s log; cbn.
  - reflexivity.
  - destruct (func s) as [s' [v|err|]]; cbn; try reflexivity.
    destruct (isPermanentRpcError err methodName); [reflexivity|].
    apply IH.
Qed.

(** What the loop leaves in the log: the attempts made, at most as many as
    there were iterations left, all but the last rejected with an error
    that is not permanent, and the last one deciding the outcome. *)
Lemma retry_loop_log remaining lastError s log :
  exists new,
    snd (fst (retry_loop isPermanentRpcError methodName (logged func)
                remaining lastError (s, log))) = log ++ new
    /\ length new <= remaining
    /\ (remaining <> 0 -> new <> [])
    /\ (forall i r, new !! i = Some r -> Datatypes.S i < length new ->
          exists e, r = Rejected e /\ isPermanentRpcError e methodName = false)
    /\ (forall i, i < length new ->
          new !! i = Some (snd (func (state_before func s i))))
    /\ fst (fst (retry_loop isPermanentRpcError methodName (logged func)
                   remaining lastError (s, log)))
       = state_before func s (length new)
    /\ match last new with
       | Some (Resolved v) =>
           snd (retry_loop isPermanentRpcError methodName (logged func)
                  remaining lastError (s, log)) = Resolved v
       | Some Pending =>
           snd (retry_loop isPermanentRpcError methodName (logged func)
                  remaining lastError (s, log)) = Pending
       | Some (Rejected e) =>
           (isPermanentRpcError e methodName = true \/ length new = remaining)
           /\ snd (retry_loop isPermanentRpcError methodName (logged func)
                     remaining lastError (s, log)) = Rejected (Some e)
       | None =>
           remaining = 0
           /\ snd (retry_loop isPermanentRpcError methodName (logged func)
                     remaining lastError (s, log)) = Rejected lastError
       end.
Proof.
  revert lastError s log.
  induction remaining as [|remaining IH]; intros lastError s log.
  - exists []. cbn. rewrite app_nil_r.
    repeat split; try done; try lia.
  - cbn [retry_loop logged].
    destruct (func s) as [s' r] eqn:Hfunc.
    assert (Hone : forall i, i < 1 ->
              [r] !! i = Some (snd (func (state_before func s i)))).
    { intros i Hi. assert (i = 0) as -> by lia. cbn. rewrite Hfunc. reflexivity. }
    assert (Hstate : s' = state_before func s 1)
      by (cbn; rewrite Hfunc; reflexivity).
    destruct r as [v|err|].
    + exists [Resolved v]. cbn [fst snd length last].
      repeat split; try done; try lia.
    + destruct (isPermanentRpcError err methodName) eqn:Hperm.
      * exists [Rejected err]. cbn [fst snd length last].
        repeat split; try done; try lia; auto.
      * destruct (IH (Some err) s' (log ++ [Rejected err]))
          as (new & Hlog & Hlen & Hnonempty & Hearlier & Hnth & Hfinal & Hlast).
        exists (Rejected err :: new).
        split; [rewrite Hlog, <- app_assoc; reflexivity|].
        split; [cbn; lia|].
        split; [done|].
        split.
        { intros [|i] r Hi Hlt; cbn in Hi, Hlt.
          - inversion Hi; subst. eauto.
          - apply (Hearlier i r Hi). lia. }
        split.
        { intros [|i] Hi; cbn in Hi.
          - cbn. rewrite Hfunc. reflexivity.
          - cbn. rewrite Hfunc. cbn. apply Hnth. lia. }
        split.
        { rewrite Hfinal. cbn. rewrite Hfunc. reflexivity. }
        rewrite last_cons.
        destruct (last new) as [[v|e|]|] eqn:Hlastnew.
        -- exact Hlast.
        -- destruct Hlast as [[Hp | Hfull] Hout]; split; auto.
           right. cbn. lia.
        -- exact Hlast.
        -- destruct Hlast as [-> Hout]. split; [|exact Hout].
           right. apply last_None in Hlastnew. subst new. reflexivity.
    + exists [Pending]. cbn [fst snd length last].
      repeat split; try done; try lia.
Qed.

(** C3. [_retry] makes at least one and at most five attempts; an attempt
    that fails with a permanent error is the last one; every attempt before
    the last failed with an error that is not permanent; and when the last
    attempt fails, which is so when its error is permanent or it was the
    fifth, the promise is rejected with that error. The wrapper [logged]
    only records the attempts: the outcome and the final state are those of
    the plain run. *)
Theorem _retry_attempts (s : S) :
  let run := _retry isPermanentRpcError methodName (logged func) (s, []) in
  let log := snd (fst run) in
  _retry isPermanentRpcError methodName func s = (fst (fst run), snd run)
  /\ 1 <= length log <= MAX_REQUEST_RETRIES
  /\ (forall i e, log !! i = Some (Rejected e) ->
        isPermanentRpcError e methodName = true -> Datatypes.S i = length log)
  /\ (forall i r, log !! i = Some r -> Datatypes.S i < length log ->
        exists e, r = Rejected e /\ isPermanentRpcError e methodName = false)
  /\ match last log with
     | Some (Rejected e) =>
         (isPermanentRpcError e methodName = true
          \/ length log = MAX_REQUEST_RETRIES)
         /\ snd run = Rejected (Some e)
     | Some (Resolved v) => snd run = Resolved v
     | Some Pending => snd run = Pending
     | None => False
     end.
Proof.
  intros run log. subst run log. unfold _retry.
  destruct (retry_loop_log MAX_REQUEST_RETRIES None s [])
    as (new & Hlog & Hlen & Hnonempty & Hearlier & Hnth & Hfinal & Hlast).
  rewrite Hlog. cbn [app].
  split; [apply retry_loop_logged_same|].
  assert (Hpos : 1 <= length new).
  { destruct new; [exfalso; apply Hnonempty; done | cbn; lia]. }
  split; [lia|].
  split.
  { intros i e Hi Hperm.
    pose proof (lookup_lt_Some _ _ _ Hi) as Hlt.
    destruct (decide (Datatypes.S i = length new)) as [|Hne]; [assumption|].
    destruct (Hearlier i _ Hi) as (e' & He' & Htransient); [lia|].
    inversion He'; subst. congruence. }
  split; [exact Hearlier|].
  destruct (last new) as [[v|e|]|] eqn:Hlastnew; try exact Hlast.
  apply last_None in Hlastnew. subst new. cbn in Hpos. lia.
Qed.

End RetryFacts.

(** Three attempts: two failures that may be retried (code 14), then a
    permanent one (code 3), which ends the loop at the third attempt. *)
Example retry_stops_at_permanent_error :
  _retry (fun (e : Z) (_ : string) => negb (e =? 14)%Z) "runQuery"
    (logged (fun calls : list Z =>
               (tail calls,
                match calls with
                | code :: _ => Rejected code
                | [] => Resolved tt
                end)))
    ([14; 14; 3; 14; 14]%Z, [])
  = (([14; 14]%Z, [Rejected 14%Z; Rejected 14%Z; Rejected 3%Z]), Rejected (Some 3%Z)).
Proof. vm_compute. reflexivity. Qed.

(** Five failures that may be retried: the fifth is the last attempt. *)
Example retry_gives_up_after_five :
  _retry (fun (e : Z) (_ : string) => negb (e =? 14)%Z) "runQuery"
    (logged (fun calls : list Z =>
               (tail calls,
                match calls with
                | code :: _ => Rejected code
                | [] => Resolved tt
                end)))
    ([14; 14; 14; 14; 14; 14; 14]%Z, [])
  = (([14; 14]%Z, replicate 5 (Rejected 14%Z)), Rejected (Some 14%Z)).
Proof. vm_compute. reflexivity. Qed.

(* ===================================================================== *)
(** ** Stream initialisation                                              *)
(* ===================================================================== *)

(** The two cases of the pipe: it is still there, or it was removed. *)
Ltac pipe_cases :=
  unfold pipe_data, pipe_end;
  repeat match goal with
         | |- context [piped ?s && passed_on ?c] => destruct (piped s && passed_on c)
         | |- context [if piped ?s then _ else _] => destruct (piped s)
         end.

Section StreamFacts.
Variable request : JsVal.

(** A settled promise stays as it is. *)
Lemma on_event_settled ev st :
  setup st <> Pending -> setup (on_event request ev st) = setup st.
Proof.
  intros Hsettled.
  destruct ev as [chunk|err| | | |[err|]]; cbn [on_event]; pipe_cases;
    unfold streamReady, streamEnded, streamFailed, resolve, reject, emit_error;
    try destruct (truthy request);
    destruct (streamInitialized st); cbn;
    destruct (setup st); congruence.
Qed.

Lemma run_events_settled events st :
  setup st <> Pending -> setup (run_events request events st) = setup st.
Proof.
  revert st. induction events as [|ev events IH]; intros st Hsettled; cbn.
  - reflexivity.
  - fold (run_events request events (on_event request ev st)).
    rewrite IH; rewrite on_event_settled; auto.
Qed.

(** An event without a listener changes nothing. *)
Lemma on_event_irrelevant ev st :
  relevant request ev = false -> on_event request ev st = st.
Proof.
  destruct ev; cbn; try discriminate. intros ->. reflexivity.
Qed.

(** The first event that has a listener settles the promise. *)
Lemma on_event_first ev st :
  setup st = Pending -> streamInitialized st = false ->
  relevant request ev = true ->
  setup (on_event request ev st) = verdict ev.
Proof.
  intros Hpending Hinit Hrelevant.
  destruct ev as [chunk|err| | | |[err|]]; cbn [on_event relevant verdict] in *;
    pipe_cases;
    unfold streamReady, streamEnded, streamFailed, resolve, reject;
    rewrite ?Hrelevant, ?Hinit; cbn; rewrite ?Hpending; reflexivity.
Qed.

Lemma run_events_first events st :
  setup st = Pending -> streamInitialized st = false ->
  setup (run_events request events st) =
    match List.find (relevant request) events with
    | Some ev => verdict ev
    | None => Pending
    end.
Proof.
  revert st. induction events as [|ev events IH]; intros st Hpending Hinit; cbn.
  - exact Hpending.
  - fold (run_events request events (on_event request ev st)).
    destruct (relevant request ev) eqn:Hrelevant.
    + rewrite run_events_settled; rewrite (on_event_first ev st) by assumption.
      * reflexivity.
      * destruct ev as [| | | | |[|]]; discriminate.
    + rewrite on_event_irrelevant by assumption. apply IH; assumption.
Qed.

Lemma initializeStream_first (events : list StreamEvent) :
  setup (_initializeStream request events) =
    match List.find (relevant request) events with
    | Some ev => verdict ev
    | None => Pending
    end.
Proof. apply run_events_first; reflexivity. Qed.

(** C4, as the code has it. The promise of [_initializeStream] is settled
    by the first event that has a listener: a chunk of data, the write
    callback without an error (when a request is written), or the end, the
    close or the finish of the stream resolve it; an error, from the stream
    or from the write, rejects it; it stays pending while nothing has
    happened. So it resolves only after one of the resolving events, and it
    rejects whenever an error comes before all of them. *)
Theorem initializeStream_setup (events : list StreamEvent) :
  setup (_initializeStream request events) =
    match List.find (relevant request) events with
    | Some ev => verdict ev
    | None => Pending
    end
  /\ (setup (_initializeStream request events) = Resolved tt ->
        exists before ev after,
          events = before ++ ev :: after
          /\ forallb (fun x => negb (relevant request x)) before = true
          /\ match ev with
             | OnData _ | OnEnd | OnClose | OnFinish => True
             | OnWritten None => truthy request = true
             | _ => False
             end)
  /\ (forall before err after,
        events = before ++ OnError err :: after ->
        forallb (fun x => negb (relevant request x)) before = true ->
        setup (_initializeStream request events) = Rejected err).
Proof.
  pose proof (initializeStream_first events) as Heq.
  split; [exact Heq|]. split.
  - rewrite Heq. clear Heq.
    induction events as [|ev events IH]; cbn; [discriminate|].
    destruct (relevant request ev) eqn:Hrelevant.
    + intros Hverdict. exists [], ev, events. cbn.
      repeat split.
      destruct ev as [| | | | |[|]]; cbn in *; try discriminate; auto.
    + intros Hrest. destruct (IH Hrest) as (before & ev' & after & -> & Hbefore & Hev).
      exists (ev :: before), ev', after. cbn. rewrite Hrelevant, Hbefore. auto.
  - intros before err after -> Hbefore. rewrite Heq. clear Heq.
    induction before as [|ev before IH]; cbn.
    + reflexivity.
    + cbn in Hbefore. apply andb_true_iff in Hbefore as [Hev Hbefore].
      apply negb_true_iff in Hev. rewrite Hev. apply IH, Hbefore.
Qed.

(** Once a chunk has arrived the flag is set, and it stays set. *)
Lemma on_event_initialized ev st :
  streamInitialized st = true -> streamInitialized (on_event request ev st) = true.
Proof.
  intros Hinit.
  destruct ev as [chunk|err| | | |[err|]]; cbn [on_event]; pipe_cases;
    unfold streamReady, streamEnded, streamFailed, resolve, reject, emit_error;
    try destruct (truthy request); rewrite ?Hinit; cbn; auto.
Qed.

Lemma run_events_initialized events st :
  streamInitialized st = true \/ existsb is_data events = true ->
  streamInitialized (run_events request events st) = true.
Proof.
  revert st. induction events as [|ev events IH]; intros st [Hinit | Hdata]; cbn.
  - exact Hinit.
  - discriminate Hdata.
  - fold (run_events request events (on_event request ev st)).
    apply IH. left. apply on_event_initialized, Hinit.
  - fold (run_events request events (on_event request ev st)).
    cbn in Hdata. apply orb_true_iff in Hdata as [Hev | Hrest].
    + apply IH. left. destruct ev; try discriminate. cbn [on_event]. pipe_cases;
        unfold streamReady; destruct (streamInitialized st) eqn:Hinit; cbn; auto.
    + apply IH. right. exact Hrest.
Qed.

(** Errors emitted on the result stream are not taken back. *)
Lemma on_event_errors ev st err :
  err ∈ errors (resultStream st) ->
  err ∈ errors (resultStream (on_event request ev st)).
Proof.
  intros Hin.
  destruct ev as [chunk|e| | | |[e|]]; cbn [on_event]; pipe_cases;
    unfold streamReady, streamEnded, streamFailed, resolve, reject, emit_error;
    try destruct (truthy request); destruct (streamInitialized st); cbn;
    try apply elem_of_app; auto.
Qed.

Lemma run_events_errors events st err :
  err ∈ errors (resultStream st) ->
  err ∈ errors (resultStream (run_events request events st)).
Proof.
  revert st. induction events as [|ev events IH]; intros st Hin; cbn.
  - exact Hin.
  - fold (run_events request events (on_event request ev st)).
    apply IH, on_event_errors, Hin.
Qed.

(** A stream that fails after it has delivered data: the promise has
    resolved, and the error is emitted on the stream handed to the
    caller. *)
Lemma initializeStream_fails_after_data events err :
  fails_after_data events err ->
  setup (_initializeStream request events) = Resolved tt
  /\ err ∈ errors (resultStream (_initializeStream request events)).
Proof.
  intros (before & after & -> & Hdata & Hclean). split.
  - rewrite initializeStream_first.
    induction before as [|ev before IH]; cbn in *; [discriminate|].
    apply orb_false_iff in Hclean as [Hev Hclean].
    destruct (relevant request ev) eqn:Hrelevant.
    + destruct ev as [| | | | |[|]]; cbn in *; try discriminate; reflexivity.
    + apply orb_true_iff in Hdata as [Hd | Hd].
      * destruct ev; discriminate.
      * apply IH; assumption.
  - unfold _initializeStream, run_events. rewrite fold_left_app. cbn.
    fold (run_events request before initial_setup).
    match goal with
    | |- context [fold_left ?f after ?st] =>
        change (fold_left f after st) with (run_events request after st)
    end.
    apply run_events_errors.
    unfold streamFailed.
    rewrite (run_events_initialized before initial_setup) by (right; exact Hdata).
    cbn. apply elem_of_app. right. apply list_elem_of_singleton. reflexivity.
Qed.

End StreamFacts.

(** C4 as stated does not hold: a stream that ends without a chunk of
    data, and without a request being written, resolves the promise; and an
    error that comes after the end does not reject it, though no data and
    no flushed request came before it. *)
Lemma initializeStream_resolves_on_end :
  setup (_initializeStream VUndefined [OnEnd]) = Resolved tt
  /\ existsb is_data [OnEnd] = false
  /\ streamInitialized (_initializeStream VUndefined [OnEnd]) = false
  /\ setup (_initializeStream VUndefined [OnFinish; OnError (RpcError 14 "unavailable")])
     = Resolved tt.
Proof. repeat split. Qed.

Example initializeStream_data_then_error :
  let st := _initializeStream VUndefined
              [OnData (VStr "first"); OnError (RpcError 14 "unavailable"); OnClose] in
  setup st = Resolved tt
  /\ resultStream st = {| chunks := [VStr "first"];
                          errors := [RpcError 14 "unavailable"];
                          ended := false |}.
Proof. split; reflexivity. Qed.

Example initializeStream_error_first :
  setup (_initializeStream VUndefined [OnError (RpcError 14 "unavailable"); OnClose])
  = Rejected (RpcError 14 "unavailable").
Proof. reflexivity. Qed.

Example initializeStream_flushed :
  setup (_initializeStream (obj []) [OnWritten None]) = Resolved tt
  /\ setup (_initializeStream VUndefined [OnWritten None]) = Pending.
Proof. split; reflexivity. Qed.

(* ===================================================================== *)
(** ** The request funnel                                                  *)
(* ===================================================================== *)

Section FunnelFacts.
Context `{Platform}.
Variable env : Env.
Variable isPermanentRpcError : Error -> string -> bool.

Lemma createCallOptions_carries fs methodName retryCodes callOptions :
  createCallOptions env fs methodName retryCodes = Return callOptions ->
  carries_resource_prefix fs methodName callOptions.
Proof.
  unfold createCallOptions, formattedName, projectId. unfold_m.
  destruct (is_undefined (_projectId fs)); [discriminate|].
  intros Heq. inversion Heq. subst callOptions. clear Heq.
  unfold carries_resource_prefix, spread2. cbn [headers].
  rewrite !lookup_union, lookup_insert_eq.
  destruct (own_props (opt_prop (get methodName (_settings fs)) "customHeaders")
              !! CLOUD_RESOURCE_HEADER) as [custom|];
    destruct (own_props (get "customHeaders" (_settings fs)) !! CLOUD_RESOURCE_HEADER)
      as [custom'|]; reflexivity.
Qed.

(** A unary request issues at most one call, with the options made for
    it. *)
Lemma request_issued fs methodName req retryCodes t t' p :
  request env fs methodName req retryCodes t = Return (t', p) ->
  exists callOptions,
    createCallOptions env fs methodName retryCodes = Return callOptions
    /\ (issued t' = issued t \/ issued t' = issued t ++ [(methodName, callOptions)]).
Proof.
  unfold request. unfold_m.
  destruct (createCallOptions env fs methodName retryCodes) as [callOptions|e];
    [|discriminate].
  intros Heq. exists callOptions. split; [reflexivity|].
  unfold ClientPool_run_on in Heq.
  destruct (terminated (_clientPool fs)); inversion Heq; subst; cbn; auto.
Qed.

Section StreamAttempts.
Variable fs : Firestore.
Variable methodName : string.
Variable req : JsVal.
Variable callOptions : CallOptions.
Variable bidirectional : bool.

Let attempt := stream_attempt fs methodName req callOptions bidirectional.
Let written := if bidirectional then req else VUndefined.

(** Attempts issue calls of the method with the options, and no others. *)
Lemma stream_attempts_issue k t call :
  call ∈ issued (state_before attempt t k) ->
  call ∈ issued t \/ call = (methodName, callOptions).
Proof.
  revert t. induction k as [|k IH]; intros t; cbn.
  - auto.
  - intros Hin. apply IH in Hin as [Hin | Heq]; [|auto].
    unfold attempt, stream_attempt in Hin.
    destruct (terminated (_clientPool fs)); cbn in Hin; [auto|].
    destruct (stream_replies t) as [|[e|events] rest]; cbn in Hin;
      apply elem_of_app in Hin as [Hin | Hin]; auto;
      apply list_elem_of_singleton in Hin; auto.
Qed.

Hypothesis pool_alive : terminated (_clientPool fs) = false.

Lemma stream_attempt_state t :
  fst (attempt t) =
    {| unary_replies := unary_replies t;
       stream_replies := tail (stream_replies t);
       issued := issued t ++ [(methodName, callOptions)] |}.
Proof using pool_alive.
  unfold attempt, stream_attempt. rewrite pool_alive. cbn.
  destruct (stream_replies t) as [|[e|events] rest]; reflexivity.
Qed.

(** After [k] attempts the transport has issued [k] calls and used up [k]
    replies of its script. *)
Lemma stream_attempts_state k t :
  state_before attempt t k =
    {| unary_replies := unary_replies t;
       stream_replies := drop k (stream_replies t);
       issued := issued t ++ replicate k (methodName, callOptions) |}.
Proof using pool_alive.
  revert t. induction k as [|k IH]; intros t; cbn [state_before].
  - cbn. rewrite app_nil_r, drop_0. destruct t; reflexivity.
  - rewrite IH, stream_attempt_state. cbn.
    rewrite <- app_assoc. cbn.
    destruct (stream_replies t); cbn; rewrite ?drop_nil; reflexivity.
Qed.

(** How the [i]-th attempt settles. *)
Lemma stream_attempt_result i t :
  snd (attempt (state_before attempt t i)) =
    match reply_at t i with
    | StreamThrows e => Rejected e
    | StreamOpens events =>
        match setup (_initializeStream written events) with
        | Resolved _ => Resolved (resultStream (_initializeStream written events))
        | Rejected e => Rejected e
        | Pending => Pending
        end
    end.
Proof using pool_alive.
  rewrite stream_attempts_state. unfold attempt, stream_attempt, reply_at.
  rewrite pool_alive. cbn.
  assert (Hhead : match drop i (stream_replies t) with
                  | reply :: _ => reply
                  | [] => StreamOpens []
                  end = nth i (stream_replies t) (StreamOpens [])).
  { generalize (stream_replies t) as l. induction i as [|i IH]; intros [|x l]; cbn; auto. }
  rewrite Hhead.
  destruct (nth i (stream_replies t) (StreamOpens [])); reflexivity.
Qed.

End StreamAttempts.

(** With the pool terminated no call is made, and the stream request never
    settles: nobody handles the rejection of [ClientPool.run]. *)
Lemma requestStream_terminated fs methodName req t callOptions :
  terminated (_clientPool fs) = true ->
  createCallOptions env fs methodName None = Return callOptions ->
  requestStream env isPermanentRpcError fs methodName req t = Return (t, Pending).
Proof.
  intros Hterminated Hopts. unfold requestStream. unfold_m.
  rewrite Hopts. unfold _retry, stream_attempt. cbn.
  rewrite Hterminated. reflexivity.
Qed.

(** C6, as the code has it. Every call that [request] or [requestStream]
    issues is a call of the method asked for whose options have the header
    [google-cloud-resource-prefix]; its value is the database root
    [projects/<projectId>/databases/(default)] of the client's project,
    unless the custom headers of the settings define a header of that
    name: then the value of that custom header is sent in its place, the
    one of the method's own custom headers before the one of the
    client's. *)
Theorem funnel_calls_carry_resource_prefix
        fs methodName req retryCodes (t : Transport) :
  (forall t' p,
      request env fs methodName req retryCodes t = Return (t', p) ->
      forall call, call ∈ issued t' ->
        call ∈ issued t
        \/ (fst call = methodName /\ carries_resource_prefix fs methodName (snd call)))
  /\ (forall t' p,
        requestStream env isPermanentRpcError fs methodName req t = Return (t', p) ->
        forall call, call ∈ issued t' ->
          call ∈ issued t
          \/ (fst call = methodName /\ carries_resource_prefix fs methodName (snd call))).
Proof.
  split.
  - intros t' p Hreq call Hin.
    destruct (request_issued _ _ _ _ _ _ _ Hreq) as (callOptions & Hopts & [Hsame | Hone]).
    + left. rewrite <- Hsame. exact Hin.
    + rewrite Hone in Hin. apply elem_of_app in Hin as [Hin | Hin]; [auto|].
      apply list_elem_of_singleton in Hin. subst call. right. cbn.
      split; [reflexivity|]. eapply createCallOptions_carries, Hopts.
  - intros t' p. unfold requestStream. unfold_m.
    destruct (createCallOptions env fs methodName None) as [callOptions|e] eqn:Hopts;
      [|discriminate].
    intros Heq call Hin. inversion Heq as [Hrun]. clear Heq.
    unfold _retry in Hrun.
    rewrite (retry_loop_logged_same isPermanentRpcError methodName _ _ _ _ []) in Hrun.
    destruct (retry_loop_log isPermanentRpcError methodName
                (stream_attempt fs methodName req callOptions
                   (String.eqb methodName "listen"))
                MAX_REQUEST_RETRIES None t [])
      as (new & _ & _ & _ & _ & _ & Hfinal & _).
    rewrite Hfinal in Hrun. inversion Hrun. subst t'.
    apply stream_attempts_issue in Hin as [Hin | ->]; [auto|].
    right. cbn. split; [reflexivity|]. eapply createCallOptions_carries, Hopts.
Qed.

End FunnelFacts.

Section StreamRetryFacts.
Context `{Platform}.
Variable env : Env.
Variable isPermanentRpcError : Error -> string -> bool.

(** C2, as the code has it. [requestStream] makes between one and five
    calls. For each of them that opens a stream: if the stream fails before
    anything else happens on it (no data, no flushed request, and no end,
    close or finish), the setup promise rejects, and the call is followed by
    another one if the error is not permanent and it was not the fifth,
    while otherwise the request is rejected with that error; if the stream
    fails after it has delivered data, that call is the last one, the
    request resolves with its stream, and the error is emitted on that
    stream. *)
Theorem requestStream_failures fs methodName req (t t' : Transport)
        (out : Promise ResultStream (option Error)) :
  terminated (_clientPool fs) = false ->
  requestStream env isPermanentRpcError fs methodName req t = Return (t', out) ->
  exists k callOptions,
    1 <= k <= MAX_REQUEST_RETRIES
    /\ issued t' = issued t ++ replicate k (methodName, callOptions)
    /\ forall i events,
        i < k -> reply_at t i = StreamOpens events ->
        (forall err,
            fails_first (if String.eqb methodName "listen" then req else VUndefined)
                        events err ->
            setup (_initializeStream
                     (if String.eqb methodName "listen" then req else VUndefined)
                     events) = Rejected err
            /\ (isPermanentRpcError err methodName = false ->
                i + 1 < MAX_REQUEST_RETRIES -> i + 1 < k)
            /\ (isPermanentRpcError err methodName = true
                \/ i + 1 = MAX_REQUEST_RETRIES ->
                i + 1 = k /\ out = Rejected (Some err)))
        /\ (forall err,
              fails_after_data events err ->
              i + 1 = k
              /\ out = Resolved
                         (resultStream
                            (_initializeStream
                               (if String.eqb methodName "listen" then req
                                else VUndefined) events))
              /\ err ∈ errors
                         (resultStream
                            (_initializeStream
                               (if String.eqb methodName "listen" then req
                                else VUndefined) events))).
Proof.
  intros Halive. unfold requestStream. unfold_m.
  destruct (createCallOptions env fs methodName None) as [callOptions|e0];
    [|discriminate].
  set (written := if String.eqb methodName "listen" then req else VUndefined).
  set (attempt := stream_attempt fs methodName req callOptions
                    (String.eqb methodName "listen")).
  intros Heq. inversion Heq as [Hrun]. clear Heq.
  unfold _retry in Hrun.
  rewrite (retry_loop_logged_same isPermanentRpcError methodName _ _ _ _ []) in Hrun.
  destruct (retry_loop_log isPermanentRpcError methodName attempt
              MAX_REQUEST_RETRIES None t [])
    as (new & _ & Hlen & Hnonempty & Hearlier & Hnth & Hfinal & Hlast).
  assert (Ht' : t' = fst (fst (retry_loop isPermanentRpcError methodName
                                 (logged attempt) MAX_REQUEST_RETRIES None (t, []))))
    by (apply (f_equal fst) in Hrun; symmetry; exact Hrun).
  assert (Hout : out = snd (retry_loop isPermanentRpcError methodName
                              (logged attempt) MAX_REQUEST_RETRIES None (t, [])))
    by (apply (f_equal snd) in Hrun; symmetry; exact Hrun).
  clear Hrun. subst t' out.
  rewrite Hfinal.
  assert (Hpos : 1 <= length new).
  { destruct new; [exfalso; apply Hnonempty; done | cbn; lia]. }
  exists (length new), callOptions.
  split; [lia|].
  split.
  { unfold attempt. rewrite stream_attempts_state by exact Halive. reflexivity. }
  intros i events Hi Hreply.
  assert (Hith : new !! i =
                 Some (match setup (_initializeStream written events) with
                       | Resolved _ =>
                           Resolved (resultStream (_initializeStream written events))
                       | Rejected e => Rejected e
                       | Pending => Pending
                       end)).
  { rewrite (Hnth i Hi). unfold attempt.
    rewrite stream_attempt_result by exact Halive. rewrite Hreply. reflexivity. }
  assert (Hlastlookup : Datatypes.S i = length new -> last new = new !! i).
  { intros Hk. rewrite last_lookup. f_equal. lia. }
  split.
  - intros err (ev & Hfind & Hfailure & Hverdict).
    assert (Hsetup : setup (_initializeStream written events) = Rejected err).
    { rewrite initializeStream_first, Hfind. exact Hverdict. }
    split; [exact Hsetup|].
    rewrite Hsetup in Hith.
    split.
    + intros Htransient Hroom.
      destruct (decide (Datatypes.S i = length new)) as [Hk|Hk]; [|lia].
      rewrite (Hlastlookup Hk), Hith in Hlast.
      destruct Hlast as [[Hperm | Hfull] _]; [congruence|].
      unfold MAX_REQUEST_RETRIES in *. lia.
    + intros Hstop.
      assert (Hk : Datatypes.S i = length new).
      { destruct (decide (Datatypes.S i = length new)) as [Hk|Hk]; [exact Hk|].
        destruct (Hearlier i _ Hith) as (e' & He' & Htransient); [lia|].
        inversion He'; subst e'.
        destruct Hstop as [Hperm | Hfifth]; [congruence|].
        unfold MAX_REQUEST_RETRIES in *. lia. }
      split; [lia|].
      rewrite (Hlastlookup Hk), Hith in Hlast.
      destruct Hlast as [_ Hrejected]. exact Hrejected.
  - intros err Hfails.
    destruct (initializeStream_fails_after_data written events err Hfails)
      as [Hsetup Herr].
    rewrite Hsetup in Hith.
    assert (Hk : Datatypes.S i = length new).
    { destruct (decide (Datatypes.S i = length new)) as [Hk|Hk]; [exact Hk|].
      destruct (Hearlier i _ Hith) as (e' & He' & _); [lia|]. discriminate He'. }
    split; [lia|].
    split; [|exact Herr].
    rewrite (Hlastlookup Hk), Hith in Hlast.
    exact Hlast.
Qed.

End StreamRetryFacts.

(* ===================================================================== *)
(** ** The funnel at work                                                 *)
(* ===================================================================== *)

Example flaky_run_result :
  snd flaky_run = Resolved {| chunks := [VStr "first"];
                              errors := [unavailable];
                              ended := false |}
  /\ length (issued (fst flaky_run)) = 2
  /\ stream_replies (fst flaky_run) = [].
Proof. vm_compute. repeat split. Qed.

(** The flaky backend: the first call fails before anything else and is
    retried, the second fails after data and is the last. *)
Lemma requestStream_failures_witness :
  exists k callOptions,
    1 <= k <= MAX_REQUEST_RETRIES
    /\ issued (fst flaky_run)
       = issued flaky_transport ++ replicate k ("runQuery", callOptions)
    /\ forall i events,
        i < k -> reply_at flaky_transport i = StreamOpens events ->
        (forall err,
            fails_first (if String.eqb "runQuery" "listen" then obj [] else VUndefined)
                        events err ->
            setup (_initializeStream
                     (if String.eqb "runQuery" "listen" then obj [] else VUndefined)
                     events) = Rejected err
            /\ (example_isPermanent err "runQuery" = false ->
                i + 1 < MAX_REQUEST_RETRIES -> i + 1 < k)
            /\ (example_isPermanent err "runQuery" = true
                \/ i + 1 = MAX_REQUEST_RETRIES ->
                i + 1 = k /\ snd flaky_run = Rejected (Some err)))
        /\ (forall err,
              fails_after_data events err ->
              i + 1 = k
              /\ snd flaky_run
                 = Resolved
                     (resultStream
                        (_initializeStream
                           (if String.eqb "runQuery" "listen" then obj []
                            else VUndefined) events))
              /\ err ∈ errors
                         (resultStream
                            (_initializeStream
                               (if String.eqb "runQuery" "listen" then obj []
                                else VUndefined) events))).
Proof.
  apply (@requestStream_failures example_platform no_env example_isPermanent
           example_client "runQuery" (obj []) flaky_transport
           (fst flaky_run) (snd flaky_run)).
  - reflexivity.
  - vm_compute. reflexivity.
Defined.

(** C2 as stated does not hold: the stream of the first call finishes and
    then fails, before any data and with no request written, with an error
    that may be retried. The setup promise has resolved by then: the
    request resolves with that stream after one call, is not retried, and
    the error does not reach the caller. *)
Lemma requestStream_error_after_finish :
  @requestStream example_platform no_env example_isPermanent
    example_client "runQuery" (obj []) finished_transport
  = Return ({| unary_replies := [];
               stream_replies := [StreamOpens [OnData (VStr "first"); OnEnd]];
               issued := issued (fst (returned
                           (@requestStream example_platform no_env example_isPermanent
                              example_client "runQuery" (obj []) finished_transport)
                           (finished_transport, Pending))) |},
            Resolved {| chunks := []; errors := []; ended := false |})
  /\ length (issued (fst (returned
                (@requestStream example_platform no_env example_isPermanent
                   example_client "runQuery" (obj []) finished_transport)
                (finished_transport, Pending)))) = 1
  /\ existsb is_data [OnFinish; OnError unavailable; OnClose] = false
  /\ example_isPermanent unavailable "runQuery" = false.
Proof. vm_compute. repeat split. Qed.

Example commit_run_result :
  snd commit_run = Resolved (obj [])
  /\ (fun call => (fst call, headers (snd call) !! CLOUD_RESOURCE_HEADER))
       <$> issued (fst commit_run)
     = [("commit", Some (VStr "projects/p/databases/(default)"))].
Proof. vm_compute. repeat split. Qed.

(** The unary call of the example client carries the header. *)
Lemma funnel_calls_carry_resource_prefix_witness :
  nth 0 (issued (fst commit_run)) ("", {| headers := ∅; retry := None |})
    ∈ issued flaky_transport
  \/ (fst (nth 0 (issued (fst commit_run)) ("", {| headers := ∅; retry := None |}))
      = "commit"
      /\ @carries_resource_prefix example_platform example_client "commit"
           (snd (nth 0 (issued (fst commit_run))
                     ("", {| headers := ∅; retry := None |})))).
Proof.
  apply (proj1 (@funnel_calls_carry_resource_prefix example_platform no_env
                  example_isPermanent example_client "commit" (obj []) None
                  flaky_transport)
               (fst commit_run) (snd commit_run)).
  - vm_compute. reflexivity.
  - vm_compute. constructor.
Defined.

(** C6 as stated does not hold: with a custom header of that name in the
    settings, the call carries the custom value and not the database
    root. *)
Lemma custom_header_replaces_resource_prefix :
  @formattedName example_platform example_client_custom
    = Return "projects/p/databases/(default)"
  /\ exists t' p,
      @request example_platform no_env example_client_custom "commit" (obj [])
        None flaky_transport = Return (t', p)
      /\ (fun call => headers (snd call) !! CLOUD_RESOURCE_HEADER) <$> issued t'
         = [Some (VStr "elsewhere")].
Proof.
  split; [vm_compute; reflexivity|].
  eexists _, _. split; [vm_compute; reflexivity|].
  vm_compute. reflexivity.
Qed.

(* ===================================================================== *)
(** ** Initialisation                                                     *)
(* ===================================================================== *)

(** The custom headers after the initialisation of a client that talks
    without SSL: the stored ones, with [Authorization] added below them. *)
Lemma initializeIfNeeded_settings detected fs :
  _settings (fst (initializeIfNeeded detected fs)) =
    if is_false (get "ssl" (_settings fs)) then
      <["customHeaders" :=
          VObj (own_props (get "customHeaders" (_settings fs))
                  ∪ <["Authorization" := VStr "Bearer owner"]> ∅)]> (_settings fs)
    else _settings fs.
Proof.
  unfold initializeIfNeeded, ClientPool_run, spread2. cbn.
  destruct (is_false (get "ssl" (_settings fs))); cbn;
    destruct (is_undefined (_projectId fs)); cbn;
    try destruct (terminated (_clientPool fs)); cbn;
    try destruct detected; reflexivity.
Qed.

Lemma initializeIfNeeded_resolved detected fs :
  snd (initializeIfNeeded detected fs) = Resolved tt ->
  _projectId (fst (initializeIfNeeded detected fs)) <> VUndefined.
Proof.
  unfold initializeIfNeeded, ClientPool_run.
  cbn [_projectId set_settingsFrozen set_settings _clientPool].
  assert (Hsame : forall m b, _projectId (set_settings m (set_settingsFrozen b fs))
                              = _projectId fs) by reflexivity.
  destruct (is_false (get "ssl" (_settings (set_settingsFrozen true fs))));
    cbn [_projectId set_settingsFrozen set_settings _clientPool];
    (destruct (is_undefined (_projectId fs)) eqn:Hundefined;
     [ destruct (terminated (_clientPool fs));
       [ intros Hp; discriminate Hp
       | destruct detected; cbn; intros Hp; try discriminate Hp; discriminate ]
     | intros _; cbn; destruct (_projectId fs); cbn in *; congruence ]).
Qed.

(** X1. Initialisation is idempotent: once it has resolved, running it again
    resolves at once, whatever the detection of the project would now
    answer, and leaves the client exactly as it is. *)
Theorem initializeIfNeeded_idempotent detected again fs :
  snd (initializeIfNeeded detected fs) = Resolved tt ->
  initializeIfNeeded again (fst (initializeIfNeeded detected fs))
    = (fst (initializeIfNeeded detected fs), Resolved tt).
Proof.
  intros Hresolved.
  pose proof (initializeIfNeeded_resolved detected fs Hresolved) as Hid.
  pose proof (initializeIfNeeded_settings detected fs) as Hsettings.
  pose proof (initializeIfNeeded_freezes detected fs) as Hfrozen.
  destruct (initializeIfNeeded detected fs) as [fs1 p]. cbn in *.
  destruct fs1 as [pool stored frozen id listeners writers]. cbn in *. subst frozen.
  unfold initializeIfNeeded. cbn.
  assert (Hdefined : is_undefined id = false) by (destruct id; cbn; congruence).
  destruct (is_false (get "ssl" stored)) eqn:Hssl;
    cbn; rewrite Hdefined; [|reflexivity].
  f_equal. unfold set_settings. cbn. f_equal.
  destruct (is_false (get "ssl" (_settings fs))) eqn:Hssl0.
  - subst stored. unfold get at 1. rewrite lookup_insert_eq. cbn.
    rewrite insert_insert_eq. f_equal. f_equal. unfold spread2.
    rewrite <- (assoc_L (∪)).
    rewrite (idemp_L (∪) (<["Authorization" := VStr "Bearer owner"]> ∅)).
    reflexivity.
  - subst stored. congruence.
Qed.

Lemma initializeIfNeeded_idempotent_witness :
  initializeIfNeeded Pending (fst (initializeIfNeeded (Resolved "p") initial_fields))
    = (fst (initializeIfNeeded (Resolved "p") initial_fields), Resolved tt).
Proof.
  apply (initializeIfNeeded_idempotent (Resolved "p") Pending initial_fields).
  reflexivity.
Defined.

(* ===================================================================== *)
(** ** Applying settings                                                  *)
(* ===================================================================== *)

Section ApplyFacts.
Context `{Platform}.
Variable env : Env.

(** Everything a successful application of settings does. *)
Lemma validateAndApplySettings_success s fs fs' :
  validateAndApplySettings env s fs = (fs', Return tt) ->
  exists stored,
    fs' = set_settings stored
            (if is_undefined (get "projectId" s) then fs
             else set_projectId (get "projectId" s) fs)
    /\ (is_undefined (get "projectId" s) = false ->
        exists p, get "projectId" s = VStr p)
    /\ stored_for env s stored
    /\ (get "ssl" stored = VUndefined \/ exists b, get "ssl" stored = VBool b)
    /\ (get "maxIdleChannels" stored = VUndefined
        \/ exists z, get "maxIdleChannels" stored = VNum (NumInt z) /\ (0 <= z)%Z).
Proof.
  unfold validateAndApplySettings, stored_for. unfold_m.
  assert (Hbool : forall v, validateBoolean "settings.ssl" v false = Return tt ->
                            exists b, v = VBool b).
  { intros v. destruct v; cbn; try discriminate. eauto. }
  assert (Hint : forall v,
             validateInteger "settings.maxIdleChannels" v false (Some 0%Z) = Return tt ->
             exists z, v = VNum (NumInt z) /\ (0 <= z)%Z).
  { intros v. destruct v as [| | |[z| |]| | | |]; cbn; try discriminate.
    destruct (z <? 0)%Z eqn:Hz; [discriminate|]. apply Z.ltb_ge in Hz. eauto. }
  assert (Hstring : forall v, validateString "settings.projectId" v false = Return tt ->
                              exists p, v = VStr p).
  { intros v. destruct v; cbn; try discriminate. eauto. }
  assert (Hundef : forall v, negb (is_undefined v) = false -> v = VUndefined).
  { intros v. destruct v; cbn; congruence. }
  destruct (negb (is_undefined (get "projectId" s))) eqn:Hpid.
  - apply negb_true_iff in Hpid. rewrite Hpid.
    destruct (validateString "settings.projectId" (get "projectId" s) false)
      as [[]|e0] eqn:Hvs; [|intros Heq; discriminate Heq].
    cbn beta iota.
    destruct (emulator_host env) as [emulator|] eqn:Hemulator.
    + unfold validateHost, new_URL.
      assert (Hhost : get "host" (<["ssl" := VBool false]>
                                    (<["host" := VStr emulator]> s)) = VStr emulator)
        by (unfold get; by simplify_map_eq).
      rewrite Hhost. cbn [to_string].
      destruct (validHost emulator); [|intros Heq; discriminate Heq].
      destruct (parseURL ("http://" +:+ emulator)) as [url|];
        [|intros Heq; discriminate Heq].
      cbn beta iota.
      set (stored := with_url url _).
      destruct (negb (is_undefined (get "ssl" stored))) eqn:Hssl;
        [destruct (validateBoolean _ _ _) as [[]|e2] eqn:Hvb;
         [|intros Heq; discriminate Heq]|];
        (destruct (negb (is_undefined (get "maxIdleChannels" stored))) eqn:Hmax;
         [destruct (validateInteger _ _ _ _) as [[]|e3] eqn:Hvi;
          [|intros Heq; discriminate Heq]|]);
        intros Heq; inversion Heq; subst fs'; exists stored;
        repeat split; eauto.
    + destruct (negb (is_undefined (get "host" s))) eqn:Hhostdef.
      * unfold validateHost, new_URL.
        destruct (get "host" s) as [| | | |h| | |] eqn:Hh;
          try (intros Heq; discriminate Heq).
        cbn [to_string].
        destruct (validHost h) eqn:Hvalid; [|intros Heq; discriminate Heq].
        destruct (parseURL ("http://" +:+ h)) as [url|] eqn:Hurl;
          [|intros Heq; discriminate Heq].
        cbn beta iota.
        set (stored := with_url url s).
        destruct (negb (is_undefined (get "ssl" stored))) eqn:Hssl;
          [destruct (validateBoolean _ _ _) as [[]|e2] eqn:Hvb;
           [|intros Heq; discriminate Heq]|];
          (destruct (negb (is_undefined (get "maxIdleChannels" stored))) eqn:Hmax;
           [destruct (validateInteger _ _ _ _) as [[]|e3] eqn:Hvi;
            [|intros Heq; discriminate Heq]|]);
          intros Heq; inversion Heq; subst fs'; exists stored;
          repeat split; eauto 10.
      * cbn beta iota.
        destruct (negb (is_undefined (get "ssl" s))) eqn:Hssl;
          [destruct (validateBoolean _ _ _) as [[]|e2] eqn:Hvb;
           [|intros Heq; discriminate Heq]|];
          (destruct (negb (is_undefined (get "maxIdleChannels" s))) eqn:Hmax;
           [destruct (validateInteger _ _ _ _) as [[]|e3] eqn:Hvi;
            [|intros Heq; discriminate Heq]|]);
          intros Heq; inversion Heq; subst fs'; exists s;
          repeat split; eauto 10.
  - apply negb_false_iff in Hpid. rewrite Hpid.
    cbn beta iota.
    destruct (emulator_host env) as [emulator|] eqn:Hemulator.
    + unfold validateHost, new_URL.
      assert (Hhost : get "host" (<["ssl" := VBool false]>
                                    (<["host" := VStr emulator]> s)) = VStr emulator)
        by (unfold get; by simplify_map_eq).
      rewrite Hhost. cbn [to_string].
      destruct (validHost emulator); [|intros Heq; discriminate Heq].
      destruct (parseURL ("http://" +:+ emulator)) as [url|];
        [|intros Heq; discriminate Heq].
      cbn beta iota.
      set (stored := with_url url _).
      destruct (negb (is_undefined (get "ssl" stored))) eqn:Hssl;
        [destruct (validateBoolean _ _ _) as [[]|e2] eqn:Hvb;
         [|intros Heq; discriminate Heq]|];
        (destruct (negb (is_undefined (get "maxIdleChannels" stored))) eqn:Hmax;
         [destruct (validateInteger _ _ _ _) as [[]|e3] eqn:Hvi;
          [|intros Heq; discriminate Heq]|]);
        intros Heq; inversion Heq; subst fs'; exists stored;
        repeat split; eauto; discriminate.
    + destruct (negb (is_undefined (get "host" s))) eqn:Hhostdef.
      * unfold validateHost, new_URL.
        destruct (get "host" s) as [| | | |h| | |] eqn:Hh;
          try (intros Heq; discriminate Heq).
        cbn [to_string].
        destruct (validHost h) eqn:Hvalid; [|intros Heq; discriminate Heq].
        destruct (parseURL ("http://" +:+ h)) as [url|] eqn:Hurl;
          [|intros Heq; discriminate Heq].
        cbn beta iota.
        set (stored := with_url url s).
        destruct (negb (is_undefined (get "ssl" stored))) eqn:Hssl;
          [destruct (validateBoolean _ _ _) as [[]|e2] eqn:Hvb;
           [|intros Heq; discriminate Heq]|];
          (destruct (negb (is_undefined (get "maxIdleChannels" stored))) eqn:Hmax;
           [destruct (validateInteger _ _ _ _) as [[]|e3] eqn:Hvi;
            [|intros Heq; discriminate Heq]|]);
          intros Heq; inversion Heq; subst fs'; exists stored;
          repeat split; eauto 10; discriminate.
      * cbn beta iota.
        destruct (negb (is_undefined (get "ssl" s))) eqn:Hssl;
          [destruct (validateBoolean _ _ _) as [[]|e2] eqn:Hvb;
           [|intros Heq; discriminate Heq]|];
          (destruct (negb (is_undefined (get "maxIdleChannels" s))) eqn:Hmax;
           [destruct (validateInteger _ _ _ _) as [[]|e3] eqn:Hvi;
            [|intros Heq; discriminate Heq]|]);
          intros Heq; inversion Heq; subst fs'; exists s;
          repeat split; eauto 10; discriminate.
Qed.

(** An application of settings that throws has stored nothing: the client
    is as it was, but for the project id, which is assigned before the
    other checks are made. *)
Lemma validateAndApplySettings_thrown s fs fs' e :
  validateAndApplySettings env s fs = (fs', Throw e) ->
  fs' = fs \/ fs' = set_projectId (get "projectId" s) fs.
Proof.
  unfold validateAndApplySettings. unfold_m.
  destruct (negb (is_undefined (get "projectId" s)));
    [destruct (validateString "settings.projectId" (get "projectId" s) false)
       as [[]|e0]; [|intros Heq; inversion Heq; auto]|];
    cbn beta iota;
    (destruct (emulator_host env) as [emulator|];
     [ unfold validateHost, new_URL;
       destruct (validHost emulator); [|intros Heq; inversion Heq; auto];
       match goal with
       | |- context [parseURL ?u] => destruct (parseURL u) as [url|]
       end; [|intros Heq; inversion Heq; auto]
     | destruct (negb (is_undefined (get "host" s)));
       [ unfold validateHost, new_URL;
         destruct (get "host" s) as [| | | |h| | |];
         try (intros Heq; inversion Heq; auto; fail);
         cbn [to_string];
         destruct (validHost h); [|intros Heq; inversion Heq; auto];
         destruct (parseURL ("http://" +:+ h)) as [url|];
         [|intros Heq; inversion Heq; auto]
       | ] ]);
    cbn beta iota;
    match goal with
    | |- context [validateBoolean "settings.ssl" (get "ssl" ?stored) false] =>
        (destruct (negb (is_undefined (get "ssl" stored)));
         [destruct (validateBoolean "settings.ssl" (get "ssl" stored) false)
            as [[]|e2]; [|intros Heq; inversion Heq; auto]|]);
        (destruct (negb (is_undefined (get "maxIdleChannels" stored)));
         [destruct (validateInteger "settings.maxIdleChannels"
                      (get "maxIdleChannels" stored) false (Some 0%Z))
            as [[]|e3]; [|intros Heq; inversion Heq; auto]|])
    end;
    intros Heq; discriminate Heq.
Qed.

End ApplyFacts.

Section SettingsMoreFacts.
Context `{Platform}.
Variable env : Env.

Lemma settings_success s fs fs' :
  settings env s fs = (fs', Return tt) ->
  _settingsFrozen fs = false
  /\ exists fs1,
       validateAndApplySettings env (own_props s ∪ _settings fs) fs = (fs1, Return tt)
       /\ fs' = set_settingsFrozen true fs1.
Proof.
  unfold settings. unfold_m.
  destruct (validateObject "settings" s) as [[]|e]; [|discriminate].
  destruct (validateString "settings.projectId" (prop s "projectId") true) as [[]|e];
    [|discriminate].
  cbn. destruct (_settingsFrozen fs); [discriminate|].
  unfold spread2.
  destruct (validateAndApplySettings env (own_props s ∪ _settings fs) fs)
    as [fs1 [[]|e]]; [|discriminate].
  intros Heq. inversion Heq. eauto.
Qed.

(** X2. Settings given to [settings()] are merged over the stored ones
    and take precedence: when no emulator is set and the merged settings
    name no host, every key the caller gives is stored with the caller's
    value and every other key keeps its stored value. *)
Theorem settings_merge_precedence (s : JsVal) (fs fs' : Firestore) :
  emulator_host env = None ->
  get "host" (own_props s ∪ _settings fs) = VUndefined ->
  settings env s fs = (fs', Return tt) ->
  _settings fs' = own_props s ∪ _settings fs
  /\ forall k, get k (_settings fs') =
                 match own_props s !! k with
                 | Some v => v
                 | None => get k (_settings fs)
                 end.
Proof.
  intros Hemulator Hhost Hset.
  destruct (settings_success s fs fs' Hset) as (_ & fs1 & Happlied & ->).
  destruct (validateAndApplySettings_success env _ _ _ Happlied)
    as (stored & -> & _ & Hstored & _).
  unfold stored_for in Hstored. rewrite Hemulator in Hstored.
  destruct Hstored as [[_ ->] | (h & url & Hh & _)]; [|congruence].
  cbn. split; [reflexivity|].
  intros k. unfold get. rewrite lookup_union.
  destruct (own_props s !! k); destruct (_settings fs !! k); reflexivity.
Qed.

(** X3. A call of [settings()] that throws stores nothing and freezes
    nothing: the stored settings, the frozen flag, the pool and the two
    counters are as before, so the call can be made again with corrected
    settings. *)
Theorem settings_thrown_stores_nothing (s : JsVal) (fs fs' : Firestore) (e : Error) :
  settings env s fs = (fs', Throw e) ->
  _settings fs' = _settings fs
  /\ _settingsFrozen fs' = _settingsFrozen fs
  /\ _clientPool fs' = _clientPool fs
  /\ same_counters fs' fs.
Proof.
  unfold settings. unfold_m.
  destruct (validateObject "settings" s) as [[]|e1];
    [|intros Heq; inversion Heq; repeat split; reflexivity].
  destruct (validateString "settings.projectId" (prop s "projectId") true) as [[]|e1];
    [|intros Heq; inversion Heq; repeat split; reflexivity].
  cbn. destruct (_settingsFrozen fs) eqn:Hfrozen;
    [intros Heq; inversion Heq; subst; repeat split; auto|].
  destruct (validateAndApplySettings env (spread2 (_settings fs) (own_props s)) fs)
    as [fs1 [[]|e1]] eqn:Happlied; [discriminate|].
  intros Heq. inversion Heq. subst fs1 e1.
  destruct (validateAndApplySettings_thrown env _ _ _ _ Happlied) as [-> | ->];
    repeat split; auto.
Qed.

End SettingsMoreFacts.

Lemma settings_merge_precedence_witness :
  _settings (fst (@settings example_platform no_env
                    (obj [("projectId", VStr "q"); ("maxIdleChannels", VNum (NumInt 0))])
                    (returned (@new_Firestore example_platform no_env
                                 (obj [("projectId", VStr "p"); ("ssl", VBool true)]))
                              initial_fields)))
  = own_props (obj [("projectId", VStr "q"); ("maxIdleChannels", VNum (NumInt 0))])
      ∪ _settings (returned (@new_Firestore example_platform no_env
                               (obj [("projectId", VStr "p"); ("ssl", VBool true)]))
                            initial_fields)
  /\ forall k,
      get k (_settings (fst (@settings example_platform no_env
                    (obj [("projectId", VStr "q"); ("maxIdleChannels", VNum (NumInt 0))])
                    (returned (@new_Firestore example_platform no_env
                                 (obj [("projectId", VStr "p"); ("ssl", VBool true)]))
                              initial_fields))))
      = match own_props (obj [("projectId", VStr "q");
                              ("maxIdleChannels", VNum (NumInt 0))]) !! k with
        | Some v => v
        | None =>
            get k (_settings (returned (@new_Firestore example_platform no_env
                                 (obj [("projectId", VStr "p"); ("ssl", VBool true)]))
                              initial_fields))
        end.
Proof.
  apply (@settings_merge_precedence example_platform no_env).
  - reflexivity.
  - vm_compute. reflexivity.
  - vm_compute. reflexivity.
Defined.

Lemma settings_thrown_stores_nothing_witness :
  _settings (fst (@settings example_platform no_env
                    (obj [("projectId", VStr "q"); ("maxIdleChannels", VNum (NumInt (-1)))])
                    initial_fields))
  = _settings initial_fields
  /\ _settingsFrozen (fst (@settings example_platform no_env
                    (obj [("projectId", VStr "q"); ("maxIdleChannels", VNum (NumInt (-1)))])
                    initial_fields))
     = _settingsFrozen initial_fields
  /\ _clientPool (fst (@settings example_platform no_env
                    (obj [("projectId", VStr "q"); ("maxIdleChannels", VNum (NumInt (-1)))])
                    initial_fields))
     = _clientPool initial_fields
  /\ same_counters (fst (@settings example_platform no_env
                    (obj [("projectId", VStr "q"); ("maxIdleChannels", VNum (NumInt (-1)))])
                    initial_fields))
                   initial_fields.
Proof.
  apply (@settings_thrown_stores_nothing example_platform no_env
           (obj [("projectId", VStr "q"); ("maxIdleChannels", VNum (NumInt (-1)))])
           initial_fields _
           (InvalidArgument "settings.maxIdleChannels" "integer in range")).
  vm_compute. reflexivity.
Defined.

(** The project id is the exception: it is assigned before the other
    settings are checked. *)
Example settings_thrown_keeps_projectId :
  _projectId (fst (@settings example_platform no_env
                     (obj [("projectId", VStr "q"); ("maxIdleChannels", VNum (NumInt (-1)))])
                     initial_fields))
  = VStr "q".
Proof. vm_compute. reflexivity. Qed.

Section StoredHostFacts.
Context `{Platform}.
Variable env : Env.

Lemma stored_for_no_host s stored :
  stored_for env s stored -> get "host" stored = VUndefined.
Proof.
  unfold stored_for.
  destruct (emulator_host env) as [emulator|].
  - intros (_ & url & _ & ->). apply with_url_host.
  - intros [[Hhost ->] | (h & url & _ & _ & _ & ->)];
      [exact Hhost | apply with_url_host].
Qed.

Lemma validateAndApplySettings_no_host s fs :
  get "host" (_settings fs) = VUndefined ->
  get "host" (_settings (fst (validateAndApplySettings env s fs))) = VUndefined.
Proof.
  intros Hhost.
  destruct (validateAndApplySettings env s fs) as [fs' [[]|e]] eqn:Happlied; cbn.
  - destruct (validateAndApplySettings_success env _ _ _ Happlied)
      as (stored & -> & _ & Hstored & _).
    cbn. eapply stored_for_no_host, Hstored.
  - destruct (validateAndApplySettings_thrown env _ _ _ _ Happlied) as [-> | ->];
      exact Hhost.
Qed.

Lemma settings_no_host s fs :
  get "host" (_settings fs) = VUndefined ->
  get "host" (_settings (fst (settings env s fs))) = VUndefined.
Proof.
  intros Hhost. unfold settings. unfold_m.
  destruct (validateObject "settings" s) as [[]|e]; [|exact Hhost].
  destruct (validateString "settings.projectId" (prop s "projectId") true) as [[]|e];
    [|exact Hhost].
  cbn. destruct (_settingsFrozen fs); [exact Hhost|].
  pose proof (validateAndApplySettings_no_host
                (spread2 (_settings fs) (own_props s)) fs Hhost) as Hno.
  destruct (validateAndApplySettings env _ fs) as [fs1 [[]|e]]; exact Hno.
Qed.

Lemma initializeIfNeeded_no_host detected fs :
  get "host" (_settings fs) = VUndefined ->
  get "host" (_settings (fst (initializeIfNeeded detected fs))) = VUndefined.
Proof.
  intros Hhost. rewrite initializeIfNeeded_settings.
  destruct (is_false (get "ssl" (_settings fs))); [|exact Hhost].
  unfold get in *. rewrite lookup_insert_ne by done. exact Hhost.
Qed.

Lemma runTransaction_no_host detected f o fs :
  get "host" (_settings fs) = VUndefined ->
  get "host" (_settings (fst (runTransaction detected f o fs))) = VUndefined.
Proof.
  intros Hhost. unfold runTransaction. unfold_m.
  destruct (validateFunction _ _) as [[]|e]; [|exact Hhost].
  match goal with
  | |- context [match ?c with Return _ => _ | Throw _ => _ end] =>
      destruct c as [options|e]
  end; [|exact Hhost].
  pose proof (initializeIfNeeded_no_host detected fs Hhost) as Hinit.
  destruct (initializeIfNeeded detected fs) as [fs1 p]. exact Hinit.
Qed.

Lemma exec_no_host c fs :
  get "host" (_settings fs) = VUndefined ->
  get "host" (_settings (exec env c fs)) = VUndefined.
Proof.
  intros Hhost. destruct c as [s|detected|detected f o| | | | |]; cbn [exec].
  - apply settings_no_host, Hhost.
  - apply initializeIfNeeded_no_host, Hhost.
  - apply runTransaction_no_host, Hhost.
  - exact Hhost.
  - exact Hhost.
  - exact Hhost.
  - exact Hhost.
  - unfold terminate. destruct (_ || _); [exact Hhost|].
    destruct (ClientPool_terminate _). exact Hhost.
Qed.

(** X4. The stored settings never name a [host]: a client comes out of
    its constructor without one, whether a host was given in the settings
    or by the emulator variable, and stays so through every later call,
    [settings()] with a host included. The host lives on in
    [servicePath]. *)
Theorem stored_settings_never_name_host (s : JsVal) (fs : Firestore)
        (calls : list Call) :
  new_Firestore env s = Return fs ->
  get "host" (_settings (exec_all env calls fs)) = VUndefined.
Proof.
  intros Hnew.
  assert (Hhost : get "host" (_settings fs) = VUndefined).
  { revert Hnew. unfold new_Firestore.
    match goal with
    | |- context [validateAndApplySettings env ?m initial_fields] =>
        destruct (validateAndApplySettings env m initial_fields)
          as [fs1 [[]|e]] eqn:Happlied
    end; [|discriminate].
    intros Heq. inversion Heq. cbn [_settings set_clientPool].
    destruct (validateAndApplySettings_success env _ _ _ Happlied)
      as (stored & -> & _ & Hstored & _).
    cbn. eapply stored_for_no_host, Hstored. }
  clear Hnew. revert fs Hhost.
  induction calls as [|c calls IH]; intros fs Hhost; cbn.
  - exact Hhost.
  - apply IH, exec_no_host, Hhost.
Qed.

(** X5. Without the emulator variable, a [host] in the settings is split:
    its host name is stored as [servicePath], its port as [port] unless the
    settings have a [port] of their own, and, other than with the emulator,
    [ssl] is stored as the caller gave it. *)
Theorem host_setting_is_split (s : gmap string JsVal) (fs fs' : Firestore)
        (h : string) :
  emulator_host env = None ->
  get "host" s = VStr h ->
  validateAndApplySettings env s fs = (fs', Return tt) ->
  exists url,
    parseURL ("http://" +:+ h) = Some url
    /\ get "servicePath" (_settings fs') = VStr (hostname url)
    /\ get "port" (_settings fs') =
         (if negb (String.eqb (port url) "") && is_undefined (get "port" s)
          then VNum (Number (port url))
          else get "port" s)
    /\ get "ssl" (_settings fs') = get "ssl" s
    /\ get "apiEndpoint" (_settings fs') = VUndefined.
Proof.
  intros Hemulator Hh Happlied.
  destruct (validateAndApplySettings_success env _ _ _ Happlied)
    as (stored & -> & _ & Hstored & _).
  unfold stored_for in Hstored. rewrite Hemulator in Hstored.
  destruct Hstored as [[Hnone _] | (h' & url & Hh' & _ & Hurl & ->)]; [congruence|].
  assert (h' = h) as -> by congruence.
  exists url. cbn [_settings set_settings].
  rewrite with_url_servicePath, with_url_port, (with_url_other "ssl") by done.
  repeat split; auto.
  unfold with_url, get.
  destruct (negb _ && _); by simplify_map_eq.
Qed.

End StoredHostFacts.

Lemma host_setting_is_split_witness :
  exists url,
    example_parseURL ("http://" +:+ "firestore.example.com:8443") = Some url
    /\ get "servicePath"
         (_settings (fst (@validateAndApplySettings example_platform no_env
                            (list_to_map [("host", VStr "firestore.example.com:8443");
                                          ("ssl", VBool true)])
                            initial_fields)))
       = VStr (hostname url)
    /\ get "port"
         (_settings (fst (@validateAndApplySettings example_platform no_env
                            (list_to_map [("host", VStr "firestore.example.com:8443");
                                          ("ssl", VBool true)])
                            initial_fields)))
       = (if negb (String.eqb (port url) "")
             && is_undefined
                  (get "port" (list_to_map [("host", VStr "firestore.example.com:8443");
                                            ("ssl", VBool true)]))
          then VNum (Number (port url))
          else get "port" (list_to_map [("host", VStr "firestore.example.com:8443");
                                        ("ssl", VBool true)]))
    /\ get "ssl"
         (_settings (fst (@validateAndApplySettings example_platform no_env
                            (list_to_map [("host", VStr "firestore.example.com:8443");
                                          ("ssl", VBool true)])
                            initial_fields)))
       = get "ssl" (list_to_map [("host", VStr "firestore.example.com:8443");
                                 ("ssl", VBool true)])
    /\ get "apiEndpoint"
         (_settings (fst (@validateAndApplySettings example_platform no_env
                            (list_to_map [("host", VStr "firestore.example.com:8443");
                                          ("ssl", VBool true)])
                            initial_fields)))
       = VUndefined.
Proof.
  apply (@host_setting_is_split example_platform no_env
           (list_to_map [("host", VStr "firestore.example.com:8443"); ("ssl", VBool true)])
           initial_fields _ "firestore.example.com:8443").
  - reflexivity.
  - vm_compute. reflexivity.
  - vm_compute. reflexivity.
Defined.

Lemma stored_settings_never_name_host_witness :
  get "host"
    (_settings
       (@exec_all example_platform no_env
          [CallSettings (obj [("host", VStr "localhost:8080")]);
           CallInitialize (Resolved "p")]
          (returned (@new_Firestore example_platform no_env
                       (obj [("host", VStr "firestore.example.com")]))
                    initial_fields)))
  = VUndefined.
Proof.
  apply (@stored_settings_never_name_host example_platform no_env
           (obj [("host", VStr "firestore.example.com")])).
  vm_compute. reflexivity.
Defined.

(* ===================================================================== *)
(** ** Construction                                                       *)
(* ===================================================================== *)

(** The keys [{...s}] gives to the characters of a string are decimal
    numbers: none of them is a name that starts with a letter. *)
Lemma pretty_N_go_digit x s :
  (forall c rest, s = String c rest -> (48 <=? nat_of_ascii c) && (nat_of_ascii c <=? 57) = true) ->
  forall c rest, pretty_N_go x s = String c rest ->
    (48 <=? nat_of_ascii c) && (nat_of_ascii c <=? 57) = true.
Proof.
  revert s. induction (N.lt_wf_0 x) as [x _ IH]; intros s Hs.
  assert (x = 0 ∨ 0 < x)%N as [->|?] by lia.
  - by rewrite pretty_N_go_0.
  - rewrite pretty_N_go_step by done. apply IH.
    { by apply N.div_lt. }
    intros c rest [= <- _]. unfold pretty_N_char. by repeat case_match.
Qed.

Lemma pretty_nat_digit (i : nat) c rest :
  pretty i = String c rest -> (48 <=? nat_of_ascii c) && (nat_of_ascii c <=? 57) = true.
Proof.
  unfold pretty, pretty_nat, pretty, pretty_N. case_decide.
  - by intros [= <- _].
  - apply pretty_N_go_digit. discriminate.
Qed.

Lemma string_entries_named i str c rest :
  (48 <=? nat_of_ascii c) && (nat_of_ascii c <=? 57) = false ->
  string_entries i str !! String c rest = None.
Proof.
  intros Hletter. revert i. induction str as [|c' str IH]; intros i; cbn; [done|].
  rewrite lookup_insert_ne; [apply IH|].
  intros Heq. apply pretty_nat_digit in Heq. congruence.
Qed.

Section ConstructorFacts.
Context `{Platform}.
Variable env : Env.

Lemma stored_for_other k s stored :
  k ≠ "apiEndpoint" -> k ≠ "host" -> k ≠ "port" -> k ≠ "servicePath" -> k ≠ "ssl" ->
  stored_for env s stored -> get k stored = get k s.
Proof.
  intros ? ? ? ? ?. unfold stored_for.
  destruct (emulator_host env) as [emulator|].
  - intros (_ & url & _ & ->). rewrite with_url_other by done.
    unfold get. by simplify_map_eq.
  - intros [[_ ->] | (h & url & _ & _ & _ & ->)]; [reflexivity|].
    by rewrite with_url_other.
Qed.

(** What a constructor call that returns has made. *)
Lemma new_Firestore_success (s : JsVal) fs :
  new_Firestore env s = Return fs ->
  exists stored fs1,
    validateAndApplySettings env
      (<["libName" := VStr "gccl"]>
         (<["libVersion" :=
              VStr (if truthy s && truthy (prop s "firebaseVersion")
                    then libVersion +:+ " fire/" +:+ to_string (prop s "firebaseVersion")
                    else libVersion)]> ∅)
       ∪ own_props s) initial_fields = (fs1, Return tt)
    /\ _settings fs1 = stored
    /\ fs = set_clientPool
              {| concurrentOperationLimit := MAX_CONCURRENT_REQUESTS_PER_CLIENT;
                 maxIdleClients :=
                   if is_undefined (get "maxIdleChannels" stored)
                   then VNum (NumInt DEFAULT_MAX_IDLE_CHANNELS)
                   else get "maxIdleChannels" stored;
                 terminated := false |} fs1.
Proof.
  unfold new_Firestore, spread2.
  match goal with
  | |- context [validateAndApplySettings env ?m initial_fields] =>
      destruct (validateAndApplySettings env m initial_fields)
        as [fs1 [[]|e]] eqn:Happlied
  end; [|discriminate].
  intros Heq. inversion Heq. eauto.
Qed.

(** X6. A client that the constructor returns is labelled by the library
    itself: [libName] is [gccl] and [libVersion] the version of the
    package, followed by the Firebase version if one was given, whatever
    the caller's settings say for these two keys. It is not frozen, has no
    listeners, no open writers and a pool that is not terminated; and the
    pool keeps as many idle clients as [maxIdleChannels] says, a
    non-negative integer, or one if the setting is left out. *)
Theorem new_Firestore_labels_and_pool (s : JsVal) (fs : Firestore) :
  new_Firestore env s = Return fs ->
  get "libName" (_settings fs) = VStr "gccl"
  /\ get "libVersion" (_settings fs) =
       VStr (if truthy s && truthy (prop s "firebaseVersion")
             then libVersion +:+ " fire/" +:+ to_string (prop s "firebaseVersion")
             else libVersion)
  /\ _settingsFrozen fs = false
  /\ registeredListenersCount fs = 0%Z /\ bulkWritersCount fs = 0%Z
  /\ terminated (_clientPool fs) = false
  /\ ((prop s "maxIdleChannels" = VUndefined
       /\ maxIdleClients (_clientPool fs) = VNum (NumInt 1))
      \/ (exists z, prop s "maxIdleChannels" = VNum (NumInt z) /\ (0 <= z)%Z
                    /\ maxIdleClients (_clientPool fs) = VNum (NumInt z))).
Proof.
  intros Hnew.
  destruct (new_Firestore_success s fs Hnew) as (stored & fs1 & Happlied & Hstored & ->).
  destruct (validateAndApplySettings_success env _ _ _ Happlied)
    as (stored' & -> & _ & Hfor & _ & Hmax).
  cbn in Hstored. subst stored'.
  cbn [_settings set_clientPool set_settings _settingsFrozen _clientPool
       registeredListenersCount bulkWritersCount terminated maxIdleClients].
  assert (Hname : get "libName" stored = VStr "gccl").
  { rewrite (stored_for_other "libName" _ _) by (done || exact Hfor).
    unfold get. rewrite lookup_union_l'; by simplify_map_eq. }
  assert (Hversion : get "libVersion" stored =
            VStr (if truthy s && truthy (prop s "firebaseVersion")
                  then libVersion +:+ " fire/" +:+ to_string (prop s "firebaseVersion")
                  else libVersion)).
  { rewrite (stored_for_other "libVersion" _ _) by (done || exact Hfor).
    unfold get. rewrite lookup_union_l'; by simplify_map_eq. }
  assert (Hidle : get "maxIdleChannels" stored = prop s "maxIdleChannels").
  { rewrite (stored_for_other "maxIdleChannels" _ _) by (done || exact Hfor).
    unfold get. rewrite lookup_union_r by (by simplify_map_eq).
    destruct s as [| |b|n|str|o| |sec nano]; cbn; try reflexivity.
    by rewrite string_entries_named. }
  split; [exact Hname|]. split; [exact Hversion|].
  repeat (split; [destruct (is_undefined (get "projectId" _)); reflexivity|]).
  rewrite Hidle in *.
  destruct Hmax as [Hu | (z & Hz & Hpos)].
  - left. rewrite Hu. auto.
  - right. exists z. rewrite Hz. cbn. auto.
Qed.

End ConstructorFacts.

Lemma new_Firestore_labels_and_pool_witness :
  let s := obj [("libName", VStr "mine"); ("firebaseVersion", VStr "9.0");
                ("maxIdleChannels", VNum (NumInt 3))] in
  let fs := returned (@new_Firestore example_platform no_env s) initial_fields in
  get "libName" (_settings fs) = VStr "gccl"
  /\ get "libVersion" (_settings fs) = VStr "6.0.0 fire/9.0"
  /\ maxIdleClients (_clientPool fs) = VNum (NumInt 3).
Proof.
  cbv zeta.
  destruct (@new_Firestore_labels_and_pool example_platform no_env
              (obj [("libName", VStr "mine"); ("firebaseVersion", VStr "9.0");
                    ("maxIdleChannels", VNum (NumInt 3))])
              (returned (@new_Firestore example_platform no_env
                           (obj [("libName", VStr "mine"); ("firebaseVersion", VStr "9.0");
                                 ("maxIdleChannels", VNum (NumInt 3))]))
                        initial_fields))
    as (Hname & Hversion & _).
  - vm_compute. reflexivity.
  - split; [exact Hname|]. split; [exact Hversion|]. vm_compute. reflexivity.
Defined.

(* ===================================================================== *)
(** ** Initialisation and the headers of a call                           *)
(* ===================================================================== *)

Section InitializationFacts.
Context `{Platform}.
Variable env : Env.

Lemma initializeIfNeeded_known_project detected fs :
  is_undefined (_projectId fs) = false ->
  snd (initializeIfNeeded detected fs) = Resolved tt
  /\ _projectId (fst (initializeIfNeeded detected fs)) = _projectId fs.
Proof.
  intros Hknown. unfold initializeIfNeeded. cbn.
  destruct (is_false (get "ssl" (_settings fs))); cbn; rewrite Hknown; auto.
Qed.

Lemma initializeIfNeeded_detects detected fs :
  is_undefined (_projectId fs) = true ->
  terminated (_clientPool fs) = false ->
  snd (initializeIfNeeded detected fs) = match detected with
                                         | Resolved _ => Resolved tt
                                         | Rejected err => Rejected err
                                         | Pending => Pending
                                         end
  /\ _projectId (fst (initializeIfNeeded detected fs)) =
       match detected with
       | Resolved id => VStr id
       | _ => _projectId fs
       end
  /\ _clientPool (fst (initializeIfNeeded detected fs)) = _clientPool fs.
Proof.
  intros Hunknown Hopen. unfold initializeIfNeeded, ClientPool_run. cbn.
  destruct (is_false (get "ssl" (_settings fs))); cbn; rewrite Hunknown, Hopen;
    destruct detected; auto.
Qed.

(** X7. A detection of the project that fails is not final: the call is
    rejected with the error of the detection and leaves the project
    unknown (the settings are frozen all the same), and the next call
    runs the detection again and takes its answer. *)
Theorem initializeIfNeeded_retries_detection (err : Error) (id : string) (fs : Firestore) :
  _projectId fs = VUndefined ->
  terminated (_clientPool fs) = false ->
  let failed := initializeIfNeeded (Rejected err) fs in
  let again := initializeIfNeeded (Resolved id) (fst failed) in
  snd failed = Rejected err
  /\ _projectId (fst failed) = VUndefined
  /\ _settingsFrozen (fst failed) = true
  /\ snd again = Resolved tt
  /\ _projectId (fst again) = VStr id.
Proof.
  intros Hunknown Hopen. cbv zeta.
  assert (Hu : is_undefined (_projectId fs) = true) by (rewrite Hunknown; reflexivity).
  destruct (initializeIfNeeded_detects (Rejected err) fs Hu Hopen) as (H1 & H2 & H3).
  rewrite Hunknown in H2.
  assert (Hu' : is_undefined (_projectId (fst (initializeIfNeeded (Rejected err) fs))) = true)
    by (rewrite H2; reflexivity).
  assert (Hopen' : terminated (_clientPool (fst (initializeIfNeeded (Rejected err) fs))) = false)
    by (rewrite H3; exact Hopen).
  destruct (initializeIfNeeded_detects (Resolved id) _ Hu' Hopen') as (H4 & H5 & _).
  auto using initializeIfNeeded_freezes.
Qed.

(** X8. A project given to the constructor is the project of the client:
    initialisation resolves without looking at what a detection would
    answer, and the database is named after the given project. *)
Theorem constructor_project_skips_detection (s : JsVal) (p : string) (fs : Firestore)
    (detected : Promise string Error) :
  new_Firestore env s = Return fs ->
  prop s "projectId" = VStr p ->
  snd (initializeIfNeeded detected fs) = Resolved tt
  /\ formattedName (fst (initializeIfNeeded detected fs))
       = Return ("projects/" +:+ p +:+ "/databases/(default)").
Proof.
  intros Hnew Hp.
  destruct (new_Firestore_success env s fs Hnew) as (stored & fs1 & Happlied & _ & ->).
  destruct (validateAndApplySettings_success env _ _ _ Happlied)
    as (stored' & -> & _ & _ & _ & _).
  match type of Happlied with
  | validateAndApplySettings _ ?m _ = _ =>
      assert (Hgiven : get "projectId" m = VStr p)
  end.
  { unfold get. rewrite lookup_union_r by (by simplify_map_eq).
    destruct s; cbn in Hp; try discriminate Hp. exact Hp. }
  rewrite Hgiven. cbn [is_undefined].
  match goal with
  | |- context [initializeIfNeeded detected ?c] =>
      destruct (initializeIfNeeded_known_project detected c) as [Hresolved Hid];
        [reflexivity|]
  end.
  split; [exact Hresolved|].
  unfold formattedName, projectId. rewrite Hid. reflexivity.
Qed.

(** X9. Without SSL the client is taken to talk to the emulator:
    initialisation gives it an [Authorization] header, [Bearer owner]
    unless the custom headers of the settings have their own, keeps all
    other custom headers and every other setting. With any other value
    of [ssl] initialisation leaves the settings as they are. *)
Theorem initializeIfNeeded_authorization (detected : Promise string Error) (fs : Firestore) :
  let before := _settings fs in
  let after := _settings (fst (initializeIfNeeded detected fs)) in
  let custom := own_props (get "customHeaders" before) in
  if is_false (get "ssl" before) then
    (exists custom',
        get "customHeaders" after = VObj custom'
        /\ custom' !! "Authorization"
             = Some (default (VStr "Bearer owner") (custom !! "Authorization"))
        /\ forall k, k ≠ "Authorization" -> custom' !! k = custom !! k)
    /\ forall k, k ≠ "customHeaders" -> get k after = get k before
  else after = before.
Proof.
  cbv zeta. rewrite initializeIfNeeded_settings.
  destruct (is_false (get "ssl" (_settings fs))); [|reflexivity].
  split.
  - eexists. split; [unfold get at 1; by rewrite lookup_insert_eq|].
    split.
    + rewrite lookup_union.
      destruct (own_props (get "customHeaders" (_settings fs)) !! "Authorization");
        by simplify_map_eq.
    + intros k Hk. rewrite lookup_union. rewrite lookup_insert_ne by done.
      rewrite lookup_empty. by destruct (_ !! k).
  - intros k Hk. unfold get. by rewrite lookup_insert_ne.
Qed.

(** X10. The headers of a call are layered: a header of the custom headers
    of the method's own settings wins, then one of the custom headers of
    the client, and the routing header of the database is the value of
    its name only when neither has that name; no other header is sent. *)
Theorem createCallOptions_header_precedence (fs : Firestore) (methodName : string)
    (retryCodes : option (list Z)) (callOptions : CallOptions) (k : string) :
  createCallOptions env fs methodName retryCodes = Return callOptions ->
  let method := own_props (opt_prop (get methodName (_settings fs)) "customHeaders") in
  let client := own_props (get "customHeaders" (_settings fs)) in
  headers callOptions !! k =
    match method !! k, client !! k with
    | Some v, _ => Some v
    | None, Some v => Some v
    | None, None =>
        if String.eqb k CLOUD_RESOURCE_HEADER
        then Some (VStr (returned (formattedName fs) EmptyString))
        else None
    end.
Proof.
  unfold createCallOptions, formattedName, projectId. unfold_m.
  destruct (is_undefined (_projectId fs)); [discriminate|].
  intros Heq. inversion Heq. subst callOptions. clear Heq.
  cbv zeta. unfold spread2. cbn [headers returned].
  rewrite !lookup_union.
  destruct (_ !! k) as [v|]; [by destruct (_ !! k), (_ !! k)|].
  destruct (_ !! k) as [v|]; [by destruct (_ !! k)|].
  destruct (String.eqb_spec k CLOUD_RESOURCE_HEADER) as [->|Hk].
  - by rewrite lookup_insert_eq.
  - rewrite lookup_insert_ne by done. by rewrite lookup_empty.
Qed.

End InitializationFacts.

Lemma initializeIfNeeded_retries_detection_witness :
  let failed := initializeIfNeeded (Rejected unavailable) initial_fields in
  let again := initializeIfNeeded (Resolved "p") (fst failed) in
  snd failed = Rejected unavailable
  /\ _projectId (fst failed) = VUndefined
  /\ _settingsFrozen (fst failed) = true
  /\ snd again = Resolved tt
  /\ _projectId (fst again) = VStr "p".
Proof.
  apply (initializeIfNeeded_retries_detection unavailable "p" initial_fields);
    reflexivity.
Defined.

Lemma constructor_project_skips_detection_witness :
  let fs := returned (@new_Firestore example_platform no_env
                        (obj [("projectId", VStr "p")])) initial_fields in
  snd (initializeIfNeeded (Rejected unavailable) fs) = Resolved tt
  /\ @formattedName example_platform (fst (initializeIfNeeded (Rejected unavailable) fs))
       = Return "projects/p/databases/(default)".
Proof.
  apply (@constructor_project_skips_detection example_platform no_env
           (obj [("projectId", VStr "p")]) "p").
  - vm_compute. reflexivity.
  - vm_compute. reflexivity.
Defined.

Lemma createCallOptions_header_precedence_witness :
  let fs := set_settings
              (list_to_map
                 [("customHeaders", obj [("x-goog", VStr "client")]);
                  ("commit", obj [("customHeaders", obj [("x-goog", VStr "method")])])])
              example_client in
  headers (returned (@createCallOptions example_platform no_env fs "commit" None)
                    {| headers := ∅; retry := None |}) !! "x-goog"
  = Some (VStr "method").
Proof.
  cbv zeta.
  rewrite (@createCallOptions_header_precedence example_platform no_env
             (set_settings
                (list_to_map
                   [("customHeaders", obj [("x-goog", VStr "client")]);
                    ("commit", obj [("customHeaders", obj [("x-goog", VStr "method")])])])
                example_client)
             "commit" None _ "x-goog").
  - vm_compute. reflexivity.
  - vm_compute. reflexivity.
Defined.

Section EmulatorHeaderFacts.
Context `{Platform}.
Variable env : Env.

(** X11. The [Authorization] header of the calls of a client made while
    [FIRESTORE_EMULATOR_HOST] is set, once the client has been through
    [initializeIfNeeded]: every call has the header, and its value is
    [Bearer owner] unless custom headers name [Authorization]; then it is
    the value the method's own custom headers give it, or else the value
    the custom headers of the constructor's settings give it. *)
Theorem emulator_calls_carry_authorization (emulator : string) (s : JsVal) (fs : Firestore)
    (detected : Promise string Error) (methodName : string)
    (retryCodes : option (list Z)) (callOptions : CallOptions) :
  emulator_host env = Some emulator ->
  new_Firestore env s = Return fs ->
  createCallOptions env (fst (initializeIfNeeded detected fs)) methodName retryCodes
    = Return callOptions ->
  headers callOptions !! "Authorization" =
    Some match own_props (opt_prop (get methodName
                                      (_settings (fst (initializeIfNeeded detected fs))))
                                   "customHeaders") !! "Authorization" with
         | Some custom => custom
         | None =>
             match own_props (get "customHeaders" (_settings fs)) !! "Authorization" with
             | Some custom => custom
             | None => VStr "Bearer owner"
             end
         end.
Proof.
  intros Hemulator Hnew.
  destruct (new_Firestore_success env s fs Hnew) as (stored & fs1 & Happlied & _ & ->).
  destruct (validateAndApplySettings_emulator_fields env _ _ _ _ Hemulator Happlied)
    as (url & _ & _ & Hssl & _).
  unfold createCallOptions, formattedName, projectId. unfold_m.
  destruct (is_undefined (_projectId _)); [discriminate|].
  intros Heq. inversion Heq. subst callOptions. clear Heq.
  cbn [headers]. unfold spread2.
  rewrite lookup_union.
  destruct (own_props (opt_prop (get methodName _) "customHeaders") !! "Authorization")
    as [custom|]; [by destruct (_ !! "Authorization")|].
  rewrite (left_id_L None (∪)).
  rewrite initializeIfNeeded_settings.
  cbn [_settings set_clientPool]. rewrite Hssl. cbn [is_false].
  unfold get at 1. rewrite lookup_insert_eq. cbn [default own_props id].
  rewrite !lookup_union, lookup_insert_eq.
  rewrite lookup_insert_ne by done. rewrite lookup_empty.
  by destruct (own_props (get "customHeaders" (_settings fs1)) !! "Authorization").
Qed.

End EmulatorHeaderFacts.

Lemma emulator_calls_carry_authorization_witness :
  headers
    (returned
       (@createCallOptions example_platform (emulator_env "localhost:8080")
          (fst (initializeIfNeeded (Resolved "p")
                  (returned (@new_Firestore example_platform
                               (emulator_env "localhost:8080") (obj []))
                            initial_fields)))
          "commit" None)
       {| headers := ∅; retry := None |}) !! "Authorization"
  = Some (VStr "Bearer owner").
Proof.
  apply (@emulator_calls_carry_authorization example_platform
           (emulator_env "localhost:8080") "localhost:8080" (obj [])
           (returned (@new_Firestore example_platform
                        (emulator_env "localhost:8080") (obj []))
                     initial_fields)
           (Resolved "p") "commit" None).
  - reflexivity.
  - vm_compute. reflexivity.
  - vm_compute. reflexivity.
Defined.

(** A custom [Authorization] header that is [undefined] is kept as it is:
    the call then has the name without a value. *)
Example emulator_authorization_undefined :
  headers
    (returned
       (@createCallOptions example_platform (emulator_env "localhost:8080")
          (fst (initializeIfNeeded (Resolved "p")
                  (returned (@new_Firestore example_platform
                               (emulator_env "localhost:8080")
                               (obj [("customHeaders",
                                      obj [("Authorization", VUndefined)])]))
                            initial_fields)))
          "commit" None)
       {| headers := ∅; retry := None |}) !! "Authorization"
  = Some VUndefined.
Proof. vm_compute. reflexivity. Qed.

(* ===================================================================== *)
(** ** The retry helper, from the attempts to the outcome                 *)
(* ===================================================================== *)

Section RetryOutcomeFacts.
Context {S T E : Type}.
Variable isPermanentRpcError : E -> string -> bool.
Variable methodName : string.
Variable func : S -> S * Promise T E.

Lemma result_at_next s i :
  result_at func s (Datatypes.S i) = result_at func (fst (func s)) i.
Proof. reflexivity. Qed.

(** The loop stops at the first attempt that is final. *)
Lemma retry_loop_settles k : forall remaining lastError s,
  k < remaining ->
  (forall i, i < k ->
     final_attempt isPermanentRpcError methodName (result_at func s i) = false) ->
  final_attempt isPermanentRpcError methodName (result_at func s k) = true ->
  retry_loop isPermanentRpcError methodName func remaining lastError s
    = (state_before func s (Datatypes.S k), outcome (result_at func s k)).
Proof.
  induction k as [|k IH]; intros [|remaining] lastError s Hlt Hbefore Hfinal;
    try lia; cbn [retry_loop].
  - unfold result_at in *. cbn [state_before] in *.
    destruct (func s) as [s' [v|e|]]; cbn in *; try reflexivity.
    rewrite Hfinal. reflexivity.
  - pose proof (Hbefore 0 ltac:(lia)) as Hfirst.
    unfold result_at in Hfirst. cbn [state_before] in Hfirst.
    rewrite result_at_next. cbn [state_before].
    rewrite result_at_next in Hfinal.
    assert (Hrest : forall i, i < k ->
              final_attempt isPermanentRpcError methodName
                (result_at func (fst (func s)) i) = false).
    { intros i Hi. rewrite <- result_at_next. apply Hbefore. lia. }
    destruct (func s) as [s' [v|e|]]; cbn in *; try discriminate.
    rewrite Hfirst. apply IH; [lia|exact Hrest|exact Hfinal].
Qed.

(** When no attempt is final the loop makes them all and rejects with the
    error of the last. *)
Lemma retry_loop_exhausts remaining : forall lastError s,
  (forall i, i < remaining ->
     final_attempt isPermanentRpcError methodName (result_at func s i) = false) ->
  retry_loop isPermanentRpcError methodName func remaining lastError s
    = (state_before func s remaining,
       Rejected match remaining with
                | O => lastError
                | Datatypes.S last =>
                    match result_at func s last with
                    | Rejected e => Some e
                    | _ => lastError
                    end
                end).
Proof.
  induction remaining as [|remaining IH]; intros lastError s Hall; cbn [retry_loop].
  - reflexivity.
  - pose proof (Hall 0 ltac:(lia)) as Hfirst.
    pose proof (Hall remaining ltac:(lia)) as Hlast.
    unfold result_at in Hfirst. cbn [state_before] in Hfirst.
    assert (Hrest : forall i, i < remaining ->
              final_attempt isPermanentRpcError methodName
                (result_at func (fst (func s)) i) = false).
    { intros i Hi. rewrite <- result_at_next. apply Hall. lia. }
    cbn [state_before].
    destruct remaining as [|last].
    + unfold result_at. cbn [state_before].
      destruct (func s) as [s' [v|e|]]; cbn in *; try discriminate.
      rewrite Hfirst. reflexivity.
    + rewrite result_at_next in *.
      destruct (func s) as [s' [v|e|]]; cbn in *; try discriminate.
      rewrite Hfirst. rewrite (IH (Some e) s' Hrest).
      destruct (result_at func s' last); cbn in *; try discriminate. reflexivity.
Qed.

(** X12. [_retry] stops at the first attempt that resolves, hangs or fails
    with a permanent error, provided it is one of the first five: the
    promise settles as that attempt did, and the function has been invoked
    exactly that many times. *)
Theorem _retry_stops_at_first_final_attempt (s : S) (k : nat) :
  k < MAX_REQUEST_RETRIES ->
  (forall i, i < k ->
     final_attempt isPermanentRpcError methodName (result_at func s i) = false) ->
  final_attempt isPermanentRpcError methodName (result_at func s k) = true ->
  _retry isPermanentRpcError methodName func s
    = (state_before func s (Datatypes.S k), outcome (result_at func s k)).
Proof. intros. unfold _retry. by apply retry_loop_settles. Qed.

(** X13. When each of the first five attempts fails with an error that is
    not permanent, [_retry] gives up: the function has been invoked five
    times and the promise is rejected with the error of the fifth. *)
Theorem _retry_rejects_after_five_failures (s : S) :
  (forall i, i < MAX_REQUEST_RETRIES ->
     final_attempt isPermanentRpcError methodName (result_at func s i) = false) ->
  exists e,
    result_at func s 4 = Rejected e
    /\ _retry isPermanentRpcError methodName func s
       = (state_before func s MAX_REQUEST_RETRIES, Rejected (Some e)).
Proof.
  intros Hall. unfold _retry. rewrite (retry_loop_exhausts _ _ _ Hall).
  pose proof (Hall 4 ltac:(unfold MAX_REQUEST_RETRIES; lia)) as Hlast.
  change MAX_REQUEST_RETRIES with 5 in *. cbv beta iota.
  destruct (result_at func s 4) as [v|e|]; cbn in Hlast; try discriminate.
  exists e. split; reflexivity.
Qed.

End RetryOutcomeFacts.

(* ===================================================================== *)
(** ** The stream handed to the caller, in closed form                    *)
(* ===================================================================== *)

Section StreamClosedForm.
Variable request : JsVal.

(** What an event does to the flag, to [lifetime] and to the errors
    emitted, none of which depends on the pipe. *)
Lemma on_event_frame ev st :
  let st' := on_event request ev st in
  lifetime st' = lifetime st || is_end ev
  /\ streamInitialized st' = streamInitialized st || is_ready request ev
  /\ errors (resultStream st') =
       errors (resultStream st)
         ++ (if streamInitialized st then failures_of request [ev] else []).
Proof.
  destruct st as [init p life [cs es en]]. unfold failures_of.
  destruct ev as [chunk|err| | | |[err|]]; cbn [on_event is_ready is_end omap];
    pipe_cases;
    unfold streamReady, streamEnded, streamFailed, resolve, reject, emit_error;
    try destruct (truthy request); destruct init; cbn;
    rewrite ?app_nil_r, ?orb_false_r, ?orb_true_r; repeat split; reflexivity.
Qed.

Lemma run_events_frame events : forall st,
  let st' := run_events request events st in
  lifetime st' = lifetime st || existsb is_end events
  /\ streamInitialized st' = streamInitialized st || existsb (is_ready request) events
  /\ errors (resultStream st') =
       errors (resultStream st)
         ++ failures_of request
              (if streamInitialized st then events else after_ready request events).
Proof.
  induction events as [|ev events IH]; intros st; cbn zeta.
  - unfold failures_of. cbn [run_events fold_left existsb after_ready omap].
    destruct (streamInitialized st); cbn [omap];
      by rewrite !app_nil_r, !orb_false_r.
  - change (run_events request (ev :: events) st)
      with (run_events request events (on_event request ev st)).
    destruct (IH (on_event request ev st)) as (Hl & Hi & Hr).
    destruct (on_event_frame ev st) as (Hl1 & Hi1 & Hr1).
    cbn zeta in *.
    rewrite Hl, Hi, Hr, Hl1, Hi1, Hr1.
    cbn [existsb after_ready].
    rewrite <- !app_assoc, !orb_assoc.
    repeat split.
    f_equal. destruct (streamInitialized st); cbn [orb].
    + unfold failures_of. cbn [omap]. by destruct ev as [| | | | |[|]]; cbn;
        try destruct (truthy request).
    + by destruct (is_ready request ev).
Qed.

(** Once the pipe is removed the chunks and the end of the result stream
    stay as they are. *)
Lemma on_event_unpiped ev st :
  piped st = false ->
  piped (on_event request ev st) = false
  /\ chunks (resultStream (on_event request ev st)) = chunks (resultStream st)
  /\ ended (resultStream (on_event request ev st)) = ended (resultStream st).
Proof.
  destruct st as [init p life [cs es en]]. unfold piped. cbn [errors ended resultStream].
  intros Hgone.
  assert (Hes : forall e, match es ++ [e] with [] => negb en | _ :: _ => false end = false)
    by (intros e; destruct es; reflexivity).
  destruct ev as [chunk|err| | | |[err|]]; cbn [on_event];
    unfold pipe_data, pipe_end, piped, streamReady, streamEnded, streamFailed,
      resolve, reject, emit_error;
    try destruct (truthy request); destruct init;
    cbn [negb streamInitialized setup lifetime resultStream errors ended chunks];
    rewrite ?Hgone; cbn [andb streamInitialized setup lifetime resultStream
                          errors ended chunks];
    rewrite ?Hes; auto.
Qed.

Lemma run_events_unpiped events : forall st,
  piped st = false ->
  chunks (resultStream (run_events request events st)) = chunks (resultStream st)
  /\ ended (resultStream (run_events request events st)) = ended (resultStream st).
Proof.
  induction events as [|ev events IH]; intros st Hgone; [split; reflexivity|].
  change (run_events request (ev :: events) st)
    with (run_events request events (on_event request ev st)).
  destruct (on_event_unpiped ev st Hgone) as (Hgone' & Hc & He).
  destruct (IH _ Hgone') as [Hc' He']. rewrite Hc', He'. auto.
Qed.

(** While the pipe is there, an event that neither ends the stream nor
    makes an error be emitted leaves it there and hands its chunk on. *)
Lemma on_event_piped ev st :
  piped st = true ->
  is_OnEnd ev = false ->
  streamInitialized st && listened_failure request ev = false ->
  piped (on_event request ev st) = true
  /\ chunks (resultStream (on_event request ev st))
     = chunks (resultStream st) ++ List.filter passed_on (data_of [ev]).
Proof.
  destruct st as [init p life [cs es en]]. unfold piped, listened_failure.
  cbn [errors ended resultStream streamInitialized].
  intros Hpiped Hend Hclean.
  destruct es as [|e es]; [|discriminate Hpiped].
  destruct en; [discriminate Hpiped|].
  destruct ev as [chunk|err| | | |[err|]]; try discriminate Hend;
    cbn [on_event is_failure relevant] in *;
    unfold pipe_data, pipe_end, piped, streamReady, streamEnded, streamFailed,
      resolve, reject, emit_error;
    try destruct (truthy request); destruct init; try discriminate Hclean;
    cbn [negb andb streamInitialized setup lifetime resultStream errors ended chunks];
    rewrite ?app_nil_r; auto.
  all: unfold data_of; cbn;
    destruct (passed_on chunk); cbn; rewrite ?app_nil_r; auto.
Qed.

Lemma failures_of_cons ev events :
  failures_of request (ev :: events)
  = failures_of request [ev] ++ failures_of request events.
Proof.
  unfold failures_of. cbn [omap].
  destruct ev as [| | | | |[|]]; try reflexivity. by destruct (truthy request).
Qed.

Lemma failures_of_listened ev :
  failures_of request [ev] = [] <-> listened_failure request ev = false.
Proof.
  unfold failures_of, listened_failure.
  destruct ev as [| | | | |[|]]; cbn; try destruct (truthy request); cbn;
    split; congruence.
Qed.

Lemma data_of_app events events' :
  data_of (events ++ events') = data_of events ++ data_of events'.
Proof.
  unfold data_of. induction events as [|ev events IH]; [reflexivity|].
  cbn. rewrite IH. by destruct ev.
Qed.

Lemma run_events_piped before : forall st,
  piped st = true ->
  existsb is_OnEnd before = false ->
  failures_of request
    (if streamInitialized st then before else after_ready request before) = [] ->
  piped (run_events request before st) = true
  /\ chunks (resultStream (run_events request before st))
     = chunks (resultStream st) ++ List.filter passed_on (data_of before).
Proof.
  induction before as [|ev before IH]; intros st Hpiped Hend Hclean.
  - cbn. by rewrite app_nil_r.
  - change (run_events request (ev :: before) st)
      with (run_events request before (on_event request ev st)).
    cbn [existsb] in Hend. apply orb_false_iff in Hend as [Hev Hend].
    assert (Hfirst : streamInitialized st && listened_failure request ev = false).
    { destruct (streamInitialized st); [|reflexivity]. cbn.
      rewrite failures_of_cons in Hclean. apply app_eq_nil in Hclean as [Hclean _].
      by apply failures_of_listened. }
    destruct (on_event_piped ev st Hpiped Hev Hfirst) as [Hpiped' Hchunks].
    destruct (on_event_frame ev st) as (_ & Hinit & _). cbn zeta in Hinit.
    destruct (IH (on_event request ev st) Hpiped' Hend) as [Hp Hc].
    { rewrite Hinit. destruct (streamInitialized st); cbn [orb].
      - rewrite failures_of_cons in Hclean. by apply app_eq_nil in Hclean as [_ Hclean].
      - cbn [after_ready] in Hclean. by destruct (is_ready request ev). }
    split; [exact Hp|]. rewrite Hc, Hchunks, <- app_assoc. f_equal.
    change (ev :: before) with ([ev] ++ before).
    by rewrite data_of_app, List.filter_app.
Qed.

Lemma initial_setup_piped : piped initial_setup = true.
Proof. reflexivity. Qed.

(** The stream handed out when the backend stream ends before anything
    removes the pipe. *)
Lemma initializeStream_until_end before after :
  existsb is_OnEnd before = false ->
  failures_of request (after_ready request before) = [] ->
  chunks (resultStream (_initializeStream request (before ++ OnEnd :: after)))
    = List.filter passed_on (data_of before)
  /\ ended (resultStream (_initializeStream request (before ++ OnEnd :: after))) = true.
Proof.
  intros Hend Hclean. unfold _initializeStream, run_events.
  rewrite fold_left_app. cbn [fold_left].
  fold (run_events request before initial_setup).
  match goal with
  | |- context [fold_left ?f after ?st] =>
      change (fold_left f after st) with (run_events request after st)
  end.
  destruct (run_events_piped before initial_setup initial_setup_piped Hend Hclean)
    as [Hpiped Hchunks].
  cbn [chunks resultStream initial_setup app] in Hchunks.
  set (st := run_events request before initial_setup) in *.
  assert (Hafter : piped (on_event request OnEnd st) = false
                   /\ chunks (resultStream (on_event request OnEnd st))
                      = chunks (resultStream st)
                   /\ ended (resultStream (on_event request OnEnd st)) = true).
  { cbn [on_event]. unfold pipe_end.
    assert (Hp : piped (streamEnded st) = true) by exact Hpiped.
    rewrite Hp. unfold piped. cbn. destruct (errors (resultStream st)); auto. }
  destruct Hafter as (Hgone & Hc & He).
  destruct (run_events_unpiped after _ Hgone) as [Hc' He'].
  rewrite Hc', He', Hc, He, Hchunks. auto.
Qed.

Lemma failures_of_none events :
  existsb is_failure events = false -> failures_of request events = [].
Proof.
  unfold failures_of. induction events as [|ev events IH]; [reflexivity|].
  cbn [existsb]. intros Hnone. apply orb_false_iff in Hnone as [Hev Hnone].
  cbn [omap]. destruct ev as [| | | | |[|]]; try discriminate Hev; cbn; auto.
Qed.

Lemma after_ready_no_failure events :
  existsb is_failure events = false ->
  existsb is_failure (after_ready request events) = false.
Proof.
  induction events as [|ev events IH]; [reflexivity|].
  cbn [existsb after_ready]. intros Hnone.
  apply orb_false_iff in Hnone as [Hev Hnone].
  destruct (is_ready request ev); auto.
Qed.

(** A stream that reaches its end without a failure before it is handed
    out. *)
Lemma initializeStream_healthy before after :
  existsb is_failure before = false ->
  setup (_initializeStream request (before ++ OnEnd :: after)) = Resolved tt.
Proof.
  intros Hnone. rewrite initializeStream_first.
  induction before as [|ev before IH]; [reflexivity|].
  cbn [existsb] in Hnone. apply orb_false_iff in Hnone as [Hev Hnone].
  cbn [app List.find]. destruct (relevant request ev); [|auto].
  destruct ev as [| | | | |[|]]; try discriminate Hev; reflexivity.
Qed.

(** The stream handed out when the data reach the end of the backend
    stream without a failure. *)
Lemma initializeStream_delivers before after :
  existsb is_failure before = false ->
  existsb is_OnEnd before = false ->
  forallb passed_on (data_of before) = true ->
  chunks (resultStream (_initializeStream request (before ++ OnEnd :: after)))
    = data_of before
  /\ ended (resultStream (_initializeStream request (before ++ OnEnd :: after))) = true.
Proof.
  intros Hnone Hend Hpassed.
  destruct (initializeStream_until_end before after Hend) as [Hchunks Hended].
  { apply failures_of_none, after_ready_no_failure, Hnone. }
  split; [|exact Hended]. rewrite Hchunks.
  clear -Hpassed. induction (data_of before) as [|c l IH]; [reflexivity|].
  cbn in *. apply andb_true_iff in Hpassed as [Hc Hl]. rewrite Hc, IH; auto.
Qed.


End StreamClosedForm.


(** Data, an error, more data, the end: the second chunk and the end do
    not reach the stream handed out. *)
Example initializeStream_error_removes_pipe :
  resultStream (_initializeStream VUndefined
                  [OnData (VStr "a"); OnError unavailable; OnData (VStr "b"); OnEnd])
  = {| chunks := [VStr "a"]; errors := [unavailable]; ended := false |}.
Proof. reflexivity. Qed.

Lemma _retry_stops_at_first_final_attempt_witness :
  _retry only_unavailable_retried "runQuery" scripted [14; 14]%Z
    = ([], Resolved tt).
Proof.
  apply (_retry_stops_at_first_final_attempt only_unavailable_retried "runQuery"
           scripted [14; 14]%Z 2).
  - unfold MAX_REQUEST_RETRIES. lia.
  - intros [|[|i]] Hi; [reflexivity | reflexivity | lia].
  - reflexivity.
Defined.

Lemma _retry_rejects_after_five_failures_witness :
  exists e,
    result_at scripted [14; 14; 14; 14; 14; 14]%Z 4 = Rejected e
    /\ _retry only_unavailable_retried "runQuery" scripted [14; 14; 14; 14; 14; 14]%Z
       = ([14]%Z, Rejected (Some e)).
Proof.
  apply (_retry_rejects_after_five_failures only_unavailable_retried "runQuery"
           scripted [14; 14; 14; 14; 14; 14]%Z).
  intros [|[|[|[|[|i]]]]] Hi; try reflexivity.
  unfold MAX_REQUEST_RETRIES in Hi. lia.
Defined.

(* ===================================================================== *)
(** ** Streaming requests, from the replies to the outcome                *)
(* ===================================================================== *)

Section StreamOutcomeFacts.
Context `{Platform}.
Variable env : Env.
Variable isPermanentRpcError : Error -> string -> bool.

(** X15. A streaming method that throws an error that is not permanent at
    each of five calls is called exactly five times, and the request is
    rejected with what the fifth call threw. *)
Theorem requestStream_gives_up_after_five_throws
    (fs : Firestore) (methodName : string) (req : JsVal) (t : Transport)
    (callOptions : CallOptions) :
  terminated (_clientPool fs) = false ->
  createCallOptions env fs methodName None = Return callOptions ->
  (forall i, i < MAX_REQUEST_RETRIES ->
     exists e, reply_at t i = StreamThrows e /\ isPermanentRpcError e methodName = false) ->
  exists e,
    reply_at t 4 = StreamThrows e
    /\ requestStream env isPermanentRpcError fs methodName req t
       = Return ({| unary_replies := unary_replies t;
                    stream_replies := drop MAX_REQUEST_RETRIES (stream_replies t);
                    issued := issued t
                                ++ replicate MAX_REQUEST_RETRIES (methodName, callOptions) |},
                 Rejected (Some e)).
Proof.
  intros Halive Hopts Hthrows.
  unfold requestStream. unfold_m. rewrite Hopts.
  set (attempt := stream_attempt fs methodName req callOptions
                    (String.eqb methodName "listen")).
  assert (Hall : forall i, i < MAX_REQUEST_RETRIES ->
            final_attempt isPermanentRpcError methodName (result_at attempt t i) = false).
  { intros i Hi. destruct (Hthrows i Hi) as (e & Hreply & Htransient).
    unfold result_at, attempt. rewrite stream_attempt_result by exact Halive.
    rewrite Hreply. exact Htransient. }
  destruct (Hthrows 4 ltac:(unfold MAX_REQUEST_RETRIES; lia)) as (e & Hreply & _).
  exists e. split; [exact Hreply|].
  unfold _retry. rewrite (retry_loop_exhausts _ _ _ _ _ _ Hall).
  fold attempt. unfold attempt at 1.
  rewrite stream_attempts_state by exact Halive.
  change MAX_REQUEST_RETRIES with 5. cbv beta iota.
  unfold result_at, attempt. rewrite stream_attempt_result by exact Halive.
  rewrite Hreply. reflexivity.
Qed.

(** X16. A streaming request gets over failures that are not permanent:
    when the method throws such errors at the first [k] calls, fewer than
    five, and the stream opened by the next call reaches its end without a
    failure before it, the request resolves with a stream that holds the
    chunks of data that came before that end, in order, and has ended;
    [k + 1] calls have been issued. (The chunks are values: [null] and
    [undefined] are not data a stream can carry.) *)
Theorem requestStream_recovers
    (fs : Firestore) (methodName : string) (req : JsVal) (t : Transport)
    (callOptions : CallOptions) (k : nat) (before after : list StreamEvent) :
  terminated (_clientPool fs) = false ->
  createCallOptions env fs methodName None = Return callOptions ->
  k < MAX_REQUEST_RETRIES ->
  (forall i, i < k ->
     exists e, reply_at t i = StreamThrows e /\ isPermanentRpcError e methodName = false) ->
  reply_at t k = StreamOpens (before ++ OnEnd :: after) ->
  existsb is_failure before = false ->
  existsb is_OnEnd before = false ->
  forallb passed_on (data_of before) = true ->
  exists stream,
    requestStream env isPermanentRpcError fs methodName req t
      = Return ({| unary_replies := unary_replies t;
                   stream_replies := drop (Datatypes.S k) (stream_replies t);
                   issued := issued t
                               ++ replicate (Datatypes.S k) (methodName, callOptions) |},
                Resolved stream)
    /\ chunks stream = data_of before
    /\ ended stream = true.
Proof.
  intros Halive Hopts Hk Hthrows Hopens Hnone Hend Hpassed.
  unfold requestStream. unfold_m. rewrite Hopts.
  set (written := if String.eqb methodName "listen" then req else VUndefined).
  set (attempt := stream_attempt fs methodName req callOptions
                    (String.eqb methodName "listen")).
  set (events := before ++ OnEnd :: after) in *.
  assert (Hresult : result_at attempt t k
                    = Resolved (resultStream (_initializeStream written events))).
  { unfold result_at, attempt. rewrite stream_attempt_result by exact Halive.
    rewrite Hopens. fold written. unfold events.
    rewrite (initializeStream_healthy written before after Hnone). reflexivity. }
  exists (resultStream (_initializeStream written events)). split.
  - unfold _retry.
    rewrite (retry_loop_settles isPermanentRpcError methodName attempt k
               MAX_REQUEST_RETRIES None t).
    + rewrite Hresult. unfold attempt at 1.
      rewrite stream_attempts_state by exact Halive. reflexivity.
    + exact Hk.
    + intros i Hi. destruct (Hthrows i Hi) as (e & Hreply & Htransient).
      unfold result_at, attempt. rewrite stream_attempt_result by exact Halive.
      rewrite Hreply. exact Htransient.
    + rewrite Hresult. reflexivity.
  - apply (initializeStream_delivers written before after Hnone Hend Hpassed).
Qed.

End StreamOutcomeFacts.

Lemma requestStream_gives_up_after_five_throws_witness :
  exists e,
    reply_at throwing_transport 4 = StreamThrows e
    /\ @requestStream example_platform no_env example_isPermanent example_client
         "runQuery" (obj []) throwing_transport
       = Return ({| unary_replies := [];
                    stream_replies := [StreamThrows unavailable];
                    issued :=
                      replicate 5
                        ("runQuery",
                         returned (@createCallOptions example_platform no_env
                                     example_client "runQuery" None)
                                  {| headers := ∅; retry := None |}) |},
                 Rejected (Some e)).
Proof.
  apply (@requestStream_gives_up_after_five_throws example_platform no_env
           example_isPermanent example_client "runQuery" (obj []) throwing_transport).
  - reflexivity.
  - vm_compute. reflexivity.
  - intros [|[|[|[|[|i]]]]] Hi;
      try (exists unavailable; split; reflexivity).
    unfold MAX_REQUEST_RETRIES in Hi. lia.
Defined.

Lemma requestStream_recovers_witness :
  exists stream,
    @requestStream example_platform no_env example_isPermanent example_client
      "runQuery" (obj []) recovering_transport
      = Return ({| unary_replies := [];
                   stream_replies := [];
                   issued :=
                     replicate 3
                       ("runQuery",
                        returned (@createCallOptions example_platform no_env
                                    example_client "runQuery" None)
                                 {| headers := ∅; retry := None |}) |},
                Resolved stream)
    /\ chunks stream = [VStr "first"; VStr "second"]
    /\ ended stream = true.
Proof.
  apply (@requestStream_recovers example_platform no_env example_isPermanent
           example_client "runQuery" (obj []) recovering_transport _ 2
           [OnData (VStr "first"); OnData (VStr "second")] []).
  - reflexivity.
  - vm_compute. reflexivity.
  - unfold MAX_REQUEST_RETRIES. lia.
  - intros [|[|i]] Hi; try (exists unavailable; split; reflexivity). lia.
  - reflexivity.
  - reflexivity.
  - reflexivity.
  - reflexivity.
Defined.

(* ===================================================================== *)
(** ** Collection groups                                                  *)
(* ===================================================================== *)

Lemma indexOf_from_found c s : forall i,
  (0 <= i)%Z ->
  (indexOf_from c s i = -1)%Z \/ (i <= indexOf_from c s i)%Z.
Proof.
  induction s as [|a rest IH]; intros i Hi; cbn; [auto|].
  destruct (Ascii.eqb a c); [right; lia|].
  destruct (IH (i + 1)%Z ltac:(lia)); [auto | right; lia].
Qed.

Lemma indexOf_from_missing c s : forall i,
  (0 <= i)%Z ->
  (indexOf_from c s i = -1)%Z <-> ~ In c (String.list_ascii_of_string s).
Proof.
  induction s as [|a rest IH]; intros i Hi; cbn.
  - tauto.
  - destruct (Ascii.eqb_spec a c) as [->|Hne].
    + split; [lia | intros Hno; exfalso; apply Hno; auto].
    + rewrite (IH (i + 1)%Z) by lia. tauto.
Qed.

(** X17. [collectionGroup] throws exactly for the collection ids that
    contain a slash, wherever it stands; every other id, the empty one
    included, gives the group of that id. *)
Theorem collectionGroup_rejects_slash (collectionId : string) :
  (In "/"%char (String.list_ascii_of_string collectionId) <->
     exists message, collectionGroup collectionId = Throw (UsageError message))
  /\ (~ In "/"%char (String.list_ascii_of_string collectionId) <->
        collectionGroup collectionId = Return {| group_collectionId := collectionId |}).
Proof.
  unfold collectionGroup, indexOf.
  pose proof (indexOf_from_missing "/"%char collectionId 0 ltac:(lia)) as Hmissing.
  destruct (indexOf_from "/"%char collectionId 0 =? -1)%Z eqn:Hfound; cbn.
  - apply Z.eqb_eq in Hfound. split.
    + split; [intros Hin; exfalso; tauto | intros [message Hm]; discriminate Hm].
    + tauto.
  - apply Z.eqb_neq in Hfound. split.
    + split; [eauto|]. intros _.
      destruct (in_dec Ascii.ascii_dec "/"%char (String.list_ascii_of_string collectionId));
        [assumption | tauto].
    + split; [tauto | discriminate].
Qed.

(* ===================================================================== *)
(** ** Snapshots from protos                                              *)
(* ===================================================================== *)

Section SnapshotFacts.
Context `{Platform} `{SnapshotPlatform}.
Variable env : Env.

(** X18. With [FIRESTORE_USE_REST_API] set to [true] the encoding argument
    of [snapshot_] counts for nothing: the data is converted from JSON
    whatever encoding the caller names, an unsupported one included. *)
Theorem snapshot_rest_forces_json (documentOrName readTime encoding : JsVal) :
  FIRESTORE_USE_REST_API env = Some "true" ->
  snapshot_ env documentOrName readTime encoding
    = snapshot_ env documentOrName readTime (VStr "json").
Proof.
  intros Hrest. unfold snapshot_. rewrite bool_decide_true by exact Hrest.
  reflexivity.
Qed.

(** X19. Without the REST switch an encoding that is neither left out nor
    [protobufJS] nor [json] is refused before anything is read or parsed:
    [snapshot_] throws the error of the encoding even for a document that
    is [undefined] or whose name does not parse. *)
Theorem snapshot_unsupported_encoding_first (documentOrName readTime encoding : JsVal) :
  FIRESTORE_USE_REST_API env <> Some "true" ->
  unsupported_encoding encoding ->
  exists message,
    snapshot_ env documentOrName readTime encoding = Throw (UsageError message).
Proof.
  intros Hgrpc (Hundefined & Hproto & Hjson). unfold snapshot_.
  rewrite bool_decide_false by exact Hgrpc.
  destruct encoding as [| |b|n|e|o| |s n]; try (eexists; reflexivity); [congruence|].
  destruct (String.eqb_spec e "protobufJS") as [->|_]; [congruence|].
  destruct (String.eqb_spec e "json") as [->|_]; [congruence|].
  eexists; reflexivity.
Qed.

End SnapshotFacts.

Lemma snapshot_rest_forces_json_witness :
  @snapshot_ example_platform example_snapshot_platform rest_env
    (obj [("name", VStr "projects/p/databases/(default)/documents/c/d")])
    VUndefined (VStr "xml")
  = @snapshot_ example_platform example_snapshot_platform rest_env
      (obj [("name", VStr "projects/p/databases/(default)/documents/c/d")])
      VUndefined (VStr "json").
Proof.
  apply (@snapshot_rest_forces_json example_platform example_snapshot_platform rest_env).
  reflexivity.
Defined.

Lemma snapshot_unsupported_encoding_first_witness :
  exists message,
    @snapshot_ example_platform example_snapshot_platform no_env
      VUndefined VUndefined (VStr "xml")
    = Throw (UsageError message).
Proof.
  apply (@snapshot_unsupported_encoding_first example_platform
           example_snapshot_platform no_env VUndefined VUndefined (VStr "xml")).
  - vm_compute. discriminate.
  - unfold unsupported_encoding. repeat split; discriminate.
Defined.

(* ===================================================================== *)
(** ** The REST client                                                    *)
(* ===================================================================== *)

Lemma initializeAuthClientIfNeeded_calls getClient c :
  api_calls (fst (initializeAuthClientIfNeeded getClient c)) = api_calls c.
Proof.
  unfold initializeAuthClientIfNeeded.
  destruct (truthy (authClient c)); [reflexivity|]. by destruct getClient.
Qed.

Lemma initializeAuthClientIfNeeded_client getClient c :
  authClient (fst (initializeAuthClientIfNeeded getClient c)) =
    if truthy (authClient c) then authClient c
    else match getClient with
         | Resolved client => client
         | _ => authClient c
         end.
Proof.
  unfold initializeAuthClientIfNeeded.
  destruct (truthy (authClient c)); [reflexivity|]. by destruct getClient.
Qed.

Lemma initializeAuthClientIfNeeded_resolves getClient c :
  snd (initializeAuthClientIfNeeded getClient c) =
    if truthy (authClient c) then Resolved tt
    else match getClient with
         | Resolved _ => Resolved tt
         | Rejected err => Rejected err
         | Pending => Pending
         end.
Proof.
  unfold initializeAuthClientIfNeeded.
  destruct (truthy (authClient c)); [reflexivity|]. by destruct getClient.
Qed.

(** X20. A unary method of the REST client calls the API at most once, and
    only with an auth client at hand and its arguments built: the auth
    client the client already has, which is then kept, or else the one
    that [getClient] resolves with. When the method is not called the
    promise does not resolve; when authentication fails it is rejected
    with the error of the authentication. *)
Theorem rest_unary_authenticates (apiMethod : string) (getClient : Promise JsVal Error)
    (arguments : Completion unit) (response : Promise JsVal Error)
    (request : JsVal) (c : FirestoreClient) :
  let after := fst (rest_unary apiMethod getClient arguments response request c) in
  let promise := snd (rest_unary apiMethod getClient arguments response request c) in
  (truthy (authClient c) = true -> authClient after = authClient c)
  /\ ((api_calls after = api_calls c /\ forall result, promise <> Resolved result)
      \/ (api_calls after = api_calls c ++ [apiMethod]
          /\ arguments = Return tt
          /\ (truthy (authClient c) = true
              \/ getClient = Resolved (authClient after))))
  /\ (forall err, truthy (authClient c) = false -> getClient = Rejected err ->
        after = c /\ promise = Rejected err).
Proof.
  cbv zeta. unfold rest_unary, initializeAuthClientIfNeeded.
  destruct (truthy (authClient c)) eqn:Hauth.
  - destruct arguments as [[]|e]; cbn.
    + split; [reflexivity|]. split; [|intros err Hf; discriminate Hf]. right. auto.
    + split; [reflexivity|]. split; [|intros err Hf; discriminate Hf].
      left. split; [reflexivity|discriminate].
  - split; [intros Hf; discriminate Hf|].
    destruct getClient as [client|err0|]; cbn.
    + destruct arguments as [[]|e]; cbn.
      * split; [|intros err _ Hf; discriminate Hf]. right. auto.
      * split; [|intros err _ Hf; discriminate Hf].
        left. split; [reflexivity|discriminate].
    + split; [left; split; [reflexivity|discriminate]|].
      intros err _ Heq. inversion Heq. auto.
    + split; [left; split; [reflexivity|discriminate]|].
      intros err _ Hf. discriminate Hf.
Qed.

Lemma data_of_elements elements :
  data_of (map OnData elements) = elements.
Proof.
  unfold data_of. induction elements as [|x elements IH]; cbn; [reflexivity|].
  by rewrite IH.
Qed.

Lemma elements_no_failure elements :
  existsb is_failure (map OnData elements) = false
  /\ existsb is_OnEnd (map OnData elements) = false.
Proof. induction elements as [|x elements [IH1 IH2]]; cbn; auto. Qed.

(** X21. What [_initializeStream] makes of the stream of a REST query once
    the auth client is there and the arguments are built. A response
    whose data is an array of values (no element is [null]) gives a
    stream that is handed out, holds exactly the elements of the array, in
    order, and has ended, without any error; a response without data
    gives the empty ended stream; an error of the call rejects the setup,
    so that [_retry] sees it, and nothing is emitted on the stream. *)
Theorem rest_runQuery_initializes (getClient : Promise JsVal Error)
    (cb : RestCallback) (c : FirestoreClient) (request : JsVal) :
  snd (initializeAuthClientIfNeeded getClient c) = Resolved tt ->
  let st := _initializeStream request (snd (rest_runQuery getClient (Return tt) cb c)) in
  api_calls (fst (rest_runQuery getClient (Return tt) cb c)) = api_calls c ++ ["runQuery"]
  /\ match callback_err cb, callback_res cb with
     | Some err, _ =>
         setup st = Rejected err
         /\ resultStream st = {| chunks := []; errors := []; ended := false |}
     | None, Some (Some elements) =>
         forallb passed_on elements = true ->
         setup st = Resolved tt
         /\ resultStream st = {| chunks := elements; errors := []; ended := true |}
     | None, None =>
         setup st = Resolved tt
         /\ resultStream st = {| chunks := []; errors := []; ended := true |}
     | None, Some None => True
     end.
Proof.
  intros Hauth. cbv zeta. unfold rest_runQuery.
  pose proof (initializeAuthClientIfNeeded_calls getClient c) as Hcalls.
  destruct (initializeAuthClientIfNeeded getClient c) as [c' auth].
  cbn in Hauth, Hcalls. subst auth. cbn [fst snd api_calls].
  split; [by rewrite Hcalls|].
  unfold rest_stream_events.
  destruct (callback_err cb) as [err|]; [split; reflexivity|].
  destruct (callback_res cb) as [[elements|]|]; [|exact I|split; reflexivity].
  intros Hvalues.
  destruct (elements_no_failure elements) as [Hnone Hend].
  split; [apply initializeStream_healthy, Hnone|].
  destruct (initializeStream_delivers request (map OnData elements) [] Hnone Hend)
    as [Hchunks Hended]; [by rewrite data_of_elements|].
  destruct (run_events_frame request (map OnData elements ++ [OnEnd]) initial_setup)
    as (_ & _ & Herrors).
  unfold _initializeStream in *. cbn zeta in Herrors.
  destruct (resultStream (run_events request (map OnData elements ++ [OnEnd])
                            initial_setup)) as [cs es en].
  cbn in *. subst. f_equal; [apply data_of_elements|].
  apply failures_of_none, after_ready_no_failure.
  rewrite existsb_app, Hnone. reflexivity.
Qed.

(* ===================================================================== *)
(** ** A generated model class                                            *)
(* ===================================================================== *)

(** X22. The constructor of [CollectionSelector] copies the two fields of
    the class that its argument defines and nothing else, a field that is
    [undefined] counting as not defined; and an object it has made is
    copied unchanged. *)
Theorem CollectionSelector_copies_known_fields (json : JsVal) (this : gmap string JsVal) :
  CollectionSelector json = Return this ->
  (forall k, this !! k =
     if (String.eqb k "allDescendants" || String.eqb k "collectionId")
        && negb (is_undefined (prop json k))
     then Some (prop json k) else None)
  /\ CollectionSelector (VObj this) = Return this.
Proof.
  intros Hthis.
  set (a := prop json "allDescendants") in *.
  set (b := prop json "collectionId") in *.
  assert (Hmade : this =
    let this1 : gmap string JsVal :=
      if negb (is_undefined a) then <["allDescendants" := a]> ∅ else ∅ in
    if negb (is_undefined b) then <["collectionId" := b]> this1 else this1).
  { unfold CollectionSelector in Hthis. fold a b in Hthis.
    destruct json; try discriminate Hthis; inversion Hthis; reflexivity. }
  clear Hthis. cbv zeta in Hmade.
  assert (Ha : get "allDescendants" this = a).
  { rewrite Hmade. unfold get. destruct a, b; cbn; by simplify_map_eq. }
  assert (Hb : get "collectionId" this = b).
  { rewrite Hmade. unfold get. destruct a, b; cbn; by simplify_map_eq. }
  split.
  - intros k.
    destruct (String.eqb_spec k "allDescendants") as [->|Hka].
    + fold a. rewrite Hmade. destruct a, b; cbn; by simplify_map_eq.
    + destruct (String.eqb_spec k "collectionId") as [->|Hkb].
      * fold b. rewrite Hmade. destruct a, b; cbn; by simplify_map_eq.
      * cbn. rewrite Hmade.
        destruct (negb (is_undefined a)), (negb (is_undefined b)); by simplify_map_eq.
  - unfold CollectionSelector. cbn [prop]. rewrite Ha, Hb. rewrite <- Hmade. reflexivity.
Qed.

Lemma CollectionSelector_copies_known_fields_witness :
  (forall k,
     (list_to_map [("collectionId", VStr "messages")] : gmap string JsVal) !! k =
       if (String.eqb k "allDescendants" || String.eqb k "collectionId")
          && negb (is_undefined
                     (prop (obj [("collectionId", VStr "messages");
                                 ("allDescendants", VUndefined);
                                 ("where", VStr "x")]) k))
       then Some (prop (obj [("collectionId", VStr "messages");
                             ("allDescendants", VUndefined);
                             ("where", VStr "x")]) k)
       else None)
  /\ CollectionSelector (VObj (list_to_map [("collectionId", VStr "messages")]))
     = Return (list_to_map [("collectionId", VStr "messages")]).
Proof.
  apply (CollectionSelector_copies_known_fields
           (obj [("collectionId", VStr "messages"); ("allDescendants", VUndefined);
                 ("where", VStr "x")])).
  vm_compute. reflexivity.
Defined.

Lemma rest_runQuery_initializes_witness :
  let cb := {| callback_err := None;
               callback_res := Some (Some [VStr "first"; VStr "second"]) |} in
  let st := _initializeStream VUndefined
              (snd (rest_runQuery (Resolved (obj [])) (Return tt) cb new_FirestoreClient)) in
  api_calls (fst (rest_runQuery (Resolved (obj [])) (Return tt) cb new_FirestoreClient))
    = ["runQuery"]
  /\ setup st = Resolved tt
  /\ resultStream st = {| chunks := [VStr "first"; VStr "second"];
                          errors := []; ended := true |}.
Proof.
  cbv zeta.
  destruct (rest_runQuery_initializes (Resolved (obj []))
              {| callback_err := None;
                 callback_res := Some (Some [VStr "first"; VStr "second"]) |}
              new_FirestoreClient VUndefined) as [Hcalls Hstream].
  - reflexivity.
  - split; [exact Hcalls|]. apply Hstream. reflexivity.
Defined.

(* ===================================================================== *)
(** ** Listeners and termination                                          *)
(* ===================================================================== *)

Lemma with_listeners_counts n m fs :
  registeredListenersCount (with_listeners n m fs)
    = (registeredListenersCount fs + Z.of_nat n - Z.of_nat m)%Z
  /\ bulkWritersCount (with_listeners n m fs) = bulkWritersCount fs.
Proof.
  unfold with_listeners.
  assert (Hreg : registeredListenersCount (Nat.iter n registerListener fs)
                 = (registeredListenersCount fs + Z.of_nat n)%Z
                 /\ bulkWritersCount (Nat.iter n registerListener fs) = bulkWritersCount fs).
  { induction n as [|n [IHl IHb]]; [cbn; split; lia|].
    rewrite Nat.iter_succ. unfold registerListener at 1 3. cbn. split; lia. }
  destruct Hreg as [Hl Hb].
  induction m as [|m [IHl IHb]]; [cbn; split; lia|].
  rewrite Nat.iter_succ. unfold unregisterListener at 1 3. cbn. split; lia.
Qed.

(** X23. On a client without listeners or writers on which [n] listeners
    are registered and [m] of them unregistered, [terminate] refuses, and
    leaves the client as it is, exactly when a listener is left ([m < n]);
    otherwise it hands over to the pool. *)
Theorem terminate_after_listeners (n m : nat) (fs : Firestore) :
  registeredListenersCount fs = 0%Z ->
  bulkWritersCount fs = 0%Z ->
  let busy := with_listeners n m fs in
  (m < n ->
     exists message, terminate busy = (busy, Rejected (RejectedWith message)))
  /\ (n <= m -> delegates_to_pool busy)
  /\ (delegates_to_pool busy -> n <= m).
Proof.
  intros Hl Hb busy. subst busy.
  destruct (with_listeners_counts n m fs) as [Hcount Hwriters].
  rewrite Hl in Hcount. rewrite Hb in Hwriters.
  split; [|split].
  - intros Hlt. apply terminate_refuses. left. lia.
  - intros Hle. apply terminate_delegates; lia.
  - intros Hdelegates.
    destruct (le_lt_dec n m) as [Hle|Hlt]; [exact Hle|exfalso].
    destruct (terminate_refuses (with_listeners n m fs)) as [message Hrefused];
      [left; lia|].
    unfold delegates_to_pool in Hdelegates. rewrite Hrefused in Hdelegates.
    unfold ClientPool_terminate in Hdelegates. cbn in Hdelegates.
    discriminate Hdelegates.
Qed.

Lemma terminate_after_listeners_witness :
  (exists message,
      terminate (with_listeners 2 1 initial_fields)
      = (with_listeners 2 1 initial_fields, Rejected (RejectedWith message)))
  /\ delegates_to_pool (with_listeners 2 2 initial_fields).
Proof.
  split.
  - apply (terminate_after_listeners 2 1 initial_fields); [reflexivity|reflexivity|lia].
  - apply (terminate_after_listeners 2 2 initial_fields); [reflexivity|reflexivity|lia].
Defined.

(* ===================================================================== *)
(** ** Transactions                                                       *)
(* ===================================================================== *)

(** X24. [runTransaction] checks its arguments before it does anything: a
    call that throws leaves the client as it was, settings not frozen by
    it; a call that returns has run the initialisation of the client, on
    which its promise depends: it resolves only if the initialisation
    does, is rejected with the error of the initialisation, and is
    pending while the initialisation is. *)
Theorem runTransaction_validates_first (detected : Promise string Error)
    (updateFunction transactionOptions : JsVal) (fs : Firestore) :
  match runTransaction detected updateFunction transactionOptions fs with
  | (fs', Throw _) => fs' = fs
  | (fs', Return promise) =>
      fs' = fst (initializeIfNeeded detected fs)
      /\ match snd (initializeIfNeeded detected fs) with
         | Resolved _ => exists options, promise = Resolved options
         | Rejected err => promise = Rejected err
         | Pending => promise = Pending
         end
  end.
Proof.
  unfold runTransaction. unfold_m.
  destruct (validateFunction "updateFunction" updateFunction) as [[]|e];
    [|reflexivity].
  match goal with
  | |- context [match ?c with Return _ => _ | Throw _ => _ end] =>
      destruct c as [options|e]
  end; [|reflexivity].
  destruct (initializeIfNeeded detected fs) as [fs1 [[]|err|]]; cbn; eauto.
Qed.

(** X25. The options a transaction is run with: it is read-only exactly
    when the [readOnly] option is truthy, and a read time is passed on
    only to a read-only transaction, for which it is the [readTime] of
    the options; a read-write transaction never gets one, whatever the
    options say. *)
Theorem runTransaction_readTime (detected : Promise string Error)
    (updateFunction transactionOptions : JsVal) (fs fs' : Firestore)
    (options : TransactionOptions) :
  runTransaction detected updateFunction transactionOptions fs
    = (fs', Return (Resolved options)) ->
  readOnly options = truthy (prop transactionOptions "readOnly")
  /\ readTime options =
       (if readOnly options then prop transactionOptions "readTime" else VUndefined).
Proof.
  unfold runTransaction. unfold_m.
  destruct (validateFunction "updateFunction" updateFunction) as [[]|e];
    [|intros Hf; discriminate Hf].
  destruct (truthy transactionOptions) eqn:Htruthy.
  - destruct (validateObject "transactionOptions" transactionOptions) as [[]|e];
      [|intros Hf; discriminate Hf].
    destruct (validateBoolean _ _ _) as [[]|e]; [|intros Hf; discriminate Hf].
    destruct (truthy (prop transactionOptions "readOnly")).
    + destruct (validateTimestamp _ _ _) as [[]|e]; [|intros Hf; discriminate Hf].
      destruct (initializeIfNeeded detected fs) as [fs1 [[]|err|]]; cbn;
        intros Heq; inversion Heq; subst; auto.
    + destruct (validateInteger _ _ _ _) as [[]|e]; [|intros Hf; discriminate Hf].
      destruct (initializeIfNeeded detected fs) as [fs1 [[]|err|]]; cbn;
        intros Heq; inversion Heq; subst; auto.
  - assert (Hro : truthy (prop transactionOptions "readOnly") = false).
    { destruct transactionOptions as [| |b|n|s|m| |s n]; cbn in *;
        try reflexivity; discriminate Htruthy. }
    rewrite Hro.
    destruct (initializeIfNeeded detected fs) as [fs1 [[]|err|]]; cbn;
      intros Heq; inversion Heq; subst; auto.
Qed.

Lemma runTransaction_readTime_witness :
  let given := obj [("readOnly", VBool false); ("readTime", VTimestamp 5 6)] in
  let options := {| maxAttempts := VNum (NumInt 5); readOnly := false;
                    readTime := VUndefined |} in
  readOnly options = truthy (prop given "readOnly")
  /\ readTime options = (if readOnly options then prop given "readTime" else VUndefined).
Proof.
  cbv zeta.
  apply (runTransaction_readTime (Resolved "p") VFun
           (obj [("readOnly", VBool false); ("readTime", VTimestamp 5 6)])
           initial_fields
           (fst (runTransaction (Resolved "p") VFun
                   (obj [("readOnly", VBool false); ("readTime", VTimestamp 5 6)])
                   initial_fields))).
  vm_compute. reflexivity.
Defined.

(* ===================================================================== *)
(** ** The funnel and the project of the client                           *)
(* ===================================================================== *)

Section FunnelProjectFacts.
Context `{Platform}.
Variable env : Env.
Variable isPermanentRpcError : Error -> string -> bool.

(** X26. The funnel works for a client that knows its project and for no
    other: [request] and [requestStream] return their promise exactly when
    the project id is defined, and throw otherwise, before any call is
    made; so they return on every client whose initialisation has
    resolved. *)
Theorem funnel_needs_project (fs : Firestore) (methodName : string) (req : JsVal)
    (retryCodes : option (list Z)) (t : Transport) :
  ((exists r, request env fs methodName req retryCodes t = Return r)
     <-> _projectId fs <> VUndefined)
  /\ ((exists r, requestStream env isPermanentRpcError fs methodName req t = Return r)
        <-> _projectId fs <> VUndefined)
  /\ (_projectId fs = VUndefined ->
        exists message,
          request env fs methodName req retryCodes t = Throw (UsageError message)
          /\ requestStream env isPermanentRpcError fs methodName req t
             = Throw (UsageError message))
  /\ (forall detected,
        snd (initializeIfNeeded detected fs) = Resolved tt ->
        (exists r, request env (fst (initializeIfNeeded detected fs)) methodName req
                     retryCodes t = Return r)
        /\ (exists r, requestStream env isPermanentRpcError
                        (fst (initializeIfNeeded detected fs)) methodName req t
                      = Return r)).
Proof.
  assert (Hdefined : forall c : Firestore,
            _projectId c <> VUndefined -> is_undefined (_projectId c) = false).
  { intros c Hc. destruct (_projectId c); cbn; congruence. }
  assert (Hreturns : forall (c : Firestore) codes,
            _projectId c <> VUndefined ->
            (exists r, request env c methodName req codes t = Return r)
            /\ (exists r, requestStream env isPermanentRpcError c methodName req t
                          = Return r)).
  { intros c codes Hc. apply Hdefined in Hc.
    unfold request, requestStream, createCallOptions, formattedName, projectId.
    unfold_m. rewrite Hc. split; eexists; reflexivity. }
  assert (Hthrows : _projectId fs = VUndefined ->
            exists message,
              request env fs methodName req retryCodes t = Throw (UsageError message)
              /\ requestStream env isPermanentRpcError fs methodName req t
                 = Throw (UsageError message)).
  { intros Hu.
    unfold request, requestStream, createCallOptions, formattedName, projectId.
    unfold_m. rewrite Hu. cbn. eexists. split; reflexivity. }
  split; [|split; [|split]].
  - split.
    + intros [r Hr] Hu. destruct (Hthrows Hu) as (message & Hthrown & _).
      rewrite Hthrown in Hr. discriminate Hr.
    + intros Hc. apply (Hreturns fs retryCodes Hc).
  - split.
    + intros [r Hr] Hu. destruct (Hthrows Hu) as (message & _ & Hthrown).
      rewrite Hthrown in Hr. discriminate Hr.
    + intros Hc. apply (Hreturns fs retryCodes Hc).
  - exact Hthrows.
  - intros detected Hresolved. apply Hreturns.
    apply initializeIfNeeded_resolved, Hresolved.
Qed.

End FunnelProjectFacts.
